(** * compare-sheets: the reconciliation engine of [app/pages/sheets/state.py]

    A shallow embedding of [compare_values] and [compare_files] together with
    the parts of Python, NumPy and pandas they rely on, followed by the
    properties of the engine.

    Conventions of the embedding:
    - a cell of a data frame is a scalar ([value]): a Python object, or the
      NumPy integer or boolean a typed column yields; strings are sequences
      of ASCII characters;
    - the booleans and the counts of the frames and of the summary that the
      engine builds are written as Python's, whichever of Python and NumPy
      produced them: nothing reads them back through the comparator;
    - a Python [float] is an IEEE 754 binary64 number, given by the
      [spec_float] of the standard library with [prec = 53], [emax = 1024];
    - a [pd.DataFrame] is a header and a list of rows, addressed by position
      (the row labels play no role in the engine);
    - data frames are mutable objects living in a store and are passed by
      reference; printing, the clock and exceptions are explicit in the
      monad [M]. *)

From Stdlib Require Import ZArith List String Ascii Bool Lia.
From Stdlib Require Import Floats.SpecFloat.
From stdpp Require Import base decidable option list strings pretty gmap sorting.

Open Scope string_scope.
Open Scope Z_scope.
Open Scope list_scope.
Open Scope stdpp_scope.

(** ** Text: the [str] methods used by the engine *)

Module Text.

(** [str.isspace] on the ASCII range: TAB, LF, VT, FF, CR, the four
    separators FS, GS, RS, US and the space. *)
Definition isspace (c : ascii) : bool :=
  match c with
  | "009" | "010" | "011" | "012" | "013"
  | "028" | "029" | "030" | "031" | " " => true
  | _ => false
  end%char.

Fixpoint lstrip (s : string) : string :=
  match s with
  | String c s' => if isspace c then lstrip s' else s
  | EmptyString => EmptyString
  end.

Fixpoint rstrip (s : string) : string :=
  match s with
  | String c s' =>
      match rstrip s' with
      | EmptyString => if isspace c then EmptyString else String c EmptyString
      | r => String c r
      end
  | EmptyString => EmptyString
  end.

(** [s.strip()] *)
Definition strip (s : string) : string := rstrip (lstrip s).

Definition lower_char (c : ascii) : ascii :=
  let n := N_of_ascii c in
  if ((65 <=? n) && (n <=? 90))%N then ascii_of_N (n + 32) else c.

(** [s.lower()] *)
Fixpoint lower (s : string) : string :=
  match s with
  | String c s' => String (lower_char c) (lower s')
  | EmptyString => EmptyString
  end.

Fixpoint contains (c : ascii) (s : string) : bool :=
  match s with
  | String d s' => if Ascii.eqb c d then true else contains c s'
  | EmptyString => false
  end.

Definition squote : ascii := "039"%char.
Definition dquote : ascii := "034"%char.
Definition backslash : ascii := "092"%char.

Definition hex_digit (n : N) : ascii :=
  (if n <? 10 then ascii_of_N (48 + n) else ascii_of_N (87 + n))%N.

(** One character of [repr(s)], [q] being the chosen quote. *)
Definition repr_char (q c : ascii) : string :=
  let n := N_of_ascii c in
  if Ascii.eqb c backslash then String backslash (String backslash "")
  else if Ascii.eqb c q then String backslash (String q "")
  else if Ascii.eqb c "009"%char then String backslash "t"
  else if Ascii.eqb c "010"%char then String backslash "n"
  else if Ascii.eqb c "013"%char then String backslash "r"
  else if ((n <? 32) || (127 <=? n))%N then
    String backslash (String "x"%char
      (String (hex_digit (n / 16)) (String (hex_digit (n mod 16)) "")))
  else String c "".

Fixpoint repr_body (q : ascii) (s : string) : string :=
  match s with
  | String c s' => repr_char q c +:+ repr_body q s'
  | EmptyString => EmptyString
  end.

(** [repr(s)] of a [str]: single quotes, unless the text has a single
    quote and no double quote. *)
Definition repr (s : string) : string :=
  let q := if contains squote s && negb (contains dquote s)
           then dquote else squote in
  String q (repr_body q s +:+ String q "").

(** [", ".join(l)] *)
Fixpoint join (sep : string) (l : list string) : string :=
  match l with
  | [] => ""
  | [x] => x
  | x :: l' => x +:+ sep +:+ join sep l'
  end.

(** [repr(l)] of a list of [str], as [tolist()] prints. *)
Definition repr_list (l : list string) : string :=
  "[" +:+ join ", " (map repr l) +:+ "]".

(** [n] copies of a character. *)
Fixpoint replicate_char (n : nat) (c : ascii) : string :=
  match n with
  | O => ""
  | S n' => String c (replicate_char n' c)
  end.

(** The first [n] characters, and the rest. *)
Fixpoint take (n : nat) (s : string) : string :=
  match n, s with
  | S n', String c s' => String c (take n' s')
  | _, _ => ""
  end.

Fixpoint drop (n : nat) (s : string) : string :=
  match n, s with
  | S n', String _ s' => drop n' s'
  | _, _ => s
  end.

End Text.

(** ** Floating point: Python's [float] *)

Module Float64.

Definition prec : Z := 53.
Definition emax : Z := 1024.

Abbreviation float := spec_float.

Definition is_nan (x : float) : bool :=
  match x with S754_nan => true | _ => false end.

(** [x == y] on floats: a NaN differs from everything, the two zeros are
    equal. *)
Definition eqb (x y : float) : bool := SFeqb x y.

(** The same bit pattern (NaN has one representative here). *)
Definition same (x y : float) : bool :=
  match x, y with
  | S754_zero s, S754_zero t | S754_infinity s, S754_infinity t => Bool.eqb s t
  | S754_nan, S754_nan => true
  | S754_finite s m e, S754_finite t n f =>
      Bool.eqb s t && Pos.eqb m n && Z.eqb e f
  | _, _ => false
  end.

(** The double nearest to the integer [z], ties to even. *)
Definition of_Z (z : Z) : float := binary_normalize prec emax z 0 false.

(** [float(z)] for an [int]: [None] stands for [OverflowError]. *)
Definition of_int (z : Z) : option float :=
  match of_Z z with
  | S754_infinity _ => None
  | f => Some f
  end.

(** The double nearest to the decimal [d * 10^q], ties to even
    ([d] positive). *)
Definition of_decimal (s : bool) (d : positive) (q : Z) : float :=
  match q with
  | Zneg p =>
      SFdiv prec emax (S754_finite s d 0) (S754_finite false (10 ^ p)%positive 0)
  | _ => binary_normalize prec emax (cond_Zopp s (Zpos d * 10 ^ q)) 0 s
  end.

(** [num / den] rounded to the nearest integer, ties to even
    ([num >= 0], [den > 0]). *)
Definition div_half_even (num den : Z) : Z :=
  let q := num / den in
  let r := num mod den in
  match 2 * r ?= den with
  | Lt => q
  | Gt => q + 1
  | Eq => if Z.even q then q else q + 1
  end.

(** The integer nearest to [m * 2^e * 100], ties to even: the exact value of
    the double, rounded to two decimals and counted in hundredths. *)
Definition hundredths (m : positive) (e : Z) : Z :=
  match e with
  | Zneg p => div_half_even (Zpos m * 100) (Zpos (2 ^ p)%positive)
  | _ => Zpos m * 100 * 2 ^ e
  end.

(** [round(x, 2)]: CPython rounds the exact value of [x] to two decimals
    (ties to even) and reads that decimal back as the nearest double;
    infinities and NaN round to themselves, and the sign of a zero result
    is the sign of [x]. *)
Definition round2 (x : float) : float :=
  match x with
  | S754_finite s m e =>
      match hundredths m e with
      | Zpos n => of_decimal s n (-2)
      | _ => S754_zero s
      end
  | _ => x
  end.

(** *** [repr(x)]: the shortest decimal that reads back as [x] *)

(** [10^p <= vn / vd] *)
Definition pow10_le (p vn vd : Z) : bool :=
  match p with
  | Zneg k => vd <=? vn * Zpos (10 ^ k)%positive
  | _ => 10 ^ p * vd <=? vn
  end.

Fixpoint log10_search (fuel : nat) (p vn vd : Z) : Z :=
  match fuel with
  | O => p
  | S fuel' =>
      if pow10_le (p + 1) vn vd then log10_search fuel' (p + 1) vn vd else p
  end.

(** The [p] with [10^p <= vn / vd < 10^(p+1)], found from an estimate by
    the bit lengths. *)
Definition log10_floor (vn vd : Z) : Z :=
  let lg := Z.log2 vn - Z.log2 vd in
  log10_search 8 ((lg - 1) * 30103 / 100000 - 2) vn vd.

(** [vn / vd / 10^q] as a fraction. *)
Definition scale10 (vn vd q : Z) : Z * Z :=
  match q with
  | Zneg k => (vn * Zpos (10 ^ k)%positive, vd)
  | _ => (vn, vd * 10 ^ q)
  end.

(** The decimal with [k] significant digits nearest to the double
    [m * 2^e] among those that read back as it, if there is one. *)
Definition candidate (m : positive) (e : Z) (vn vd p : Z) (k : nat)
  : option (positive * Z) :=
  let q := p - Z.of_nat k + 1 in
  let '(sn, sd) := scale10 vn vd q in
  let lo := sn / sd in
  let hi := lo + 1 in
  let ok d :=
    match d with
    | Zpos d' => same (of_decimal false d' q) (S754_finite false m e)
    | _ => false
    end in
  let pick d := match d with Zpos d' => Some (d', q) | _ => None end in
  match ok lo, ok hi with
  | true, false => pick lo
  | false, true => pick hi
  | false, false => None
  | true, true =>
      match 2 * sn ?= (lo + hi) * sd with
      | Lt => pick lo
      | Gt => pick hi
      | Eq => if Z.even lo then pick lo else pick hi
      end
  end.

Fixpoint shortest (m : positive) (e : Z) (vn vd p : Z) (fuel k : nat)
  : positive * Z :=
  match fuel with
  | O => (m, e)
  | S fuel' =>
      match candidate m e vn vd p k with
      | Some dq => dq
      | None => shortest m e vn vd p fuel' (S k)
      end
  end.

Fixpoint strip_zeros (fuel : nat) (d q : Z) : Z * Z :=
  match fuel with
  | O => (d, q)
  | S fuel' =>
      if (d mod 10 =? 0) && negb (d =? 0)
      then strip_zeros fuel' (d / 10) (q + 1) else (d, q)
  end.

(** The digits of the shortest decimal and the position of its decimal
    point: the value is [0.digits * 10^decpt]. *)
Definition digits_decpt (m : positive) (e : Z) : string * Z :=
  let '(vn, vd) :=
    match e with
    | Zneg k => (Zpos m, Zpos (2 ^ k)%positive)
    | _ => (Zpos m * 2 ^ e, 1)
    end in
  let p := log10_floor vn vd in
  let '(d, q) := shortest m e vn vd p 17 1 in
  let '(d, q) := strip_zeros 20 (Zpos d) q in
  let ds := pretty d in
  (ds, q + Z.of_nat (String.length ds)).

Definition exponent_text (x : Z) : string :=
  let a := pretty (Z.abs x) in
  (if x <? 0 then "-" else "+") +:+ (if Z.abs x <? 10 then "0" else "") +:+ a.

(** The layout of [repr]: positional for [-4 < decpt <= 16], with a
    trailing [.0] for integers; scientific otherwise. *)
Definition layout (ds : string) (decpt : Z) : string :=
  let k := Z.of_nat (String.length ds) in
  if (decpt <=? -4) || (16 <? decpt) then
    Text.take 1 ds
      +:+ (if 1 <? k then "." +:+ Text.drop 1 ds else "")
      +:+ "e" +:+ exponent_text (decpt - 1)
  else if decpt <=? 0 then
    "0." +:+ Text.replicate_char (Z.to_nat (- decpt)) "0" +:+ ds
  else if k <=? decpt then
    ds +:+ Text.replicate_char (Z.to_nat (decpt - k)) "0" +:+ ".0"
  else
    Text.take (Z.to_nat decpt) ds +:+ "." +:+ Text.drop (Z.to_nat decpt) ds.

(** [repr(x)], which is also [str(x)]. *)
Definition repr (x : float) : string :=
  match x with
  | S754_nan => "nan"
  | S754_infinity s => if s then "-inf" else "inf"
  | S754_zero s => if s then "-0.0" else "0.0"
  | S754_finite s m e =>
      let '(ds, decpt) := digits_decpt m e in
      (if s then "-" else "") +:+ layout ds decpt
  end.

End Float64.

(** ** Python scalars and exceptions *)

Import Float64.

(** The scalars a cell can hold, as the engine meets them when it reads
    [column.values]. A column of dtype [object] yields the Python objects it
    holds: [None], [bool], [int], [float], [str] and, for the types the
    engine knows nothing about, [datetime.date]. A typed column yields NumPy
    scalars: a [float64] column yields [np.float64], which is a subclass of
    [float] and is not told apart from it ([VFloat]); an [int64] column
    yields [np.int64] ([VInt64], its integer within the 64-bit range) and a
    [bool] column yields [np.bool_] ([VBool_]), neither of which is an
    instance of [int]. *)
Inductive value :=
  | VNone
  | VBool (b : bool)
  | VInt (z : Z)
  | VFloat (f : float)
  | VStr (s : string)
  | VDate (year month day : nat)
  | VInt64 (z : Z)
  | VBool_ (b : bool).

Inductive exn :=
  | KeyError (arg : string)
  | OverflowError (msg : string)
  | TypeError (msg : string)
  | ValueError (msg : string)
  | Exception (msg : string).

(** A computation that returns or raises. *)
Inductive result (A : Type) :=
  | Ok (a : A)
  | Raise (e : exn).
Arguments Ok {A} a.
Arguments Raise {A} e.

Definition rbind {A B} (r : result A) (k : A -> result B) : result B :=
  match r with
  | Ok a => k a
  | Raise e => Raise e
  end.

#[global] Instance result_ret : MRet result := fun A a => Ok a.
#[global] Instance result_bind : MBind result := fun A B k r => rbind r k.

(** [[f(x) for x in l]]: the first exception ends the comprehension. *)
Fixpoint rmap {A B} (f : A -> result B) (l : list A) : result (list B) :=
  match l with
  | [] => Ok []
  | x :: l' => rbind (f x) (fun y => rbind (rmap f l') (fun ys => Ok (y :: ys)))
  end.

#[global] Instance spec_float_eq_dec : EqDecision spec_float.
Proof. solve_decision. Defined.
#[global] Instance value_eq_dec : EqDecision value.
Proof. solve_decision. Defined.
#[global] Instance exn_eq_dec : EqDecision exn.
Proof. solve_decision. Defined.

Definition nan : float := S754_nan.

(** [pd.isna(v)] on a scalar: [None] and the float NaN are the missing
    markers. *)
Definition isna (v : value) : bool :=
  match v with
  | VNone => true
  | VFloat f => is_nan f
  | _ => false
  end.

(** [isinstance(v, (float, int))]; [bool] is a subclass of [int] and
    [np.float64] of [float]; [np.int64] and [np.bool_] are subclasses of
    neither. *)
Definition isinstance_float_int (v : value) : bool :=
  match v with
  | VBool _ | VInt _ | VFloat _ => true
  | VNone | VStr _ | VDate _ _ _ | VInt64 _ | VBool_ _ => false
  end.

(** [isinstance(v, str)] *)
Definition isinstance_str (v : value) : bool :=
  match v with
  | VStr _ => true
  | _ => false
  end.

(** [float(v)]. The engine applies it to instances of [float] and [int]
    only; the parse of a [str] is left out. *)
Definition py_float (v : value) : result float :=
  match v with
  | VBool b => Ok (of_Z (if b then 1 else 0))
  | VInt z =>
      match of_int z with
      | Some f => Ok f
      | None => Raise (OverflowError "int too large to convert to float")
      end
  | VFloat f => Ok f
  | VInt64 z => Ok (of_Z z)
  | VBool_ b => Ok (of_Z (if b then 1 else 0))
  | _ => Raise (TypeError "float() argument must be a string or a real number")
  end.

(** The text of a [str]. *)
Definition text_of (v : value) : string :=
  match v with
  | VStr s => s
  | _ => ""
  end.

(** [z == f] for an [int] and a [float]: Python compares the exact values. *)
Definition int_eq_float (z : Z) (f : float) : bool :=
  match f with
  | S754_zero _ => z =? 0
  | S754_finite s m e =>
      match e with
      | Zneg k => z * Zpos (2 ^ k)%positive =? cond_Zopp s (Zpos m)
      | _ => z =? cond_Zopp s (Zpos m * 2 ^ e)
      end
  | _ => false
  end.

Definition Z_of_bool (b : bool) : Z := if b then 1 else 0.

(** [v1 == v2]. Between Python objects, numbers are compared by their
    exact values and everything else within its own type. When one side is a
    NumPy scalar, NumPy decides, also from the right-hand side (the Python
    operand declines and the comparison is reflected): integers and booleans
    are compared as integers, and against a float the integer is converted
    to a double first; a NumPy scalar equals no text, date or [None]. *)
Definition py_eq (v1 v2 : value) : bool :=
  match v1, v2 with
  | VNone, VNone => true
  | VBool a, VBool b => Bool.eqb a b
  | VBool a, VInt z | VInt z, VBool a => Z_of_bool a =? z
  | VBool a, VFloat f | VFloat f, VBool a => int_eq_float (Z_of_bool a) f
  | VInt a, VInt b => a =? b
  | VInt z, VFloat f | VFloat f, VInt z => int_eq_float z f
  | VFloat f, VFloat g => Float64.eqb f g
  | VStr s, VStr t => String.eqb s t
  | VDate y m d, VDate y' m' d' => (y =? y')%nat && (m =? m')%nat && (d =? d')%nat
  | VInt64 a, VInt64 b => a =? b
  | VInt64 a, VInt z | VInt z, VInt64 a => a =? z
  | VInt64 a, VBool b | VBool b, VInt64 a => a =? Z_of_bool b
  | VInt64 a, VBool_ b | VBool_ b, VInt64 a => a =? Z_of_bool b
  | VInt64 a, VFloat f => Float64.eqb (of_Z a) f
  | VFloat f, VInt64 a => Float64.eqb f (of_Z a)
  | VBool_ a, VBool_ b => Bool.eqb a b
  | VBool_ a, VBool b | VBool b, VBool_ a => Bool.eqb a b
  | VBool_ a, VInt z | VInt z, VBool_ a => Z_of_bool a =? z
  | VBool_ a, VFloat f => Float64.eqb (of_Z (Z_of_bool a)) f
  | VFloat f, VBool_ a => Float64.eqb f (of_Z (Z_of_bool a))
  | _, _ => false
  end.

(** ** The value comparator *)

(** [compare_values(val1, val2)] *)
Definition compare_values (val1 val2 : value) : result bool :=
  if isna val1 && isna val2 then Ok true
  else if isna val1 || isna val2 then Ok false
  else if isinstance_float_int val1 && isinstance_float_int val2 then
    rbind (py_float val1) (fun f1 =>
    rbind (py_float val2) (fun f2 =>
    Ok (Float64.eqb (round2 f1) (round2 f2))))
  else if isinstance_str val1 && isinstance_str val2 then
    Ok (String.eqb (Text.lower (Text.strip (text_of val1)))
                   (Text.lower (Text.strip (text_of val2))))
  else Ok (py_eq val1 val2).

(** ** Series and data frames *)

Definition zero_pad (width : nat) (s : string) : string :=
  Text.replicate_char (width - String.length s) "0" +:+ s.

(** [str(v)] *)
Definition py_str (v : value) : string :=
  match v with
  | VNone => "None"
  | VBool b => if b then "True" else "False"
  | VInt z => pretty z
  | VFloat f => Float64.repr f
  | VStr s => s
  | VDate y m d =>
      zero_pad 4 (pretty y) +:+ "-" +:+ zero_pad 2 (pretty m)
        +:+ "-" +:+ zero_pad 2 (pretty d)
  | VInt64 z => pretty z
  | VBool_ b => if b then "True" else "False"
  end.

(** A column of values, by position. *)
Definition Series := list value.

(** [s.astype(str)] *)
Definition astype_str (s : Series) : Series :=
  map (fun v => VStr (py_str v)) s.

(** [s.str.strip()]: an entry that is no [str] becomes NaN. *)
Definition str_strip (s : Series) : Series :=
  map (fun v => match v with
                | VStr t => VStr (Text.strip t)
                | _ => VFloat nan
                end) s.

(** [s.isin(values)] *)
Definition isin (s values : Series) : list bool :=
  map (fun v => bool_decide (v ∈ values)) s.

Record DataFrame := {
  columns : list string;
  rows : list (list value)
}.

(** Every row has one cell per column. *)
Definition wf_frame (df : DataFrame) : Prop :=
  Forall (fun r => length r = length (columns df)) (rows df).

(** The position of the first column named [c]. *)
Fixpoint get_loc (c : string) (cols : list string) : option nat :=
  match cols with
  | [] => None
  | c' :: cols' =>
      if String.eqb c c' then Some O else option_map S (get_loc c cols')
  end.

(** [df[c]] *)
Definition get_column (df : DataFrame) (c : string) : result Series :=
  match get_loc c (columns df) with
  | Some i => Ok (map (fun r => nth i r VNone) (rows df))
  | None => Raise (KeyError c)
  end.

(** [df[c] = s]: the column is replaced, or added as the last one. *)
Definition set_column (df : DataFrame) (c : string) (s : Series)
  : result DataFrame :=
  if negb (length s =? length (rows df))%nat then
    Raise (ValueError "Length of values does not match length of index")
  else
    match get_loc c (columns df) with
    | Some i =>
        Ok {| columns := columns df;
              rows := zip_with (fun r v => <[i:=v]> r) (rows df) s |}
    | None =>
        Ok {| columns := columns df ++ [c];
              rows := zip_with (fun r v => r ++ [v]) (rows df) s |}
    end.

(** [df[mask]] for a boolean mask. *)
Definition mask_rows (df : DataFrame) (mask : list bool) : DataFrame :=
  {| columns := columns df;
     rows := map fst (filter (fun rb => snd rb = true) (zip (rows df) mask)) |}.

(** [df.rename(columns=mapping)] *)
Definition rename (df : DataFrame) (mapping : list (string * string))
  : DataFrame :=
  {| columns :=
       map (fun c => match list_find (fun kv => kv.1 = c) mapping with
                     | Some (_, kv) => kv.2
                     | None => c
                     end) (columns df);
     rows := rows df |}.

(** [pd.merge(left, right, left_on=.., right_on=.., how="inner")]: each left
    row, in the order of the left keys, with each right row of the same key;
    a column name common to both sides gets the suffixes [_x] and [_y]. *)
Definition merge (left right : DataFrame) (left_on right_on : string)
  : result DataFrame :=
  rbind (get_column left left_on) (fun lkeys =>
  rbind (get_column right right_on) (fun rkeys =>
  Ok {| columns :=
          map (fun c => if bool_decide (c ∈ columns right)
                        then c +:+ "_x" else c) (columns left)
          ++ map (fun c => if bool_decide (c ∈ columns left)
                           then c +:+ "_y" else c) (columns right);
        rows :=
          flat_map (fun kl =>
            map (fun kr => kl.2 ++ kr.2)
                (filter (fun kr => kr.1 = kl.1) (zip rkeys (rows right))))
            (zip lkeys (rows left)) |})).

(** An insertion-ordered [dict] with [str] keys. *)
Definition dict (A : Type) := list (string * A).

(** [d[k]] *)
Fixpoint dict_get {A} (d : dict A) (k : string) : result A :=
  match d with
  | [] => Raise (KeyError k)
  | (k', a) :: d' => if String.eqb k k' then Ok a else dict_get d' k
  end.

(** [d[k] = a] *)
Fixpoint dict_set {A} (d : dict A) (k : string) (a : A) : dict A :=
  match d with
  | [] => [(k, a)]
  | (k', a') :: d' =>
      if String.eqb k k' then (k', a) :: d' else (k', a') :: dict_set d' k a
  end.

(** [d.update(e)] *)
Definition dict_update {A} (d e : dict A) : dict A :=
  fold_left (fun acc kv => dict_set acc kv.1 kv.2) e d.

(** [pd.DataFrame(data)] for a dict of columns indexed [0 .. len - 1]: the
    rows run over the longest column, shorter ones are filled with NaN. *)
Definition DataFrame_of_dict (data : dict Series) : DataFrame :=
  {| columns := map fst data;
     rows := map (fun i => map (fun kv => nth i kv.2 (VFloat nan)) data)
                 (seq 0 (foldr Nat.max O (map (fun kv => length kv.2) data))) |}.

(** The order of the sort keys: [False < True], numbers and texts in their
    own order; values of different kinds are left in place. *)
Definition value_le (a b : value) : Prop :=
  match a, b with
  | VBool x, VBool y => implb x y = true
  | VInt x, VInt y => (x <= y)%Z
  | VStr x, VStr y => String.leb x y = true
  | _, _ => True
  end.

#[global] Instance value_le_dec : RelDecision value_le.
Proof. intros [] []; simpl; apply _. Defined.

(** The order of two rows under the sort key in column [i]. *)
Definition row_before (i : nat) (ascending : bool) (r1 r2 : list value)
  : Prop :=
  if ascending then value_le (nth i r1 VNone) (nth i r2 VNone)
  else value_le (nth i r2 VNone) (nth i r1 VNone).

#[global] Instance row_before_dec i ascending : RelDecision (row_before i ascending).
Proof. intros r1 r2; unfold row_before; destruct ascending; apply _. Defined.

(** [df.sort_values(by, ascending=..)]. pandas leaves the order of rows
    with equal keys to its sorting routine, which is not stable by default;
    the merge sort used here orders them in its own way too, and no
    property below depends on the order of rows with equal keys. *)
Definition sort_values (df : DataFrame) (by_ : string) (ascending : bool)
  : result DataFrame :=
  match get_loc by_ (columns df) with
  | Some i =>
      Ok {| columns := columns df;
            rows := merge_sort (row_before i ascending) (rows df) |}
  | None => Raise (KeyError by_)
  end.

(** ** The interpreter state: objects, the console, the clock *)

(** A reference to a data frame object. *)
Definition loc := nat.

Record state := {
  heap : loc -> DataFrame;     (* the data frame objects *)
  stdout : list string;        (* the lines printed so far *)
  clock : nat -> float;        (* the successive readings of the timer *)
  ticks : nat                  (* how many readings were taken *)
}.

(** A statement: it runs in a state, returns or raises, and leaves a
    state. *)
Definition M (A : Type) : Type := state -> result A * state.

#[global] Instance M_ret : MRet M := fun A a st => (Ok a, st).
#[global] Instance M_bind : MBind M := fun A B k m st =>
  match m st with
  | (Ok a, st') => k a st'
  | (Raise e, st') => (Raise e, st')
  end.

Definition raise {A} (e : exn) : M A := fun st => (Raise e, st).

Definition lift {A} (r : result A) : M A := fun st => (r, st).

(** The object behind a reference. *)
Definition deref (l : loc) : M DataFrame := fun st => (Ok (heap st l), st).

Definition heap_update (h : loc -> DataFrame) (l : loc) (df : DataFrame)
  : loc -> DataFrame :=
  fun l' => if decide (l' = l) then df else h l'.

(** The object behind [l] becomes [df]; every reference to it sees the
    change. *)
Definition assign (l : loc) (df : DataFrame) : M unit := fun st =>
  (Ok tt, {| heap := heap_update (heap st) l df; stdout := stdout st;
             clock := clock st; ticks := ticks st |}).

(** [print(line)] *)
Definition print (line : string) : M unit := fun st =>
  (Ok tt, {| heap := heap st; stdout := stdout st ++ [line];
             clock := clock st; ticks := ticks st |}).

(** [perf_counter()] *)
Definition perf_counter : M float := fun st =>
  (Ok (clock st (ticks st)),
   {| heap := heap st; stdout := stdout st;
      clock := clock st; ticks := S (ticks st) |}).

(** [try: body / except KeyError as e: handler(e)] *)
Definition try_except_KeyError {A} (body : M A) (handler : string -> M A)
  : M A := fun st =>
  match body st with
  | (Raise (KeyError arg), st') => handler arg st'
  | other => other
  end.

(** [for x in l: acc = body(acc, x)] *)
Fixpoint for_each {A S} (l : list A) (body : S -> A -> M S) (acc : S) : M S :=
  match l with
  | [] => mret acc
  | x :: l' => acc' ← body acc x; for_each l' body acc'
  end.

(** [df[c]] through a reference *)
Definition getitem (l : loc) (c : string) : M Series :=
  df ← deref l; lift (get_column df c).

(** [df[c] = s] through a reference: the object is changed in place. *)
Definition setitem (l : loc) (c : string) (s : Series) : M unit :=
  df ← deref l; df' ← lift (set_column df c s); assign l df'.

(** [f"{x:.2f}"] *)
Definition format_2f (x : float) : string :=
  match x with
  | S754_nan => "nan"
  | S754_infinity s => if s then "-inf" else "inf"
  | S754_zero s => (if s then "-" else "") +:+ "0.00"
  | S754_finite s m e =>
      let n := hundredths m e in
      (if s then "-" else "") +:+ pretty (n / 100) +:+ "."
        +:+ zero_pad 2 (pretty (n mod 100))
  end.

(** ** The reconciliation engine *)

(** The dict returned by [compare_files]. *)
Record comparison_results := {
  comparison_df : DataFrame;
  summary : dict value;
  not_in_file1 : DataFrame;
  not_in_file2 : DataFrame
}.

(** [len(a)] as an [int] *)
Definition len {A} (l : list A) : value := VInt (Z.of_nat (length l)).

(** [a.sum()] of a boolean array *)
Definition bool_sum (a : list bool) : Z :=
  Z.of_nat (length (filter (fun b => b = true) a)).

(** The statements under [try:] in the loop over the column pairs; they
    neither print nor touch a data frame. *)
Definition compare_columns (common_records : DataFrame)
    (comparison_data : dict Series) (all_matches : list bool)
    (col_name col1 col2 : string) : result (dict Series * list bool) :=
  let col1_renamed := col1 +:+ "_file1" in
  let col2_renamed := col2 +:+ "_file2" in
  if negb (bool_decide (col1_renamed ∈ columns common_records)) then
    Raise (KeyError ("Column '" +:+ col1 +:+ "' not found in first file"))
  else if negb (bool_decide (col2_renamed ∈ columns common_records)) then
    Raise (KeyError ("Column '" +:+ col2 +:+ "' not found in second file"))
  else
    file1_values ← get_column common_records col1_renamed;
    file2_values ← get_column common_records col2_renamed;
    matches ← rmap (fun vs => compare_values vs.1 vs.2)
                   (zip file1_values file2_values);
    let all_matches := zip_with andb all_matches matches in
    let comparison_data :=
      dict_update comparison_data
        [ (col_name +:+ "_file1", file1_values);
          (col_name +:+ "_file2", file2_values);
          (col_name +:+ "_matches", map VBool matches) ] in
    mret (comparison_data, all_matches).

(** The [except KeyError as e:] clause. *)
Definition column_access_error {A} (common_records : DataFrame) (e : string)
  : M A :=
  print ("Warning: Column access error - " +:+ Text.repr e);;
  print ("Available columns in merged dataframe: "
         +:+ Text.repr_list (columns common_records));;
  raise (Exception ("Column '" +:+ Text.repr e
                    +:+ "' not found. Please check your column mapping.")).

(** The body of the loop over [column_mapping.items()]. *)
Definition compare_pair (common_records : DataFrame)
    (acc : dict Series * list bool) (item : string * (string * string))
  : M (dict Series * list bool) :=
  let '(comparison_data, all_matches) := acc in
  let '(col_name, (col1, col2)) := item in
  if String.eqb col_name "id" then mret acc
  else
    try_except_KeyError
      (lift (compare_columns common_records comparison_data all_matches
                             col_name col1 col2))
      (column_access_error common_records).

(** [compare_files(df1, df2, column_mapping)] *)
Definition compare_files (df1 df2 : loc)
    (column_mapping : dict (string * string)) : M comparison_results :=
  start_time ← perf_counter;
  id_mapping ← lift (dict_get column_mapping "id");
  let '(df1_id_col, df2_id_col) := id_mapping in
  ids1 ← getitem df1 df1_id_col;
  setitem df1 df1_id_col (str_strip (astype_str ids1));;
  ids2 ← getitem df2 df2_id_col;
  setitem df2 df2_id_col (str_strip (astype_str ids2));;
  (* records of the second file that are not in the first *)
  d2 ← deref df2;
  ids2 ← getitem df2 df2_id_col;
  ids1 ← getitem df1 df1_id_col;
  let not_in_df1 := mask_rows d2 (map negb (isin ids2 ids1)) in
  print ("Records in File 2 but not in File 1: "
         +:+ pretty (length (rows not_in_df1)));;
  (* records of the first file that are not in the second *)
  d1 ← deref df1;
  ids1 ← getitem df1 df1_id_col;
  ids2 ← getitem df2 df2_id_col;
  let not_in_df2 := mask_rows d1 (map negb (isin ids1 ids2)) in
  print ("Records in File 1 but not in File 2: "
         +:+ pretty (length (rows not_in_df2)));;
  (* copies with the columns tagged by their file *)
  df1_renamed ← deref df1;
  df2_renamed ← deref df2;
  d1 ← deref df1;
  d2 ← deref df2;
  let df1_column_map := map (fun col => (col, col +:+ "_file1")) (columns d1) in
  let df2_column_map := map (fun col => (col, col +:+ "_file2")) (columns d2) in
  let df1_renamed := rename df1_renamed df1_column_map in
  let df2_renamed := rename df2_renamed df2_column_map in
  common_records ← lift (merge df1_renamed df2_renamed
                           (df1_id_col +:+ "_file1") (df2_id_col +:+ "_file2"));
  ids ← lift (get_column common_records (df1_id_col +:+ "_file1"));
  let comparison_data := [("id", ids)] in
  let all_matches := replicate (length (rows common_records)) true in
  acc ← for_each column_mapping (compare_pair common_records)
                 (comparison_data, all_matches);
  let '(comparison_data, all_matches) := acc in
  let comparison_data :=
    dict_set comparison_data "all_columns_match" (map VBool all_matches) in
  comparison_df ← lift (sort_values (DataFrame_of_dict comparison_data)
                                    "all_columns_match" false);
  d1 ← deref df1;
  d2 ← deref df2;
  end_time ← perf_counter;
  let summary :=
    [ ("Total rows in File 1", len (rows d1));
      ("Total rows in File 2", len (rows d2));
      ("Records only in File 1", len (rows not_in_df2));
      ("Records only in File 2", len (rows not_in_df1));
      ("Common records", len (rows common_records));
      ("Matching records", VInt (bool_sum all_matches));
      ("Mismatched records",
         VInt (Z.of_nat (length all_matches) - bool_sum all_matches));
      ("Time taken",
         VStr (format_2f (SFsub prec emax end_time start_time) +:+ " seconds")) ] in
  mret {| comparison_df := comparison_df;
          summary := summary;
          not_in_file1 := not_in_df1;
          not_in_file2 := not_in_df2 |}.

(** ** Vocabulary of the properties *)


(** The NumPy integers and booleans: the cells of [int64] and [bool]
    columns. *)
Definition is_numpy (v : value) : bool :=
  match v with
  | VInt64 _ | VBool_ _ => true
  | _ => false
  end.



(** The double written [1.004]. *)
Definition f_1_004 : float := Eval vm_compute in of_decimal false 1004 (-3).

(** The double [1.0]. *)
Definition f_1_0 : float := Eval vm_compute in of_Z 1.

(** The column [c] of [df], empty when there is none. *)
Definition column (df : DataFrame) (c : string) : Series :=
  match get_column df c with
  | Ok s => s
  | Raise _ => []
  end.

(** What the engine writes back into an identifier column. *)
Definition normalize_ids (s : Series) : Series := str_strip (astype_str s).

(** The frame [df] once its identifier column [c] is normalized. *)
Definition normalized_frame (df : DataFrame) (c : string) : DataFrame :=
  match set_column df c (normalize_ids (column df c)) with
  | Ok df' => df'
  | Raise _ => df
  end.

(** The objects once both identifier columns are normalized, the first
    file's, then the second's. *)
Definition normalized_heap (h : loc -> DataFrame) (l1 : loc) (c1 : string)
    (l2 : loc) (c2 : string) : loc -> DataFrame :=
  let h1 := heap_update h l1 (normalized_frame (h l1) c1) in
  heap_update h1 l2 (normalized_frame (h1 l2) c2).

(** The rows of [df] whose identifier is absent from [others]. *)
Definition unmatched (df : DataFrame) (ids others : Series) : DataFrame :=
  mask_rows df (map negb (isin ids others)).

(** The inner join of two frames on the identifier columns [ids1] and
    [ids2], the columns tagged by their file. *)
Definition joined (e1 e2 : DataFrame) (ids1 ids2 : Series) : DataFrame :=
  {| columns := map (fun c => c +:+ "_file1") (columns e1)
                ++ map (fun c => c +:+ "_file2") (columns e2);
     rows := flat_map (fun kl =>
               map (fun kr => kl.2 ++ kr.2)
                   (filter (fun kr => kr.1 = kl.1) (zip ids2 (rows e2))))
               (zip ids1 (rows e1)) |}.

(** One turn of the loop over the mapping, before the [except] clause. *)
Definition pair_step (common_records : DataFrame)
    (acc : dict Series * list bool) (item : string * (string * string))
  : result (dict Series * list bool) :=
  if String.eqb item.1 "id" then Ok acc
  else compare_columns common_records acc.1 acc.2 item.1 item.2.1 item.2.2.

(** [for x in l: acc = step(acc, x)], the first exception ending it. *)
Fixpoint rfold {A S} (step : S -> A -> result S) (l : list A) (acc : S)
  : result S :=
  match l with
  | [] => Ok acc
  | x :: l' => rbind (step acc x) (rfold step l')
  end.

(** The comparison frame built from the columns and the flags, sorted. *)
Definition sorted_comparison (data : dict Series) (flags : list bool)
  : DataFrame :=
  match sort_values
          (DataFrame_of_dict
             (dict_set data "all_columns_match" (map VBool flags)))
          "all_columns_match" false with
  | Ok df => df
  | Raise _ => DataFrame_of_dict data
  end.

Definition mk_state (st : state) (h : loc -> DataFrame) (out : list string)
    (n : nat) : state :=
  {| heap := h; stdout := stdout st ++ out; clock := clock st;
     ticks := n + ticks st |}.

(** The lines printed after the two set differences. *)
Definition difference_lines (n1 n2 : DataFrame) : list string :=
  [ "Records in File 2 but not in File 1: " +:+ pretty (length (rows n1));
    "Records in File 1 but not in File 2: " +:+ pretty (length (rows n2)) ].

(** The run of [compare_files] when the mapping names the identifier
    columns [c1], [c2] and both exist. *)
Definition run_of (l1 l2 : loc) (c1 c2 : string)
    (column_mapping : dict (string * string)) (st : state)
  : result comparison_results * state :=
  let h := normalized_heap (heap st) l1 c1 l2 c2 in
  let e1 := h l1 in
  let e2 := h l2 in
  let ids1 := column e1 c1 in
  let ids2 := column e2 c2 in
  let n1 := unmatched e2 ids2 ids1 in
  let n2 := unmatched e1 ids1 ids2 in
  let cr := joined e1 e2 ids1 ids2 in
  match rfold (pair_step cr) column_mapping
              ([("id", column cr (c1 +:+ "_file1"))],
               replicate (length (rows cr)) true) with
  | Ok (data, flags) =>
      (Ok {| comparison_df := sorted_comparison data flags;
             summary :=
               [ ("Total rows in File 1", len (rows e1));
                 ("Total rows in File 2", len (rows e2));
                 ("Records only in File 1", len (rows n2));
                 ("Records only in File 2", len (rows n1));
                 ("Common records", len (rows cr));
                 ("Matching records", VInt (bool_sum flags));
                 ("Mismatched records",
                    VInt (Z.of_nat (length flags) - bool_sum flags));
                 ("Time taken",
                    VStr (format_2f (SFsub prec emax
                                       (clock st (S (ticks st)))
                                       (clock st (ticks st)))
                          +:+ " seconds")) ];
             not_in_file1 := n1;
             not_in_file2 := n2 |},
       mk_state st h (difference_lines n1 n2) 2)
  | Raise (KeyError e) =>
      (Raise (Exception ("Column '" +:+ Text.repr e
                         +:+ "' not found. Please check your column mapping.")),
       mk_state st h
         (difference_lines n1 n2 ++
          [ "Warning: Column access error - " +:+ Text.repr e;
            "Available columns in merged dataframe: "
              +:+ Text.repr_list (columns cr) ]) 1)
  | Raise e => (Raise e, mk_state st h (difference_lines n1 n2) 1)
  end.

(** *** A worked reconciliation

    File 1 holds Alice (10.004), Bob (5.0) and Dan (7.0) under the ids "1",
    "2", "4"; file 2 holds alice (10.0), Carl (1.0) and Dave (7.0) under
    "1 ", "3", "4". *)

Definition dec (d : positive) (q : Z) : value := VFloat (of_decimal false d q).

Definition demo_file1 : DataFrame := Eval vm_compute in
  {| columns := ["id"; "name"; "amt"];
     rows := [ [VStr "1"; VStr "Alice"; dec 10004 (-3)];
               [VStr "2"; VStr "Bob"; dec 5 0];
               [VStr "4"; VStr "Dan"; dec 7 0] ] |}.

Definition demo_file2 : DataFrame := Eval vm_compute in
  {| columns := ["id"; "name"; "amt"];
     rows := [ [VStr "1 "; VStr "alice"; dec 10 0];
               [VStr "3"; VStr "Carl"; dec 1 0];
               [VStr "4"; VStr "Dave"; dec 7 0] ] |}.

(** Object 0 is file 1, every other object is file 2; nothing is printed
    yet and the timer reads 0, 1, 2, ... seconds. *)
Definition demo_state : state :=
  {| heap := fun l => match l with O => demo_file1 | _ => demo_file2 end;
     stdout := [];
     clock := fun n => of_Z (Z.of_nat n);
     ticks := 0 |}.

Definition demo_mapping : dict (string * string) :=
  [ ("id", ("id", "id"));
    ("comparison_0", ("name", "name"));
    ("comparison_1", ("amt", "amt")) ].


Definition empty_frame : DataFrame := {| columns := []; rows := [] |}.

(** What a run returned, if it did. *)
Definition returned (r : result comparison_results) : comparison_results :=
  match r with
  | Ok a => a
  | Raise _ =>
      {| comparison_df := empty_frame; summary := [];
         not_in_file1 := empty_frame; not_in_file2 := empty_frame |}
  end.

Definition demo_results : comparison_results := Eval vm_compute in
  returned (compare_files 0%nat 1%nat demo_mapping demo_state).1.

Definition demo_final : state :=
  (compare_files 0%nat 1%nat demo_mapping demo_state).2.

(** The summary without its elapsed-time entry. *)
Definition counts (s : dict value) : dict value :=
  filter (fun kv => kv.1 <> "Time taken") s.

(** Every column gathered so far, and the array of flags, has one entry per
    joined row. *)
Definition well_shaped (n : nat) (acc : dict Series * list bool) : Prop :=
  Forall (fun kv => length kv.2 = n) acc.1 /\ length acc.2 = n.

(** The rows whose flag is true come first: the order of
    [ascending=False]. *)
Definition matches_first (flags : Series) : Prop :=
  exists a b, flags = replicate a (VBool true) ++ replicate b (VBool false).

(** The rows whose flag is false come first: the order of
    [ascending=True]. *)
Definition mismatches_first (flags : Series) : Prop :=
  exists a b, flags = replicate a (VBool false) ++ replicate b (VBool true).

(** The normalized identifiers of a column, as texts. *)
Definition id_texts (s : Series) : list string :=
  map (fun v => Text.strip (py_str v)) s.

(** *** Two files that write one identifier as an int and as a float *)

Definition int_id_file : DataFrame :=
  {| columns := ["id"]; rows := [[VInt 1]] |}.

Definition float_id_file : DataFrame :=
  {| columns := ["id"]; rows := [[VFloat f_1_0]] |}.

Definition numeric_id_state : state :=
  {| heap := fun l => match l with O => int_id_file | _ => float_id_file end;
     stdout := [];
     clock := fun n => of_Z (Z.of_nat n);
     ticks := 0 |}.

(** [float(v)] does not overflow: [v] is no [int] beyond the range of the
    doubles. *)
Definition floatable (v : value) : bool :=
  match v with
  | VInt z => match of_int z with Some _ => true | None => false end
  | _ => true
  end.

Definition all_floatable (df : DataFrame) : Prop :=
  Forall (Forall (fun v => floatable v = true)) (rows df).



(** ** Vocabulary of the further properties *)

(** A text made of whitespace only. *)
Fixpoint all_space (s : string) : bool :=
  match s with
  | String c s' => Text.isspace c && all_space s'
  | EmptyString => true
  end.

(** A float with the sign of a zero forgotten: what [==] looks at. *)
Definition unsigned_zero (x : float) : float :=
  match x with
  | S754_zero _ => S754_zero false
  | _ => x
  end.

(** [row[c]]: the cell of a row of [df] under the column [c]. *)
Definition cell (df : DataFrame) (c : string) (r : list value) : value :=
  match get_loc c (columns df) with
  | Some i => nth i r VNone
  | None => VNone
  end.

(** How many times a key occurs in a column. *)
Definition occurrences (k : value) (s : Series) : nat :=
  length (filter (fun k' => k' = k) s).

(** [compare_values] read as a flag; a comparison that raises is no match
    (the loop does not get that far: it ends at the exception). *)
Definition values_match (v1 v2 : value) : bool :=
  match compare_values v1 v2 with
  | Ok b => b
  | Raise _ => false
  end.

(** The entries of the mapping that the loop compares: all but ["id"]. *)
Definition compared (column_mapping : dict (string * string))
  : dict (string * string) :=
  filter (fun item => item.1 <> "id") column_mapping.

(** The three keys the loop writes for a comparison name. *)
Definition tagged_keys (name : string) : list string :=
  [name +:+ "_file1"; name +:+ "_file2"; name +:+ "_matches"].

(** The header of the comparison frame. *)
Definition comparison_header (column_mapping : dict (string * string))
  : list string :=
  "id" :: flat_map tagged_keys (map fst (compared column_mapping))
  ++ ["all_columns_match"].

(** A record of the comparison frame, from the identifier and the pairs of
    cells compared: the identifier, then for each pair the two cells and
    their flag, then the conjunction of the flags. *)
Definition record_of (id : value) (cells : list (value * value))
  : list value :=
  id :: flat_map (fun vs : value * value =>
                    [vs.1; vs.2; VBool (values_match vs.1 vs.2)]) cells
  ++ [VBool (forallb (fun vs : value * value => values_match vs.1 vs.2)
                     cells)].

(** The two cells an entry of the mapping names, in a row of the first data
    frame and a row of the second. *)
Definition pair_cells (e1 e2 : DataFrame) (r1 r2 : list value)
    (item : string * (string * string)) : value * value :=
  (cell e1 item.2.1 r1, cell e2 item.2.2 r2).

Definition comparison_record (e1 e2 : DataFrame) (c1 : string)
    (column_mapping : dict (string * string)) (r1 r2 : list value)
  : list value :=
  record_of (cell e1 c1 r1)
            (map (pair_cells e1 e2 r1 r2) (compared column_mapping)).

(** The pairs of a row of [e1] and a row of [e2] with one identifier, in
    the order of [e1], then of [e2]. *)
Definition matching_rows (e1 e2 : DataFrame) (c1 c2 : string)
  : list (list value * list value) :=
  flat_map (fun r1 =>
              map (fun r2 => (r1, r2))
                  (filter (fun r2 => cell e2 c2 r2 = cell e1 c1 r1)
                          (rows e2)))
           (rows e1).

(** The same two cells, read in a row of the joined frame. *)
Definition joined_cells (cr : DataFrame) (item : string * (string * string))
    (jr : list value) : value * value :=
  (cell cr (item.2.1 +:+ "_file1") jr, cell cr (item.2.2 +:+ "_file2") jr).

(** The columns the loop writes, each as a function of the joined row. *)
Definition column_functions (cr : DataFrame) (items : dict (string * string))
  : list (string * (list value -> value)) :=
  flat_map (fun item =>
              [ (item.1 +:+ "_file1", fun jr => (joined_cells cr item jr).1);
                (item.1 +:+ "_file2", fun jr => (joined_cells cr item jr).2);
                (item.1 +:+ "_matches",
                 fun jr => VBool (values_match (joined_cells cr item jr).1
                                               (joined_cells cr item jr).2)) ])
           items.

Definition all_match (cr : DataFrame) (items : dict (string * string))
    (jr : list value) : bool :=
  forallb (fun item => values_match (joined_cells cr item jr).1
                                    (joined_cells cr item jr).2) items.

(** Columns given by functions of a row, tabulated over the rows. *)
Definition tabulate {A} (l : list A) (gs : list (string * (A -> value)))
  : dict Series :=
  map (fun kg => (kg.1, map kg.2 l)) gs.

(** ** Loading the files and building the mapping *)

(** [str(e)]: the message of an exception; for a [KeyError], the [repr] of
    its argument. *)
Definition str_of_exn (e : exn) : string :=
  match e with
  | KeyError arg => Text.repr arg
  | OverflowError msg => msg
  | TypeError msg => msg
  | ValueError msg => msg
  | Exception msg => msg
  end.

(** [s.endswith(suffix)] *)
Definition endswith (s suffix : string) : bool :=
  (String.length suffix <=? String.length s)%nat
  && String.eqb (Text.drop (String.length s - String.length suffix) s) suffix.

(** [df.astype(str)]: every cell becomes its text. *)
Definition astype_str_frame (df : DataFrame) : DataFrame :=
  {| columns := columns df; rows := map astype_str (rows df) |}.

Section Loading.

(** An uploaded file has a name. What pandas reads from it, given the header
    row, is left to the two readers [pd.read_csv] and [pd.read_excel]. *)
Variable file : Type.
Variable name : file -> string.
Variable read_csv : file -> Z -> result DataFrame.
Variable read_excel : file -> Z -> result DataFrame.

Definition load_dataframes (file1 file2 : file) (header1 header2 : Z)
  : result (DataFrame * DataFrame) :=
  match
    df1 ← (if endswith (name file1) ".csv" then read_csv file1 header1
           else read_excel file1 header1);
    df2 ← (if endswith (name file2) ".csv" then read_csv file2 header2
           else read_excel file2 header2);
    let df1 := astype_str_frame df1 in
    let df2 := astype_str_frame df2 in
    mret (df1, df2)
  with
  | Ok dfs => Ok dfs
  | Raise e => Raise (Exception ("Error loading files: " +:+ str_of_exn e))
  end.

(** [enumerate(l)] *)
Definition enumerate {A} (l : list A) : list (nat * A) :=
  zip (seq 0 (length l)) l.

(** A dictionary written entry by entry, as a comprehension or a display
    does. *)
Definition dict_of {A} (kvs : list (string * A)) : dict A :=
  dict_update [] kvs.

(** The mapping [handle_comparison_results] builds from the columns chosen
    in the session:
    [{"id": (ref_col1, ref_col2),
      **{f"comparison_{i}": pair for i, pair in enumerate(column_pairs)}}]. *)
Definition column_mapping_of (ref_col1 ref_col2 : string)
    (column_pairs : list (string * string)) : dict (string * string) :=
  dict_update [("id", (ref_col1, ref_col2))]
    (dict_of (map (fun ip : nat * (string * string) =>
                     ("comparison_" +:+ pretty ip.1, ip.2))
                  (enumerate column_pairs))).

(** [handle_comparison_results], without the widgets: the files of the
    session are loaded into two new objects [df1] and [df2], the mapping is
    built, and the data frames are compared. What is returned here is what
    the source hands to [display_comparison_results]. *)
Definition handle_comparison_results (df1 df2 : loc) (file1 file2 : file)
    (header1 header2 : Z) (ref_col1 ref_col2 : string)
    (column_pairs : list (string * string)) : M comparison_results :=
  dfs ← lift (load_dataframes file1 file2 header1 header2);
  assign df1 dfs.1;;
  assign df2 dfs.2;;
  let column_mapping := column_mapping_of ref_col1 ref_col2 column_pairs in
  compare_files df1 df2 column_mapping.

End Loading.

(** A data frame whose cells are all texts. *)
Definition is_text (v : value) : Prop := exists s, v = VStr s.

Definition all_text (df : DataFrame) : Prop :=
  Forall (Forall is_text) (rows df).

(** The names the mapping gives to the pairs of columns. *)
Definition comparison_names (n : nat) : list string :=
  map (fun i : nat => "comparison_" +:+ pretty i) (seq 0 n).

(** The state once the two loaded data frames are the objects [l1] and
    [l2]. *)
Definition with_frames (st : state) (l1 : loc) (d1 : DataFrame) (l2 : loc)
    (d2 : DataFrame) : state :=
  {| heap := heap_update (heap_update (heap st) l1 d1) l2 d2;
     stdout := stdout st; clock := clock st; ticks := ticks st |}.

(** The reader [load_dataframes] picks for a file. *)
Definition reader_of {file : Type} (name : file -> string)
    (read_csv read_excel : file -> Z -> result DataFrame) (f : file)
    (header : Z) : result DataFrame :=
  if endswith (name f) ".csv" then read_csv f header else read_excel f header.

(** A session: two uploads, told apart by their names, one read as CSV and
    one as a workbook; any other file cannot be read. *)
Definition demo_name (f : string) : string := f.

Definition demo_read_csv (f : string) (header : Z) : result DataFrame :=
  if String.eqb f "first.csv" then Ok demo_file1
  else Raise (Exception "No columns to parse from file").

Definition demo_read_excel (f : string) (header : Z) : result DataFrame :=
  if String.eqb f "second.xlsx" then Ok demo_file2
  else Raise (ValueError "Excel file format cannot be determined").

Definition demo_pairs : list (string * string) :=
  [("name", "name"); ("amt", "amt")].

Definition demo_session : M comparison_results :=
  handle_comparison_results string demo_name demo_read_csv demo_read_excel
    0%nat 1%nat "first.csv" "second.xlsx" 0 0 "id" "id" demo_pairs.

Definition demo_loaded : DataFrame * DataFrame := Eval vm_compute in
  (astype_str_frame demo_file1, astype_str_frame demo_file2).

Definition demo_session_results : comparison_results := Eval vm_compute in
  returned (demo_session demo_state).1.

Definition demo_session_final : state := (demo_session demo_state).2.

(** The first pair of rows of the session with one identifier. *)
Definition demo_matching_pair : list value * list value :=
  Eval vm_compute in
  hd ([], []) (matching_rows (heap demo_session_final 0%nat)
                             (heap demo_session_final 1%nat) "id" "id").

(** * Properties *)

#[local] Arguments String.eqb : simpl never.

(** ** Text *)

Lemma app_nil_l_str (t : string) : "" +:+ t = t.
Proof. reflexivity. Qed.

Lemma app_cons_str (a : ascii) (s t : string) :
  String a s +:+ t = String a (s +:+ t).
Proof. reflexivity. Qed.

Lemma length_app_str (s t : string) :
  String.length (s +:+ t) = (String.length s + String.length t)%nat.
Proof.
  induction s as [|a s IH]; [reflexivity|].
  rewrite app_cons_str. simpl. now rewrite IH.
Qed.

(** A tag can be cancelled on the right. *)
Lemma app_tag_inj (tag s1 s2 : string) : s1 +:+ tag = s2 +:+ tag -> s1 = s2.
Proof.
  revert s2. induction s1 as [|a s1 IH]; intros [|b s2] H.
  - reflexivity.
  - apply (f_equal String.length) in H.
    rewrite app_cons_str, app_nil_l_str in H. simpl in H.
    rewrite length_app_str in H. lia.
  - apply (f_equal String.length) in H.
    rewrite app_cons_str, app_nil_l_str in H. simpl in H.
    rewrite length_app_str in H. lia.
  - rewrite !app_cons_str in H. injection H as -> H. f_equal. now apply IH.
Qed.

(** The two file tags end differently, so a tagged name tells its file. *)
Lemma tags_differ (s1 s2 : string) : s1 +:+ "_file1" <> s2 +:+ "_file2".
Proof.
  revert s2. induction s1 as [|a s1 IH]; intros [|b s2] H.
  - discriminate.
  - apply (f_equal String.length) in H.
    rewrite app_cons_str, app_nil_l_str in H. simpl in H.
    rewrite length_app_str in H. simpl in H. lia.
  - apply (f_equal String.length) in H.
    rewrite app_cons_str, app_nil_l_str in H. simpl in H.
    rewrite length_app_str in H. simpl in H. lia.
  - rewrite !app_cons_str in H. injection H as _ H. now apply (IH s2).
Qed.

Lemma rstrip_idem (s : string) : Text.rstrip (Text.rstrip s) = Text.rstrip s.
Proof.
  induction s as [|c s IH]; [reflexivity|].
  simpl. destruct (Text.rstrip s) as [|d r] eqn:E.
  - destruct (Text.isspace c) eqn:Ec; simpl; [reflexivity|]. now rewrite Ec.
  - simpl. simpl in IH. destruct (Text.rstrip r) as [|d' r'] eqn:E'.
    + destruct (Text.isspace d); [discriminate|]. now rewrite IH.
    + now rewrite IH.
Qed.

(** A text that starts with no space keeps its start under [rstrip]. *)
Lemma lstrip_rstrip_stable (s : string) :
  Text.lstrip s = s -> Text.lstrip (Text.rstrip s) = Text.rstrip s.
Proof.
  destruct s as [|c s]; [reflexivity|].
  simpl. destruct (Text.isspace c) eqn:Ec.
  - intros H. exfalso.
    assert (Hlen : forall t, (String.length (Text.lstrip t) <= String.length t)%nat).
    { induction t as [|x t IHt]; simpl; [lia|].
      destruct (Text.isspace x); simpl; lia. }
    specialize (Hlen s). rewrite H in Hlen. simpl in Hlen. lia.
  - intros _. destruct (Text.rstrip s); simpl; now rewrite Ec.
Qed.

Lemma lstrip_idem (s : string) : Text.lstrip (Text.lstrip s) = Text.lstrip s.
Proof.
  induction s as [|c s IH]; [reflexivity|].
  simpl. destruct (Text.isspace c) eqn:Ec; [exact IH|].
  simpl. now rewrite Ec.
Qed.

(** [strip] is idempotent: a stripped text is left alone. *)
Lemma strip_idem (s : string) : Text.strip (Text.strip s) = Text.strip s.
Proof.
  unfold Text.strip.
  rewrite (lstrip_rstrip_stable (Text.lstrip s) (lstrip_idem s)).
  apply rstrip_idem.
Qed.

(** ** Floating point: the model on known values *)

Example repr_one_tenth : Float64.repr (of_decimal false 1 (-1)) = "0.1".
Proof. vm_compute. reflexivity. Qed.

Example repr_sum_of_tenths :
  Float64.repr (SFadd prec emax (of_decimal false 1 (-1))
                                (of_decimal false 2 (-1)))
  = "0.30000000000000004".
Proof. vm_compute. reflexivity. Qed.

Example repr_large : Float64.repr (of_decimal false 1 16) = "1e+16".
Proof. vm_compute. reflexivity. Qed.

(** The double written 2.675 lies below 2.675, so it rounds down. *)
Example round2_below_tie :
  Float64.repr (round2 (of_decimal false 2675 (-3))) = "2.67".
Proof. vm_compute. reflexivity. Qed.

(** 0.125 is exact, and the tie goes to the even hundredth. *)
Example round2_tie_to_even :
  Float64.repr (round2 (of_decimal false 125 (-3))) = "0.12".
Proof. vm_compute. reflexivity. Qed.

Example float_of_large_int : of_int (10 ^ 400) = None.
Proof. vm_compute. reflexivity. Qed.

(** ** The comparator *)

Lemma isna_spec v : isna v = true <-> v = VNone \/ v = VFloat nan.
Proof.
  split.
  - destruct v as [| | |[]| | | |]; simpl; try discriminate; auto.
  - intros [-> | ->]; reflexivity.
Qed.

(** C7. When at least one argument is a missing marker, the comparator
    returns, and its answer is true exactly when both arguments are
    missing: two missing values match, a missing value matches no value that
    is present. *)
Theorem compare_values_missing (x y : value) :
  isna x = true \/ isna y = true ->
  compare_values x y = Ok (isna x && isna y).
Proof.
  unfold compare_values.
  destruct (isna x), (isna y); simpl; intuition congruence.
Qed.

Lemma compare_values_missing_witness :
  compare_values VNone (VFloat nan) = Ok true
  /\ compare_values VNone (VStr "") = Ok false
  /\ compare_values (VInt 0) (VFloat nan) = Ok false.
Proof.
  split; [| split].
  - exact (compare_values_missing VNone (VFloat nan) (or_introl eq_refl)).
  - exact (compare_values_missing VNone (VStr "") (or_introl eq_refl)).
  - exact (compare_values_missing (VInt 0) (VFloat nan) (or_intror eq_refl)).
Defined.







(** ** Columns and frames *)

Lemma get_loc_lookup c cols i :
  get_loc c cols = Some i -> cols !! i = Some c.
Proof.
  revert i. induction cols as [|c' cols IH]; intros i; simpl; [discriminate|].
  destruct (String.eqb_spec c c') as [->|Hne].
  - now intros [= <-].
  - destruct (get_loc c cols) as [j|]; simpl; [|discriminate].
    intros [= <-]. simpl. now apply IH.
Qed.

Lemma get_loc_None c cols : get_loc c cols = None <-> c ∉ cols.
Proof.
  induction cols as [|c' cols IH]; simpl.
  - split; [intros _; apply not_elem_of_nil | reflexivity].
  - destruct (String.eqb_spec c c') as [->|Hne].
    + split; [discriminate|]. intros H. exfalso. apply H. left.
    + rewrite not_elem_of_cons. destruct (get_loc c cols); simpl.
      * split; [discriminate|]. intros [_ H]. now apply IH in H.
      * split; [|reflexivity]. intros _. split; [exact Hne|]. now apply IH.
Qed.

Lemma get_loc_elem c cols : c ∈ cols -> exists i, get_loc c cols = Some i.
Proof.
  intros H. destruct (get_loc c cols) as [i|] eqn:E; [eauto|].
  apply get_loc_None in E. contradiction.
Qed.

Lemma get_loc_is_elem c cols i : get_loc c cols = Some i -> c ∈ cols.
Proof.
  intros H. destruct (decide (c ∈ cols)) as [|Hn]; [assumption|].
  apply get_loc_None in Hn. congruence.
Qed.

(** Two names sit at two positions. *)
Lemma get_loc_ne c c' cols i j :
  get_loc c cols = Some i -> get_loc c' cols = Some j -> c <> c' -> i <> j.
Proof.
  intros Hi Hj Hne ->. apply get_loc_lookup in Hi, Hj. congruence.
Qed.

Lemma get_loc_map (f : string -> string) c cols :
  (forall a b, f a = f b -> a = b) ->
  get_loc (f c) (map f cols) = get_loc c cols.
Proof.
  intros Hinj. induction cols as [|c' cols IH]; simpl; [reflexivity|].
  destruct (String.eqb_spec c c') as [->|Hne].
  - now rewrite String.eqb_refl.
  - destruct (String.eqb_spec (f c) (f c')) as [E|_].
    + now apply Hinj in E.
    + now rewrite IH.
Qed.

Lemma get_loc_app_l c l1 l2 i :
  get_loc c l1 = Some i -> get_loc c (l1 ++ l2) = Some i.
Proof.
  revert i. induction l1 as [|c' l1 IH]; intros i; simpl; [discriminate|].
  destruct (String.eqb c c'); [trivial|].
  destruct (get_loc c l1) as [j|]; simpl; [|discriminate].
  intros [= <-]. now rewrite (IH j eq_refl).
Qed.

Lemma get_loc_app_r c l1 l2 :
  c ∉ l1 ->
  get_loc c (l1 ++ l2) = option_map (fun i => (length l1 + i)%nat) (get_loc c l2).
Proof.
  induction l1 as [|c' l1 IH]; simpl; intros H.
  - now destruct (get_loc c l2).
  - apply not_elem_of_cons in H as [Hne H].
    destruct (String.eqb_spec c c') as [->|_]; [contradiction|].
    rewrite (IH H). now destruct (get_loc c l2).
Qed.

Lemma get_column_Ok df c :
  c ∈ columns df -> get_column df c = Ok (column df c).
Proof.
  intros H. unfold column, get_column.
  destruct (get_loc_elem _ _ H) as [i ->]. reflexivity.
Qed.

Lemma get_column_Raise df c :
  c ∉ columns df -> get_column df c = Raise (KeyError c).
Proof.
  intros H. unfold get_column. apply get_loc_None in H. now rewrite H.
Qed.

Lemma get_column_inv df c s : get_column df c = Ok s -> c ∈ columns df.
Proof.
  unfold get_column. destruct (get_loc c (columns df)) eqn:E; [|discriminate].
  intros _. eapply get_loc_is_elem; eauto.
Qed.

Lemma length_column df c :
  c ∈ columns df -> length (column df c) = length (rows df).
Proof.
  intros H. unfold column, get_column.
  destruct (get_loc_elem _ _ H) as [i ->]. apply length_map.
Qed.

Lemma length_normalize_ids s : length (normalize_ids s) = length s.
Proof. unfold normalize_ids, str_strip, astype_str. now rewrite !length_map. Qed.

(** Normalizing keeps the header and the number of rows. *)
Lemma normalized_frame_columns df c :
  c ∈ columns df -> columns (normalized_frame df c) = columns df.
Proof.
  intros H. unfold normalized_frame, set_column.
  rewrite length_normalize_ids, (length_column df c H), Nat.eqb_refl. simpl.
  destruct (get_loc_elem _ _ H) as [i ->]. reflexivity.
Qed.

Lemma normalized_frame_eq df c i :
  get_loc c (columns df) = Some i ->
  normalized_frame df c =
    {| columns := columns df;
       rows := zip_with (fun r v => <[i:=v]> r) (rows df)
                        (normalize_ids (column df c)) |}.
Proof.
  intros H. unfold normalized_frame, set_column.
  rewrite length_normalize_ids, (length_column df c (get_loc_is_elem _ _ _ H)).
  rewrite Nat.eqb_refl. simpl. now rewrite H.
Qed.

Lemma length_zip_with_same {A B C} (f : A -> B -> C) l k :
  length k = length l -> length (zip_with f l k) = length l.
Proof. intros H. rewrite length_zip_with. lia. Qed.

Lemma normalized_frame_rows df c :
  c ∈ columns df -> length (rows (normalized_frame df c)) = length (rows df).
Proof.
  intros H. destruct (get_loc_elem _ _ H) as [i Hi].
  rewrite (normalized_frame_eq df c i Hi). simpl.
  apply length_zip_with_same.
  now rewrite length_normalize_ids, length_column.
Qed.


Lemma nth_insert_ne {A} (l : list A) i j x d :
  i <> j -> nth j (<[i:=x]> l) d = nth j l d.
Proof. intros H. now rewrite !nth_lookup, list_lookup_insert_ne. Qed.

Lemma nth_insert_eq {A} (l : list A) i x d :
  (i < length l)%nat -> nth i (<[i:=x]> l) d = x.
Proof. intros H. now rewrite nth_lookup, list_lookup_insert_eq. Qed.

Lemma map_nth_zip_insert_ne (rs : list (list value)) (vals : Series) i j :
  i <> j -> length vals = length rs ->
  map (fun r => nth j r VNone) (zip_with (fun r v => <[i:=v]> r) rs vals)
  = map (fun r => nth j r VNone) rs.
Proof.
  intros Hne. revert vals.
  induction rs as [|r rs IH]; intros [|v vals] Hlen; simpl in *;
    try reflexivity; try discriminate.
  rewrite nth_insert_ne by assumption. f_equal. apply IH. lia.
Qed.

Lemma map_nth_zip_insert_eq (rs : list (list value)) (vals : Series) i :
  length vals = length rs -> Forall (fun r => (i < length r)%nat) rs ->
  map (fun r => nth i r VNone) (zip_with (fun r v => <[i:=v]> r) rs vals)
  = vals.
Proof.
  revert vals.
  induction rs as [|r rs IH]; intros [|v vals] Hlen Hall; simpl in *;
    try reflexivity; try discriminate.
  inversion Hall; subst.
  rewrite nth_insert_eq by assumption. f_equal. apply IH; [lia|assumption].
Qed.

Lemma get_loc_lt c cols i : get_loc c cols = Some i -> (i < length cols)%nat.
Proof. intros H. apply get_loc_lookup in H. eapply lookup_lt_Some; eauto. Qed.

(** Every other column of a normalized frame is the one it was. *)
Lemma get_column_normalized_other df c c' :
  c ∈ columns df -> c' <> c ->
  get_column (normalized_frame df c) c' = get_column df c'.
Proof.
  intros Hc Hne. destruct (get_loc_elem _ _ Hc) as [i Hi].
  rewrite (normalized_frame_eq df c i Hi). unfold get_column. simpl.
  destruct (get_loc c' (columns df)) as [j|] eqn:Hj; [|reflexivity].
  f_equal. apply map_nth_zip_insert_ne.
  - eapply get_loc_ne; eauto.
  - now rewrite length_normalize_ids, length_column.
Qed.

(** The identifier column of a normalized frame is the normalized one. *)
Lemma column_normalized_same df c :
  wf_frame df -> c ∈ columns df ->
  column (normalized_frame df c) c = normalize_ids (column df c).
Proof.
  intros Hwf Hc. destruct (get_loc_elem _ _ Hc) as [i Hi].
  rewrite (normalized_frame_eq df c i Hi).
  unfold column at 1. unfold get_column. simpl. rewrite Hi.
  apply map_nth_zip_insert_eq.
  - now rewrite length_normalize_ids, length_column.
  - eapply Forall_impl; [exact Hwf|]. simpl. intros r ->.
    eapply get_loc_lt; eauto.
Qed.

Lemma wf_normalized_frame df c :
  wf_frame df -> c ∈ columns df -> wf_frame (normalized_frame df c).
Proof.
  intros Hwf Hc. destruct (get_loc_elem _ _ Hc) as [i Hi].
  rewrite (normalized_frame_eq df c i Hi). unfold wf_frame in *. simpl.
  generalize (normalize_ids (column df c)) as vals.
  induction Hwf as [|r rs Hr Hrs IH]; intros [|v vals]; simpl; constructor.
  - now rewrite length_insert.
  - apply IH.
Qed.

(** A normalized identifier is a stripped text, and normalizing it again
    changes nothing. *)
Lemma normalize_ids_idem s : normalize_ids (normalize_ids s) = normalize_ids s.
Proof.
  unfold normalize_ids, str_strip, astype_str. rewrite !map_map.
  apply map_ext. intros v. simpl. now rewrite strip_idem.
Qed.

Lemma list_insert_nth {A} (l : list A) i d :
  (i < length l)%nat -> <[i:=nth i l d]> l = l.
Proof.
  intros H. apply list_insert_id. rewrite nth_lookup.
  destruct (lookup_lt_is_Some_2 l i H) as [x ->]. reflexivity.
Qed.

Lemma zip_with_insert_id (rs : list (list value)) i :
  Forall (fun r => (i < length r)%nat) rs ->
  zip_with (fun r v => <[i:=v]> r) rs (map (fun r => nth i r VNone) rs) = rs.
Proof.
  induction 1 as [|r rs Hr Hrs IH]; simpl; [reflexivity|].
  now rewrite list_insert_nth, IH.
Qed.

(** Normalizing a frame whose identifier column is normalized already gives
    the same frame. *)
Lemma normalized_frame_idem df c :
  wf_frame df -> c ∈ columns df ->
  normalized_frame (normalized_frame df c) c = normalized_frame df c.
Proof.
  intros Hwf Hc.
  pose proof (wf_normalized_frame df c Hwf Hc) as Hwf'.
  pose proof (normalized_frame_columns df c Hc) as Hcols.
  assert (Hc' : c ∈ columns (normalized_frame df c)) by now rewrite Hcols.
  destruct (get_loc_elem _ _ Hc') as [i Hi].
  rewrite (normalized_frame_eq _ c i Hi).
  rewrite (column_normalized_same df c Hwf Hc), normalize_ids_idem.
  rewrite <- (column_normalized_same df c Hwf Hc).
  unfold column, get_column. rewrite Hi.
  rewrite zip_with_insert_id; [now destruct (normalized_frame df c)|].
  eapply Forall_impl; [exact Hwf'|]. simpl. intros r ->.
  eapply get_loc_lt; eauto.
Qed.

(** ** Tagging and joining *)

Lemma rename_tag df tag :
  rename df (map (fun col => (col, col +:+ tag)) (columns df))
  = {| columns := map (fun c => c +:+ tag) (columns df); rows := rows df |}.
Proof.
  unfold rename. f_equal.
  assert (H : forall (l cols : list string), (forall c, c ∈ cols -> c ∈ l) ->
    map (fun c => match list_find (fun kv : string * string => kv.1 = c)
                          (map (fun col => (col, col +:+ tag)) l) with
                  | Some (_, kv) => kv.2
                  | None => c
                  end) cols
    = map (fun c => c +:+ tag) cols).
  { intros l cols Hsub. apply map_ext_in. intros c Hc.
    apply list_elem_of_In in Hc. apply Hsub in Hc.
    destruct (list_find _ _) as [[i kv]|] eqn:E.
    - apply list_find_Some in E as (Hl & Hk & _).
      apply list_elem_of_lookup_2 in Hl. apply list_elem_of_In in Hl.
      apply in_map_iff in Hl as (c0 & <- & _). simpl in *. now subst.
    - apply list_find_None in E. rewrite Forall_forall in E.
      exfalso. apply (E (c, c +:+ tag)); [|reflexivity].
      apply list_elem_of_In, in_map_iff. exists c. split; [reflexivity|].
      now apply list_elem_of_In. }
  apply H. auto.
Qed.

Lemma elem_of_map_tag (tag c : string) (cols : list string) :
  c +:+ tag ∈ map (fun x => x +:+ tag) cols <-> c ∈ cols.
Proof.
  rewrite !list_elem_of_In, in_map_iff. split.
  - intros (x & E & Hx). apply app_tag_inj in E. now subst.
  - intros H. eauto.
Qed.

Lemma tag1_not_in_tag2 (c : string) (cols : list string) :
  c +:+ "_file1" ∉ map (fun x => x +:+ "_file2") cols.
Proof.
  rewrite list_elem_of_In, in_map_iff. intros (x & E & _).
  symmetry in E. now apply tags_differ in E.
Qed.

Lemma tag2_not_in_tag1 (c : string) (cols : list string) :
  c +:+ "_file2" ∉ map (fun x => x +:+ "_file1") cols.
Proof.
  rewrite list_elem_of_In, in_map_iff. intros (x & E & _).
  now apply tags_differ in E.
Qed.

(** The tagged headers have no name in common, so [merge] adds no suffix. *)
Lemma merge_columns_tagged (cols1 cols2 : list string) :
  map (fun c => if bool_decide (c ∈ map (fun x => x +:+ "_file2") cols2)
                then c +:+ "_x" else c) (map (fun x => x +:+ "_file1") cols1)
  ++ map (fun c => if bool_decide (c ∈ map (fun x => x +:+ "_file1") cols1)
                   then c +:+ "_y" else c) (map (fun x => x +:+ "_file2") cols2)
  = map (fun x => x +:+ "_file1") cols1 ++ map (fun x => x +:+ "_file2") cols2.
Proof.
  f_equal; rewrite map_map; apply map_ext; intros c.
  - rewrite bool_decide_eq_false_2; [reflexivity|apply tag1_not_in_tag2].
  - rewrite bool_decide_eq_false_2; [reflexivity|apply tag2_not_in_tag1].
Qed.

Lemma column_tagged df tag c :
  get_column {| columns := map (fun x => x +:+ tag) (columns df);
                rows := rows df |} (c +:+ tag)
  = match get_column df c with
    | Ok s => Ok s
    | Raise _ => Raise (KeyError (c +:+ tag))
    end.
Proof.
  unfold get_column. simpl.
  rewrite (get_loc_map (fun x => x +:+ tag)) by apply app_tag_inj.
  now destruct (get_loc c (columns df)).
Qed.

(** The join the engine computes is [joined]. *)
Lemma merge_tagged e1 e2 c1 c2 :
  c1 ∈ columns e1 -> c2 ∈ columns e2 ->
  merge (rename e1 (map (fun col => (col, col +:+ "_file1")) (columns e1)))
        (rename e2 (map (fun col => (col, col +:+ "_file2")) (columns e2)))
        (c1 +:+ "_file1") (c2 +:+ "_file2")
  = Ok (joined e1 e2 (column e1 c1) (column e2 c2)).
Proof.
  intros H1 H2. rewrite !rename_tag. unfold merge.
  rewrite !column_tagged, (get_column_Ok e1 c1 H1), (get_column_Ok e2 c2 H2).
  simpl. unfold joined. f_equal. f_equal. apply merge_columns_tagged.
Qed.

(** The identifier column of the join is there. *)
Lemma joined_id_column e1 e2 ids1 ids2 c1 :
  c1 ∈ columns e1 ->
  get_column (joined e1 e2 ids1 ids2) (c1 +:+ "_file1")
  = Ok (column (joined e1 e2 ids1 ids2) (c1 +:+ "_file1")).
Proof.
  intros H. apply get_column_Ok. unfold joined. simpl.
  apply elem_of_app. left. now apply elem_of_map_tag.
Qed.

(** ** The loop *)

Lemma for_each_compare_pair cr items acc st :
  for_each items (compare_pair cr) acc st =
    match rfold (pair_step cr) items acc with
    | Ok acc' => (Ok acc', st)
    | Raise (KeyError e) => column_access_error cr e st
    | Raise e => (Raise e, st)
    end.
Proof.
  revert acc st. induction items as [|[name [a b]] items IH]; intros [data flags] st.
  - reflexivity.
  - simpl. unfold mbind, M_bind, pair_step, compare_pair. simpl.
    destruct (String.eqb name "id").
    + simpl. apply IH.
    + unfold try_except_KeyError, lift.
      destruct (compare_columns cr data flags name a b) as [acc'|[]]; simpl;
        try reflexivity.
      apply IH.
Qed.

Lemma set_column_normalized df c :
  c ∈ columns df ->
  set_column df c (str_strip (astype_str (column df c)))
  = Ok (normalized_frame df c).
Proof.
  intros H. unfold normalized_frame. fold (normalize_ids (column df c)).
  unfold set_column.
  rewrite length_normalize_ids, (length_column df c H), Nat.eqb_refl. simpl.
  destruct (get_loc_elem _ _ H) as [i ->]. reflexivity.
Qed.

Lemma heap_update_same h l df : heap_update h l df l = df.
Proof. unfold heap_update. now rewrite decide_True. Qed.

Lemma heap_update_other h l l' df : l' <> l -> heap_update h l df l' = h l'.
Proof. intros H. unfold heap_update. now rewrite decide_False. Qed.

(** Normalizing one object changes no header. *)
Lemma heap_update_columns h l c l' :
  c ∈ columns (h l) ->
  columns (heap_update h l (normalized_frame (h l) c) l') = columns (h l').
Proof.
  intros H. unfold heap_update. destruct (decide (l' = l)) as [->|]; [|reflexivity].
  now apply normalized_frame_columns.
Qed.

Lemma normalized_heap_columns h l1 c1 l2 c2 l :
  c1 ∈ columns (h l1) -> c2 ∈ columns (h l2) ->
  columns (normalized_heap h l1 c1 l2 c2 l) = columns (h l).
Proof.
  intros H1 H2. unfold normalized_heap.
  rewrite heap_update_columns; rewrite heap_update_columns; auto.
Qed.

Lemma dict_set_key {A} (d : dict A) k v : k ∈ map fst (dict_set d k v).
Proof.
  induction d as [|[k' a] d IH]; simpl.
  - left.
  - destruct (String.eqb_spec k k') as [<-|Hne]; simpl.
    + left.
    + right. apply IH.
Qed.

Lemma sort_values_comparison data flags :
  sort_values (DataFrame_of_dict
                 (dict_set data "all_columns_match" (map VBool flags)))
              "all_columns_match" false
  = Ok (sorted_comparison data flags).
Proof.
  unfold sorted_comparison, sort_values.
  destruct (get_loc _ _) eqn:E; [reflexivity|].
  exfalso. apply get_loc_None in E. apply E. simpl.
  apply dict_set_key.
Qed.

Lemma compare_files_run l1 l2 m st c1 c2 :
  dict_get m "id" = Ok (c1, c2) ->
  c1 ∈ columns (heap st l1) -> c2 ∈ columns (heap st l2) ->
  compare_files l1 l2 m st = run_of l1 l2 c1 c2 m st.
Proof.
  intros Hid H1 H2.
  assert (H2' : c2 ∈ columns (heap_update (heap st) l1
                               (normalized_frame (heap st l1) c1) l2)).
  { now rewrite heap_update_columns. }
  assert (E1 : c1 ∈ columns (normalized_heap (heap st) l1 c1 l2 c2 l1)).
  { now rewrite normalized_heap_columns. }
  assert (E2 : c2 ∈ columns (normalized_heap (heap st) l1 c1 l2 c2 l2)).
  { now rewrite normalized_heap_columns. }
  unfold compare_files, mbind, M_bind, perf_counter, lift, getitem, setitem,
    deref, assign, print, mbind, M_bind.
  simpl. rewrite Hid. simpl.
  rewrite (get_column_Ok _ _ H1), (set_column_normalized _ _ H1). simpl.
  rewrite (get_column_Ok _ _ H2'), (set_column_normalized _ _ H2'). simpl.
  fold (normalized_heap (heap st) l1 c1 l2 c2).
  rewrite (get_column_Ok _ _ E1), (get_column_Ok _ _ E2). simpl.
  rewrite (merge_tagged _ _ c1 c2 E1 E2). simpl.
  rewrite (joined_id_column _ _ _ _ c1 E1). simpl.
  rewrite for_each_compare_pair.
  unfold run_of, unmatched, mask_rows, difference_lines, mk_state,
    column_access_error, mbind, M_bind, print, raise.
  simpl.
  match goal with
  | |- context [rfold ?f ?l ?a] => destruct (rfold f l a) as [[data flags]|e]
  end.
  - simpl. rewrite sort_values_comparison. simpl.
    now rewrite <- !app_assoc.
  - destruct e; simpl; now rewrite <- !app_assoc.
Qed.

(** A run that returns found the identifier pair in the mapping and both
    identifier columns in their frames. *)
Lemma compare_files_Ok_inv l1 l2 m st r st' :
  compare_files l1 l2 m st = (Ok r, st') ->
  exists c1 c2, dict_get m "id" = Ok (c1, c2)
                /\ c1 ∈ columns (heap st l1) /\ c2 ∈ columns (heap st l2).
Proof.
  intros Hrun.
  destruct (dict_get m "id") as [[c1 c2]|e] eqn:Hid.
  2:{ unfold compare_files, mbind, M_bind, perf_counter, lift in Hrun.
      simpl in Hrun. rewrite Hid in Hrun. discriminate. }
  exists c1, c2. split; [reflexivity|].
  destruct (decide (c1 ∈ columns (heap st l1))) as [H1|H1].
  2:{ unfold compare_files, mbind, M_bind, perf_counter, lift, getitem, deref,
        mbind, M_bind in Hrun.
      simpl in Hrun. rewrite Hid in Hrun. simpl in Hrun.
      rewrite (get_column_Raise _ _ H1) in Hrun. discriminate. }
  split; [assumption|].
  destruct (decide (c2 ∈ columns (heap st l2))) as [H2|H2]; [assumption|].
  assert (H2' : c2 ∉ columns (heap_update (heap st) l1
                               (normalized_frame (heap st l1) c1) l2)).
  { now rewrite heap_update_columns. }
  unfold compare_files, mbind, M_bind, perf_counter, lift, getitem, setitem,
    deref, assign, mbind, M_bind in Hrun.
  simpl in Hrun. rewrite Hid in Hrun. simpl in Hrun.
  rewrite (get_column_Ok _ _ H1), (set_column_normalized _ _ H1) in Hrun.
  simpl in Hrun.
  rewrite (get_column_Raise _ _ H2') in Hrun. discriminate.
Qed.

(** A run that returns is the run described by [run_of]. *)
Lemma compare_files_Ok_run l1 l2 m st r st' :
  compare_files l1 l2 m st = (Ok r, st') ->
  exists c1 c2, dict_get m "id" = Ok (c1, c2)
                /\ c1 ∈ columns (heap st l1) /\ c2 ∈ columns (heap st l2)
                /\ run_of l1 l2 c1 c2 m st = (Ok r, st').
Proof.
  intros Hrun.
  destruct (compare_files_Ok_inv _ _ _ _ _ _ Hrun) as (c1 & c2 & Hid & H1 & H2).
  exists c1, c2. repeat split; try assumption.
  now rewrite <- (compare_files_run _ _ _ _ _ _ Hid H1 H2).
Qed.

(** ** The objects after the normalization *)

Lemma column_normalized_other df c c' :
  c ∈ columns df -> c' <> c ->
  column (normalized_frame df c) c' = column df c'.
Proof.
  intros Hc Hne. unfold column.
  now rewrite (get_column_normalized_other df c c' Hc Hne).
Qed.

(** A frame whose identifier column is normalized already is a fixed point
    of the normalization. *)
Lemma normalized_frame_fixed df c :
  wf_frame df -> c ∈ columns df ->
  normalize_ids (column df c) = column df c ->
  normalized_frame df c = df.
Proof.
  intros Hwf Hc Hfix. destruct (get_loc_elem _ _ Hc) as [i Hi].
  rewrite (normalized_frame_eq df c i Hi), Hfix.
  unfold column, get_column. rewrite Hi.
  rewrite zip_with_insert_id; [now destruct df|].
  eapply Forall_impl; [exact Hwf|]. simpl. intros r ->.
  eapply get_loc_lt; eauto.
Qed.

Lemma normalized_heap_l1 h l1 c1 l2 c2 :
  normalized_heap h l1 c1 l2 c2 l1 =
    if decide (l1 = l2)
    then normalized_frame (normalized_frame (h l1) c1) c2
    else normalized_frame (h l1) c1.
Proof.
  unfold normalized_heap, heap_update.
  destruct (decide (l1 = l2)) as [<-|Hne].
  - now rewrite !decide_True.
  - now rewrite decide_True.
Qed.

Lemma normalized_heap_l2 h l1 c1 l2 c2 :
  normalized_heap h l1 c1 l2 c2 l2 =
    if decide (l1 = l2)
    then normalized_frame (normalized_frame (h l1) c1) c2
    else normalized_frame (h l2) c2.
Proof.
  unfold normalized_heap, heap_update. rewrite decide_True by reflexivity.
  destruct (decide (l1 = l2)) as [<-|Hne].
  - now rewrite decide_True.
  - rewrite decide_False; [reflexivity|congruence].
Qed.

Lemma normalized_heap_else h l1 c1 l2 c2 l :
  l <> l1 -> l <> l2 -> normalized_heap h l1 c1 l2 c2 l = h l.
Proof.
  intros H1 H2. unfold normalized_heap, heap_update.
  now rewrite !decide_False.
Qed.

Section Normalized.
Variable h : loc -> DataFrame.
Variables l1 l2 : loc.
Variables c1 c2 : string.
Hypothesis Hc1 : c1 ∈ columns (h l1).
Hypothesis Hc2 : c2 ∈ columns (h l2).

Let nh := normalized_heap h l1 c1 l2 c2.

(** Frame: a column that is not a designated identifier column is
    untouched, in every object. *)
Lemma normalized_heap_frame l c :
  ~ (l = l1 /\ c = c1) -> ~ (l = l2 /\ c = c2) ->
  get_column (nh l) c = get_column (h l) c.
Proof using Hc1 Hc2.
  intros N1 N2. subst nh.
  destruct (decide (l = l2)) as [->|Hl2].
  - assert (Hc : c <> c2) by (intros ->; now apply N2).
    rewrite normalized_heap_l2.
    destruct (decide (l1 = l2)) as [->|Hne].
    + assert (Hc' : c <> c1) by (intros ->; now apply N1).
      rewrite get_column_normalized_other;
        [|now rewrite normalized_frame_columns|assumption].
      now rewrite get_column_normalized_other.
    + now rewrite get_column_normalized_other.
  - destruct (decide (l = l1)) as [->|Hl1].
    + assert (Hc : c <> c1) by (intros ->; now apply N1).
      rewrite normalized_heap_l1, decide_False by congruence.
      now rewrite get_column_normalized_other.
    + now rewrite normalized_heap_else.
Qed.

Lemma normalized_heap_length l :
  length (rows (nh l)) = length (rows (h l)).
Proof using Hc1 Hc2.
  subst nh.
  destruct (decide (l = l2)) as [->|Hl2].
  - rewrite normalized_heap_l2.
    destruct (decide (l1 = l2)) as [->|Hne].
    + rewrite normalized_frame_rows;
        [|now rewrite normalized_frame_columns].
      now rewrite normalized_frame_rows.
    + now rewrite normalized_frame_rows.
  - destruct (decide (l = l1)) as [->|Hl1].
    + rewrite normalized_heap_l1, decide_False by congruence.
      now rewrite normalized_frame_rows.
    + now rewrite normalized_heap_else.
Qed.

Hypothesis Hwf1 : wf_frame (h l1).
Hypothesis Hwf2 : wf_frame (h l2).

Lemma normalized_heap_wf1 : wf_frame (nh l1).
Proof using Hc1 Hc2 Hwf1 Hwf2.
  subst nh. rewrite normalized_heap_l1.
  destruct (decide (l1 = l2)) as [<-|Hne].
  - apply wf_normalized_frame; [now apply wf_normalized_frame|].
    now rewrite normalized_frame_columns.
  - now apply wf_normalized_frame.
Qed.

Lemma normalized_heap_wf2 : wf_frame (nh l2).
Proof using Hc1 Hc2 Hwf1 Hwf2.
  subst nh. rewrite normalized_heap_l2.
  destruct (decide (l1 = l2)) as [<-|Hne].
  - apply wf_normalized_frame; [now apply wf_normalized_frame|].
    now rewrite normalized_frame_columns.
  - now apply wf_normalized_frame.
Qed.

(** The identifier column of the first file holds the normalized
    identifiers, also when both references are to one object. *)
Lemma normalized_heap_ids1 :
  column (nh l1) c1 = normalize_ids (column (h l1) c1).
Proof using Hc1 Hc2 Hwf1 Hwf2.
  subst nh. rewrite normalized_heap_l1.
  destruct (decide (l1 = l2)) as [<-|Hne].
  - destruct (decide (c1 = c2)) as [<-|Hc].
    + rewrite normalized_frame_idem by assumption.
      now apply column_normalized_same.
    + rewrite column_normalized_other;
        [|now rewrite normalized_frame_columns|assumption].
      now apply column_normalized_same.
  - now apply column_normalized_same.
Qed.

Lemma normalized_heap_ids2 :
  column (nh l2) c2 = normalize_ids (column (h l2) c2).
Proof using Hc1 Hc2 Hwf1 Hwf2.
  subst nh. rewrite normalized_heap_l2.
  destruct (decide (l1 = l2)) as [<-|Hne].
  - rewrite column_normalized_same;
      [|now apply wf_normalized_frame|now rewrite normalized_frame_columns].
    destruct (decide (c1 = c2)) as [<-|Hc].
    + rewrite column_normalized_same by assumption.
      apply normalize_ids_idem.
    + rewrite column_normalized_other; auto.
  - now apply column_normalized_same.
Qed.

(** Normalizing the normalized objects changes nothing. *)
Lemma normalized_heap_idem l :
  normalized_heap nh l1 c1 l2 c2 l = nh l.
Proof using Hc1 Hc2 Hwf1 Hwf2.
  assert (F1 : normalized_frame (nh l1) c1 = nh l1).
  { apply normalized_frame_fixed.
    - apply normalized_heap_wf1.
    - subst nh. now rewrite normalized_heap_columns.
    - rewrite normalized_heap_ids1. apply normalize_ids_idem. }
  assert (F2 : normalized_frame (nh l2) c2 = nh l2).
  { apply normalized_frame_fixed.
    - apply normalized_heap_wf2.
    - subst nh. now rewrite normalized_heap_columns.
    - rewrite normalized_heap_ids2. apply normalize_ids_idem. }
  unfold normalized_heap at 1. unfold heap_update.
  destruct (decide (l = l2)) as [->|Hl2].
  - destruct (decide (l2 = l1)) as [E|Hne].
    + rewrite F1. rewrite <- E. exact F2.
    + exact F2.
  - destruct (decide (l = l1)) as [->|Hl1]; [exact F1|reflexivity].
Qed.

End Normalized.

(** ** Frame and idempotence *)

Lemma run_of_heap l1 l2 c1 c2 m st :
  heap (run_of l1 l2 c1 c2 m st).2 = normalized_heap (heap st) l1 c1 l2 c2.
Proof.
  unfold run_of. destruct (rfold _ _ _) as [[data flags]|[]]; reflexivity.
Qed.

(** C9. When [compare_files] returns, the identifier column of each data
    frame holds its values cast to text and trimmed, and nothing else
    changed in the caller's objects: every data frame keeps its header and
    its number of rows, and every column other than the two designated
    identifier columns is what it was. *)
Theorem compare_files_frame l1 l2 m st r st' :
  wf_frame (heap st l1) -> wf_frame (heap st l2) ->
  compare_files l1 l2 m st = (Ok r, st') ->
  exists c1 c2,
    dict_get m "id" = Ok (c1, c2)
    /\ column (heap st' l1) c1 = normalize_ids (column (heap st l1) c1)
    /\ column (heap st' l2) c2 = normalize_ids (column (heap st l2) c2)
    /\ forall l,
         columns (heap st' l) = columns (heap st l)
         /\ length (rows (heap st' l)) = length (rows (heap st l))
         /\ forall c, ~ (l = l1 /\ c = c1) -> ~ (l = l2 /\ c = c2) ->
                      get_column (heap st' l) c = get_column (heap st l) c.
Proof.
  intros Hwf1 Hwf2 Hrun.
  destruct (compare_files_Ok_run _ _ _ _ _ _ Hrun)
    as (c1 & c2 & Hid & H1 & H2 & Hrun').
  exists c1, c2.
  assert (Hh : heap st' = normalized_heap (heap st) l1 c1 l2 c2).
  { rewrite <- (run_of_heap l1 l2 c1 c2 m st). now rewrite Hrun'. }
  rewrite Hh. repeat split.
  - assumption.
  - now apply normalized_heap_ids1.
  - now apply normalized_heap_ids2.
  - now apply normalized_heap_columns.
  - now apply normalized_heap_length.
  - intros c N1 N2. now apply normalized_heap_frame.
Qed.

Lemma demo_wf1 : wf_frame (heap demo_state 0%nat).
Proof. repeat constructor. Qed.

Lemma demo_wf2 : wf_frame (heap demo_state 1%nat).
Proof. repeat constructor. Qed.

Lemma demo_run :
  compare_files 0%nat 1%nat demo_mapping demo_state
  = (Ok demo_results, demo_final).
Proof. vm_compute. reflexivity. Qed.

Lemma compare_files_frame_witness :
  exists c1 c2,
    dict_get demo_mapping "id" = Ok (c1, c2)
    /\ column (heap demo_final 0%nat) c1
       = normalize_ids (column (heap demo_state 0%nat) c1)
    /\ column (heap demo_final 1%nat) c2
       = normalize_ids (column (heap demo_state 1%nat) c2)
    /\ forall l,
         columns (heap demo_final l) = columns (heap demo_state l)
         /\ length (rows (heap demo_final l)) = length (rows (heap demo_state l))
         /\ forall c, ~ (l = 0%nat /\ c = c1) -> ~ (l = 1%nat /\ c = c2) ->
                      get_column (heap demo_final l) c
                      = get_column (heap demo_state l) c.
Proof.
  exact (compare_files_frame 0%nat 1%nat demo_mapping demo_state
           demo_results demo_final demo_wf1 demo_wf2 demo_run).
Defined.

Lemma normalized_heap_ext h h' l1 c1 l2 c2 :
  h l1 = h' l1 -> h l2 = h' l2 ->
  normalized_heap h l1 c1 l2 c2 l1 = normalized_heap h' l1 c1 l2 c2 l1
  /\ normalized_heap h l1 c1 l2 c2 l2 = normalized_heap h' l1 c1 l2 c2 l2.
Proof.
  intros E1 E2. rewrite !normalized_heap_l1, !normalized_heap_l2, E1, E2. auto.
Qed.

(** The result of a run depends on the state through the two normalized
    frames and the clock only. *)
Lemma run_of_same_frames l1 l2 c1 c2 m st st2 r :
  normalized_heap (heap st2) l1 c1 l2 c2 l1
    = normalized_heap (heap st) l1 c1 l2 c2 l1 ->
  normalized_heap (heap st2) l1 c1 l2 c2 l2
    = normalized_heap (heap st) l1 c1 l2 c2 l2 ->
  (run_of l1 l2 c1 c2 m st).1 = Ok r ->
  exists r2,
    (run_of l1 l2 c1 c2 m st2).1 = Ok r2
    /\ comparison_df r2 = comparison_df r
    /\ not_in_file1 r2 = not_in_file1 r
    /\ not_in_file2 r2 = not_in_file2 r
    /\ counts (summary r2) = counts (summary r)
    /\ (exists t, dict_get (summary r2) "Time taken" = Ok (VStr t)).
Proof.
  intros E1 E2. unfold run_of. rewrite E1, E2.
  destruct (rfold _ _ _) as [[data flags]|[]]; simpl; try discriminate.
  intros [= <-]. eexists. split; [reflexivity|]. simpl.
  repeat split. eexists. reflexivity.
Qed.

(** C5. Idempotence. When [compare_files] returns on two data frames and a
    mapping, a second call with the same mapping returns too, be it on the
    same two objects as the first call left them or on data frames equal to
    the original ones, whatever the clock and the console; it yields the
    same comparison frame, the same two unmatched sets and the same summary
    counts, and its summary has an elapsed-time entry. *)
Theorem compare_files_idempotent l1 l2 m st r st' st2 :
  wf_frame (heap st l1) -> wf_frame (heap st l2) ->
  compare_files l1 l2 m st = (Ok r, st') ->
  (heap st2 l1 = heap st' l1 /\ heap st2 l2 = heap st' l2)
  \/ (heap st2 l1 = heap st l1 /\ heap st2 l2 = heap st l2) ->
  exists r2 st2',
    compare_files l1 l2 m st2 = (Ok r2, st2')
    /\ comparison_df r2 = comparison_df r
    /\ not_in_file1 r2 = not_in_file1 r
    /\ not_in_file2 r2 = not_in_file2 r
    /\ counts (summary r2) = counts (summary r)
    /\ (exists t, dict_get (summary r2) "Time taken" = Ok (VStr t)).
Proof.
  intros Hwf1 Hwf2 Hrun Hsame.
  destruct (compare_files_Ok_run _ _ _ _ _ _ Hrun)
    as (c1 & c2 & Hid & H1 & H2 & Hrun').
  assert (Hh : heap st' = normalized_heap (heap st) l1 c1 l2 c2).
  { rewrite <- (run_of_heap l1 l2 c1 c2 m st). now rewrite Hrun'. }
  assert (Hframes :
    normalized_heap (heap st2) l1 c1 l2 c2 l1
      = normalized_heap (heap st) l1 c1 l2 c2 l1
    /\ normalized_heap (heap st2) l1 c1 l2 c2 l2
      = normalized_heap (heap st) l1 c1 l2 c2 l2).
  { destruct Hsame as [[S1 S2]|[S1 S2]].
    - rewrite Hh in S1, S2.
      destruct (normalized_heap_ext _ _ l1 c1 l2 c2 S1 S2) as [-> ->].
      split; now apply normalized_heap_idem.
    - exact (normalized_heap_ext _ _ l1 c1 l2 c2 S1 S2). }
  destruct Hframes as [E1 E2].
  assert (Hc1 : c1 ∈ columns (heap st2 l1)).
  { destruct Hsame as [[S1 S2]|[S1 S2]]; rewrite S1; [|assumption].
    rewrite Hh. now rewrite normalized_heap_columns. }
  assert (Hc2 : c2 ∈ columns (heap st2 l2)).
  { destruct Hsame as [[S1 S2]|[S1 S2]]; rewrite S2; [|assumption].
    rewrite Hh. now rewrite normalized_heap_columns. }
  destruct (run_of_same_frames l1 l2 c1 c2 m st st2 r E1 E2)
    as (r2 & Hr2 & Hrest).
  { now rewrite Hrun'. }
  exists r2, (run_of l1 l2 c1 c2 m st2).2. split; [|exact Hrest].
  rewrite (compare_files_run _ _ _ _ _ _ Hid Hc1 Hc2).
  rewrite <- Hr2. now destruct (run_of l1 l2 c1 c2 m st2).
Qed.

Lemma compare_files_idempotent_witness :
  exists r2 st2',
    compare_files 0%nat 1%nat demo_mapping demo_final = (Ok r2, st2')
    /\ comparison_df r2 = comparison_df demo_results
    /\ not_in_file1 r2 = not_in_file1 demo_results
    /\ not_in_file2 r2 = not_in_file2 demo_results
    /\ counts (summary r2) = counts (summary demo_results)
    /\ (exists t, dict_get (summary r2) "Time taken" = Ok (VStr t)).
Proof.
  exact (compare_files_idempotent 0%nat 1%nat demo_mapping demo_state
           demo_results demo_final demo_final demo_wf1 demo_wf2 demo_run
           (or_introl (conj eq_refl eq_refl))).
Defined.

(** ** The loop over the column pairs *)

Lemma rmap_length {A B} (f : A -> result B) l l' :
  rmap f l = Ok l' -> length l' = length l.
Proof.
  revert l'. induction l as [|x l IH]; intros l'; simpl.
  - now intros [= <-].
  - destruct (f x) as [y|]; simpl; [|discriminate].
    destruct (rmap f l) as [ys|]; simpl; [|discriminate].
    intros [= <-]. simpl. f_equal. now apply IH.
Qed.

Lemma get_column_length df c s :
  get_column df c = Ok s -> length s = length (rows df).
Proof.
  unfold get_column. destruct (get_loc c (columns df)); [|discriminate].
  intros [= <-]. apply length_map.
Qed.

Lemma dict_set_shape n (d : dict Series) k s :
  Forall (fun kv => length kv.2 = n) d -> length s = n ->
  Forall (fun kv => length kv.2 = n) (dict_set d k s).
Proof.
  intros Hd Hs. induction Hd as [|[k' s'] d Hk Hd IH]; simpl.
  - now constructor.
  - destruct (String.eqb k k'); constructor; auto.
Qed.

Lemma dict_get_set_same {A} (d : dict A) k v : dict_get (dict_set d k v) k = Ok v.
Proof.
  induction d as [|[k' a] d IH]; simpl.
  - now rewrite String.eqb_refl.
  - destruct (String.eqb k k') eqn:E; simpl; rewrite E; [reflexivity|exact IH].
Qed.

Lemma dict_get_set_other {A} (d : dict A) k k' v :
  k' <> k -> dict_get (dict_set d k v) k' = dict_get d k'.
Proof.
  intros Hne. induction d as [|[k0 a] d IH]; simpl.
  - destruct (String.eqb_spec k' k); [contradiction|reflexivity].
  - destruct (String.eqb_spec k k0) as [->|Hk]; simpl.
    + destruct (String.eqb_spec k' k0); [contradiction|reflexivity].
    + now rewrite IH.
Qed.

Lemma tagged_not_id (name tag : string) :
  (2 < String.length tag)%nat -> name +:+ tag <> "id".
Proof.
  intros Hlen E. apply (f_equal String.length) in E.
  rewrite length_app_str in E. simpl in E. lia.
Qed.

Lemma compare_columns_shape cr data flags name a b acc' :
  well_shaped (length (rows cr)) (data, flags) ->
  compare_columns cr data flags name a b = Ok acc' ->
  well_shaped (length (rows cr)) acc'
  /\ dict_get acc'.1 "id" = dict_get data "id".
Proof.
  intros [Hd Hf]. unfold compare_columns. simpl in *.
  destruct (negb _); [discriminate|].
  destruct (negb _); [discriminate|].
  unfold mbind, result_bind.
  destruct (get_column cr (a +:+ "_file1")) as [s1|] eqn:E1; simpl; [|discriminate].
  destruct (get_column cr (b +:+ "_file2")) as [s2|] eqn:E2; simpl; [|discriminate].
  destruct (rmap _ _) as [ms|] eqn:Em; simpl; [|discriminate].
  intros [= <-]. simpl.
  apply get_column_length in E1, E2. apply rmap_length in Em.
  rewrite length_zip in Em.
  assert (Hms : length ms = length (rows cr)) by lia.
  split; [split|].
  - unfold dict_update. simpl.
    repeat apply dict_set_shape; auto. now rewrite length_map.
  - simpl. rewrite length_zip_with. lia.
  - unfold dict_update. simpl.
    rewrite !dict_get_set_other; [reflexivity|..];
      apply not_eq_sym, tagged_not_id; simpl; lia.
Qed.

Lemma rfold_shape cr items acc acc' :
  well_shaped (length (rows cr)) acc ->
  rfold (pair_step cr) items acc = Ok acc' ->
  well_shaped (length (rows cr)) acc'
  /\ dict_get acc'.1 "id" = dict_get acc.1 "id".
Proof.
  revert acc. induction items as [|[name [a b]] items IH]; intros [data flags] Hsh; simpl.
  - intros [= <-]. auto.
  - unfold pair_step at 1. simpl. destruct (String.eqb name "id").
    + simpl. apply IH. assumption.
    + destruct (compare_columns cr data flags name a b) as [acc1|] eqn:E;
        simpl; [|discriminate].
      destruct (compare_columns_shape _ _ _ _ _ _ _ Hsh E) as [Hsh1 Hid1].
      intros Hr. destruct (IH acc1 Hsh1 Hr) as [Hsh' Hid']. split; [assumption|].
      now rewrite Hid', Hid1.
Qed.

(** ** The comparison frame *)

Lemma dict_get_position {A} (d : dict A) k a :
  dict_get d k = Ok a ->
  exists j, get_loc k (map fst d) = Some j
            /\ forall (B : Type) (f : A -> B) (b : B),
                 nth j (map (fun kv => f kv.2) d) b = f a.
Proof.
  induction d as [|[k' a'] d IH]; simpl; [discriminate|].
  destruct (String.eqb k k').
  - intros [= <-]. exists O. split; [reflexivity|]. reflexivity.
  - intros H. destruct (IH H) as (j & Hj & Hn). exists (S j).
    rewrite Hj. split; [reflexivity|]. intros B f b. simpl. apply Hn.
Qed.

Lemma max_lengths n (d : dict Series) :
  d <> [] -> Forall (fun kv => length kv.2 = n) d ->
  foldr Nat.max O (map (fun kv => length kv.2) d) = n.
Proof.
  intros Hne Hd. revert Hne.
  induction Hd as [|kv d Hk Hd IH]; intros Hne; [now destruct Hne|].
  simpl. destruct d as [|kv' d].
  - simpl. lia.
  - rewrite IH by discriminate. lia.
Qed.

Lemma map_nth_seq {A} (s : list A) (d : A) :
  map (fun i => nth i s d) (seq 0 (length s)) = s.
Proof.
  induction s as [|x s IH]; [reflexivity|].
  simpl. f_equal. rewrite <- seq_shift, map_map. exact IH.
Qed.

(** A column of the frame built from a dict is the column stored under its
    name. *)
Lemma column_of_dict n (data : dict Series) k s :
  Forall (fun kv => length kv.2 = n) data ->
  dict_get data k = Ok s ->
  column (DataFrame_of_dict data) k = s.
Proof.
  intros Hd Hk.
  assert (Hne : data <> []) by (intros ->; discriminate).
  assert (Hs : length s = n).
  { clear Hne. induction Hd as [|[k' s'] d Hk' Hd IH]; simpl in Hk; [discriminate|].
    destruct (String.eqb k k'); [now injection Hk as <-|auto]. }
  destruct (dict_get_position data k s Hk) as (j & Hj & Hn).
  unfold column, get_column, DataFrame_of_dict. simpl. rewrite Hj.
  rewrite (max_lengths n data Hne Hd), map_map.
  rewrite <- Hs at 1. rewrite <- (map_nth_seq s (VFloat nan)) at 2.
  apply map_ext. intros i. apply (Hn value (fun c => nth i c (VFloat nan))).
Qed.

(** ** Sorting by the flag *)

Lemma value_le_total a b : value_le a b \/ value_le b a.
Proof.
  destruct a as [|x|x|x|x|? ? ?|x|x], b as [|y|y|y|y|? ? ?|y|y]; simpl; auto.
  - destruct x, y; auto.
  - lia.
  - destruct (String.leb_total x y); auto.
Qed.

#[local] Instance row_before_total i ascending : Total (row_before i ascending).
Proof.
  intros r1 r2. unfold row_before. destruct ascending; apply value_le_total.
Qed.

Lemma descending_bools (ks : Series) :
  Sorted (fun x y => value_le y x) ks ->
  Forall (fun v => exists b, v = VBool b) ks ->
  matches_first ks.
Proof.
  induction 1 as [|k ks Hs IH Hd]; intros Hall.
  - exists O, O. reflexivity.
  - inversion Hall as [|? ? [b ->] Hall']; subst.
    destruct (IH Hall') as (n1 & n2 & ->).
    destruct b.
    + exists (S n1), n2. reflexivity.
    + destruct n1 as [|n1].
      * exists O, (S n2). reflexivity.
      * simpl in Hd. inversion Hd as [|? ? Hle]; subst. simpl in Hle. discriminate.
Qed.

Lemma get_column_of_dict n (data : dict Series) k s :
  Forall (fun kv => length kv.2 = n) data ->
  dict_get data k = Ok s ->
  get_column (DataFrame_of_dict data) k = Ok s.
Proof.
  intros Hd Hk. rewrite get_column_Ok.
  - f_equal. now apply (column_of_dict n).
  - destruct (dict_get_position data k s Hk) as (j & Hj & _).
    eapply get_loc_is_elem. exact Hj.
Qed.

(** Sorting permutes every column. *)
Lemma sort_values_column df by_ ascending srt c s :
  sort_values df by_ ascending = Ok srt ->
  get_column df c = Ok s ->
  exists s', get_column srt c = Ok s' /\ s' ≡ₚ s.
Proof.
  unfold sort_values, get_column.
  destruct (get_loc by_ (columns df)) as [i|]; [|discriminate].
  intros [= <-]. cbn [columns rows].
  destruct (get_loc c (columns df)) as [j|]; [|discriminate].
  intros [= <-]. eexists. split; [reflexivity|].
  apply Permutation_map, merge_sort_Permutation.
Qed.

(** A descending sort leaves the key column in descending order. *)
Lemma sort_values_descending df by_ srt :
  sort_values df by_ false = Ok srt ->
  exists keys, get_column srt by_ = Ok keys
               /\ Sorted (fun x y => value_le y x) keys.
Proof.
  unfold sort_values, get_column.
  destruct (get_loc by_ (columns df)) as [i|] eqn:Hi; [|discriminate].
  intros [= <-]. cbn [columns rows]. rewrite Hi.
  eexists. split; [reflexivity|].
  apply (Sorted_fmap (fun r => nth i r VNone) (row_before i false)).
  - intros r1 r2 H. exact H.
  - apply Sorted_merge_sort. apply _.
Qed.

(** The flag column of the comparison frame: the flags of the joined rows,
    rearranged so that the true ones come first. *)
Lemma sorted_comparison_flags n data flags0 :
  well_shaped n (data, flags0) ->
  exists flags,
    get_column (sorted_comparison data flags0) "all_columns_match" = Ok flags
    /\ flags ≡ₚ map VBool flags0
    /\ Sorted (fun x y => value_le y x) flags
    /\ matches_first flags.
Proof.
  intros [Hd Hf]. simpl in Hd, Hf.
  pose proof (sort_values_comparison data flags0) as Hsort.
  assert (Hcol : get_column
            (DataFrame_of_dict
               (dict_set data "all_columns_match" (map VBool flags0)))
            "all_columns_match" = Ok (map VBool flags0)).
  { apply (get_column_of_dict n); [|apply dict_get_set_same].
    apply dict_set_shape; [assumption|]. now rewrite length_map. }
  destruct (sort_values_column _ _ _ _ _ _ Hsort Hcol) as (flags & Hflags & Hperm).
  destruct (sort_values_descending _ _ _ Hsort) as (keys & Hkeys & Hsorted).
  rewrite Hflags in Hkeys. injection Hkeys as <-.
  exists flags. repeat split; try assumption.
  apply descending_bools; [assumption|].
  eapply Permutation_Forall; [symmetry; exact Hperm|].
  apply Forall_forall. intros v Hv. apply list_elem_of_In, in_map_iff in Hv.
  destruct Hv as (b & <- & _). eauto.
Qed.


Lemma well_shaped_init (ids : Series) n :
  length ids = n -> well_shaped n ([("id", ids)], replicate n true).
Proof.
  intros H. split; simpl.
  - now repeat constructor.
  - apply length_replicate.
Qed.

Lemma joined_id_length e1 e2 ids1 ids2 c1 :
  c1 ∈ columns e1 ->
  length (column (joined e1 e2 ids1 ids2) (c1 +:+ "_file1"))
  = length (rows (joined e1 e2 ids1 ids2)).
Proof.
  intros H. apply length_column. unfold joined. simpl.
  apply elem_of_app. left. now apply elem_of_map_tag.
Qed.

(** What a returning run returns: the columns and flags left by the loop
    have one entry per joined row. *)
Lemma run_of_Ok l1 l2 c1 c2 m st r st' :
  c1 ∈ columns (heap st l1) -> c2 ∈ columns (heap st l2) ->
  run_of l1 l2 c1 c2 m st = (Ok r, st') ->
  let h := normalized_heap (heap st) l1 c1 l2 c2 in
  let cr := joined (h l1) (h l2) (column (h l1) c1) (column (h l2) c2) in
  exists data flags,
    rfold (pair_step cr) m
          ([("id", column cr (c1 +:+ "_file1"))],
           replicate (length (rows cr)) true) = Ok (data, flags)
    /\ well_shaped (length (rows cr)) (data, flags)
    /\ dict_get data "id" = Ok (column cr (c1 +:+ "_file1"))
    /\ comparison_df r = sorted_comparison data flags
    /\ not_in_file1 r = unmatched (h l2) (column (h l2) c2) (column (h l1) c1)
    /\ not_in_file2 r = unmatched (h l1) (column (h l1) c1) (column (h l2) c2)
    /\ dict_get (summary r) "Common records" = Ok (len (rows cr))
    /\ dict_get (summary r) "Matching records" = Ok (VInt (bool_sum flags))
    /\ dict_get (summary r) "Mismatched records"
       = Ok (VInt (Z.of_nat (length flags) - bool_sum flags)).
Proof.
  intros H1 H2 Hrun h cr. unfold run_of in Hrun. fold h in Hrun. fold cr in Hrun.
  destruct (rfold (pair_step cr) m _) as [[data flags]|e] eqn:E.
  2:{ destruct e; discriminate. }
  injection Hrun as <- _. exists data, flags.
  assert (Hinit : well_shaped (length (rows cr))
            ([("id", column cr (c1 +:+ "_file1"))],
             replicate (length (rows cr)) true)).
  { apply well_shaped_init. apply joined_id_length.
    subst h. now rewrite normalized_heap_columns. }
  destruct (rfold_shape cr m _ _ Hinit E) as [Hsh Hid]. simpl in Hid.
  split; [reflexivity|]. split; [exact Hsh|]. split; [now rewrite Hid|].
  repeat split.
Qed.

(** C2, as the code has it. When [compare_files] returns, the rows of the
    comparison frame are sorted by the overall match flag in descending
    order: the flag column is a run of true flags followed by a run of false
    flags, so the rows that match in every column come first. *)
Theorem comparison_df_matches_first l1 l2 m st r st' :
  compare_files l1 l2 m st = (Ok r, st') ->
  exists flags,
    get_column (comparison_df r) "all_columns_match" = Ok flags
    /\ Sorted (fun x y => value_le y x) flags
    /\ matches_first flags.
Proof.
  intros Hrun.
  destruct (compare_files_Ok_run _ _ _ _ _ _ Hrun)
    as (c1 & c2 & Hid & H1 & H2 & Hrun').
  destruct (run_of_Ok _ _ _ _ _ _ _ _ H1 H2 Hrun')
    as (data & flags0 & _ & Hsh & _ & -> & _).
  destruct (sorted_comparison_flags _ _ _ Hsh) as (flags & Hcol & _ & Hs & Hmf).
  exists flags. auto.
Qed.

Lemma comparison_df_matches_first_witness :
  exists flags,
    get_column (comparison_df demo_results) "all_columns_match" = Ok flags
    /\ Sorted (fun x y => value_le y x) flags
    /\ matches_first flags.
Proof.
  exact (comparison_df_matches_first 0%nat 1%nat demo_mapping demo_state
           demo_results demo_final demo_run).
Defined.

(** C2, as claimed, fails: in the worked reconciliation the comparison frame
    has its fully matching row (id 1) before its mismatching row (id 4), so
    the flags are not in ascending order and the mismatched rows do not come
    first. *)
Lemma comparison_df_not_ascending :
  compare_files 0%nat 1%nat demo_mapping demo_state = (Ok demo_results, demo_final)
  /\ get_column (comparison_df demo_results) "all_columns_match"
     = Ok [VBool true; VBool false]
  /\ ~ Sorted value_le [VBool true; VBool false]
  /\ ~ mismatches_first [VBool true; VBool false].
Proof.
  split; [exact demo_run|]. split; [reflexivity|]. split.
  - intros H. inversion H as [|? ? _ Hd]; subst.
    inversion Hd as [|? ? Hle]; subst. simpl in Hle. discriminate.
  - intros (a & b & H). destruct a as [|a]; simpl in H.
    + destruct b as [|[|b]]; simpl in H; discriminate.
    + discriminate.
Qed.

(** ** The size of the join *)

Lemma normalize_ids_texts s : normalize_ids s = map VStr (id_texts s).
Proof.
  unfold normalize_ids, str_strip, astype_str, id_texts. now rewrite !map_map.
Qed.

(** With unique keys on the right, a left key meets one right row or
    none. *)
Lemma filter_key_unique (s2 : list string) (r2 : list (list value)) (s : string) :
  length s2 = length r2 -> NoDup s2 ->
  length (filter (fun kr : value * list value => kr.1 = VStr s)
                 (zip (map VStr s2) r2))
  = if decide (s ∈ s2) then 1%nat else 0%nat.
Proof.
  revert r2. induction s2 as [|t s2 IH]; intros [|r r2] Hlen Hnd;
    simpl in *; try discriminate.
  - destruct (decide (s ∈ [])) as [H|_]; [inversion H|reflexivity].
  - apply NoDup_cons in Hnd as [Hnotin Hnd].
    injection Hlen as Hlen. specialize (IH r2 Hlen Hnd).
    destruct (decide (t = s)) as [->|Hne].
    + rewrite filter_cons_True by reflexivity. simpl. rewrite IH.
      rewrite decide_False by assumption.
      rewrite decide_True by left. reflexivity.
    + rewrite filter_cons_False by (simpl; congruence). rewrite IH.
      destruct (decide (s ∈ s2)) as [Hin|Hnin].
      * rewrite decide_True by (now right). reflexivity.
      * rewrite decide_False; [reflexivity|].
        intros [E|Hin]%elem_of_cons; [congruence|contradiction].
Qed.

Lemma joined_rows_unique (s1 s2 : list string) (r1 r2 : list (list value)) :
  length s1 = length r1 -> length s2 = length r2 -> NoDup s2 ->
  length (flat_map (fun kl : value * list value =>
            map (fun kr : value * list value => kl.2 ++ kr.2)
                (filter (fun kr : value * list value => kr.1 = kl.1)
                        (zip (map VStr s2) r2)))
            (zip (map VStr s1) r1))
  = length (filter (fun s => s ∈ s2) s1).
Proof.
  intros Hlen1 Hlen2 Hnd. revert r1 Hlen1.
  induction s1 as [|s s1 IH]; intros [|r r1] Hlen1; simpl in *;
    try discriminate; [reflexivity|].
  injection Hlen1 as Hlen1.
  rewrite length_app, length_map, (filter_key_unique s2 r2 s Hlen2 Hnd).
  rewrite (IH r1 Hlen1).
  destruct (decide (s ∈ s2)) as [Hin|Hnin].
  - now rewrite filter_cons_True.
  - now rewrite filter_cons_False.
Qed.

Lemma size_intersection_lists (s1 s2 : list string) :
  NoDup s1 ->
  size (list_to_set s1 ∩ list_to_set s2 : gset string)
  = length (filter (fun s => s ∈ s2) s1).
Proof.
  intros Hnd.
  rewrite <- (size_list_to_set (C := gset string) (filter (fun s => s ∈ s2) s1))
    by now apply NoDup_filter.
  f_equal. apply set_eq. intros x.
  rewrite elem_of_intersection, !elem_of_list_to_set, list_elem_of_filter.
  tauto.
Qed.

Lemma sorted_comparison_length n data flags :
  well_shaped n (data, flags) ->
  length (rows (sorted_comparison data flags)) = n.
Proof.
  intros [Hd Hf]. simpl in Hd, Hf.
  pose proof (sort_values_comparison data flags) as Hsort.
  unfold sort_values in Hsort.
  destruct (get_loc _ _) as [i|]; [|discriminate].
  injection Hsort as <-. cbn [rows].
  rewrite (Permutation_length (merge_sort_Permutation _ _)).
  unfold DataFrame_of_dict. cbn [rows]. rewrite length_map, length_seq.
  apply max_lengths.
  - destruct data as [|[k s] data]; simpl; [discriminate|].
    destruct (String.eqb _ k); discriminate.
  - apply dict_set_shape; [assumption|]. now rewrite length_map.
Qed.

(** C8. When the normalized identifiers are unique within each data frame,
    the number of common records -- the "Common records" count of the
    summary, which is also the number of rows of the comparison frame --
    is the size of the intersection of the two sets of normalized
    identifiers. *)
Theorem common_records_size l1 l2 m st r st' c1 c2 :
  wf_frame (heap st l1) -> wf_frame (heap st l2) ->
  compare_files l1 l2 m st = (Ok r, st') ->
  dict_get m "id" = Ok (c1, c2) ->
  NoDup (id_texts (column (heap st l1) c1)) ->
  NoDup (id_texts (column (heap st l2) c2)) ->
  let common : gset string :=
    list_to_set (id_texts (column (heap st l1) c1))
    ∩ list_to_set (id_texts (column (heap st l2) c2)) in
  dict_get (summary r) "Common records" = Ok (VInt (Z.of_nat (size common)))
  /\ length (rows (comparison_df r)) = size common.
Proof.
  intros Hwf1 Hwf2 Hrun Hid Hnd1 Hnd2 common.
  destruct (compare_files_Ok_run _ _ _ _ _ _ Hrun)
    as (c1' & c2' & Hid' & H1 & H2 & Hrun').
  rewrite Hid in Hid'. injection Hid' as <- <-.
  destruct (run_of_Ok _ _ _ _ _ _ _ _ H1 H2 Hrun')
    as (data & flags & _ & Hsh & _ & Hdf & _ & _ & Hcommon & _).
  assert (Hsize : length (rows (joined
                     (normalized_heap (heap st) l1 c1 l2 c2 l1)
                     (normalized_heap (heap st) l1 c1 l2 c2 l2)
                     (column (normalized_heap (heap st) l1 c1 l2 c2 l1) c1)
                     (column (normalized_heap (heap st) l1 c1 l2 c2 l2) c2)))
                  = size common).
  { rewrite (normalized_heap_ids1 _ _ _ _ _ H1 H2 Hwf1 Hwf2).
    rewrite (normalized_heap_ids2 _ _ _ _ _ H1 H2 Hwf1 Hwf2).
    rewrite !normalize_ids_texts. unfold joined. cbn [rows].
    rewrite joined_rows_unique; [|
      unfold id_texts; rewrite length_map, length_column, normalized_heap_length;
      auto ..| assumption].
    subst common. now rewrite size_intersection_lists. }
  split.
  - rewrite Hcommon. unfold len. now rewrite Hsize.
  - rewrite Hdf, (sorted_comparison_length _ _ _ Hsh). exact Hsize.
Qed.

Lemma demo_ids1 : NoDup (id_texts (column (heap demo_state 0%nat) "id")).
Proof. apply (bool_decide_unpack _). vm_compute. exact I. Qed.

Lemma demo_ids2 : NoDup (id_texts (column (heap demo_state 1%nat) "id")).
Proof. apply (bool_decide_unpack _). vm_compute. exact I. Qed.

Lemma common_records_size_witness :
  let common : gset string :=
    list_to_set (id_texts (column (heap demo_state 0%nat) "id"))
    ∩ list_to_set (id_texts (column (heap demo_state 1%nat) "id")) in
  dict_get (summary demo_results) "Common records"
    = Ok (VInt (Z.of_nat (size common)))
  /\ length (rows (comparison_df demo_results)) = size common.
Proof.
  exact (common_records_size 0%nat 1%nat demo_mapping demo_state
           demo_results demo_final "id" "id" demo_wf1 demo_wf2 demo_run
           eq_refl demo_ids1 demo_ids2).
Defined.

(** ** The number of pairs in the join *)

Lemma filter_key_occurrences (k : value) (s : Series) (r : list (list value)) :
  length s = length r ->
  length (filter (fun kr : value * list value => kr.1 = k) (zip s r))
  = occurrences k s.
Proof.
  unfold occurrences. revert r.
  induction s as [|a s IH]; intros [|x r] Hlen; try discriminate;
    [reflexivity|].
  injection Hlen as Hlen. cbn [zip zip_with].
  rewrite (filter_cons (fun kr : value * list value => kr.1 = k)).
  rewrite (filter_cons (fun k' : value => k' = k)). simpl.
  destruct (decide (a = k)); simpl; rewrite (IH r Hlen); reflexivity.
Qed.

Lemma sum_list_step (x : nat) (l : list nat) :
  sum_list (x :: l) = (x + sum_list l)%nat.
Proof. reflexivity. Qed.

(** The inner join has one row for every pair of equal keys. *)
Lemma joined_rows_count (s1 s2 : Series) (r1 r2 : list (list value)) :
  length s1 = length r1 -> length s2 = length r2 ->
  length (flat_map (fun kl : value * list value =>
            map (fun kr : value * list value => kl.2 ++ kr.2)
                (filter (fun kr : value * list value => kr.1 = kl.1)
                        (zip s2 r2)))
            (zip s1 r1))
  = sum_list (map (fun k => occurrences k s2) s1).
Proof.
  intros H1 H2. revert r1 H1.
  induction s1 as [|a s1 IH]; intros [|x r1] H1; try discriminate;
    [reflexivity|].
  injection H1 as H1. cbn [zip zip_with flat_map map].
  rewrite sum_list_step, length_app, length_map, (IH r1 H1). cbn [fst snd].
  rewrite (filter_key_occurrences a s2 r2 H2). reflexivity.
Qed.

Lemma joined_size e1 e2 c1 c2 :
  c1 ∈ columns e1 -> c2 ∈ columns e2 ->
  length (rows (joined e1 e2 (column e1 c1) (column e2 c2)))
  = sum_list (map (fun k => occurrences k (column e2 c2)) (column e1 c1)).
Proof.
  intros H1 H2. unfold joined. cbn [rows].
  apply joined_rows_count; now apply length_column.
Qed.

(** ** A mapping with the identifier pair only *)






(** ** Identifiers that agree once trimmed *)

Lemma elem_of_zip_map {A B} (f : A -> B) (l : list A) (v : B) :
  v ∈ map f l -> exists x, f x = v /\ (v, x) ∈ zip (map f l) l.
Proof.
  induction l as [|a l IH]; simpl.
  - intros H. inversion H.
  - intros [->|H]%elem_of_cons.
    + exists a. split; [reflexivity|left].
    + destruct (IH H) as (x & Hx & Hin). exists x. split; [assumption|now right].
Qed.

Lemma zip_map_elem {A B C} (f : A -> B) (g : B -> C) (l : list A) x c :
  (x, c) ∈ zip l (map g (map f l)) -> c = g (f x).
Proof.
  induction l as [|a l IH]; simpl.
  - intros H. inversion H.
  - intros [E|H]%elem_of_cons; [now injection E as -> ->|auto].
Qed.

Lemma nth_app_wf (r1 r2 : list value) i d :
  (i < length r1)%nat -> nth i (r1 ++ r2) d = nth i r1 d.
Proof. intros H. now apply app_nth1. Qed.

(** A key held by both sides is in the identifier column of the join. *)
Lemma joined_has_key e1 e2 c1 c2 k :
  wf_frame e1 -> c1 ∈ columns e1 -> c2 ∈ columns e2 ->
  k ∈ column e1 c1 -> k ∈ column e2 c2 ->
  k ∈ column (joined e1 e2 (column e1 c1) (column e2 c2)) (c1 +:+ "_file1").
Proof.
  intros Hwf H1 H2 Hk1 Hk2.
  destruct (get_loc_elem _ _ H1) as [i Hi].
  destruct (get_loc_elem _ _ H2) as [j Hj].
  assert (Hi' : get_loc (c1 +:+ "_file1") (columns (joined e1 e2 (column e1 c1)
                  (column e2 c2))) = Some i).
  { unfold joined. cbn [columns]. apply get_loc_app_l.
    rewrite (get_loc_map (fun x => x +:+ "_file1")); [assumption|].
    apply app_tag_inj. }
  unfold column at 1. unfold get_column. rewrite Hi'.
  unfold column, get_column in Hk1, Hk2 |- *. rewrite Hi in *. rewrite Hj in *.
  destruct (elem_of_zip_map _ _ _ Hk1) as (r1 & Hr1 & Hz1).
  destruct (elem_of_zip_map _ _ _ Hk2) as (r2 & Hr2 & Hz2).
  apply list_elem_of_In, in_map_iff. exists (r1 ++ r2). split.
  - rewrite nth_app_wf; [assumption|].
    assert (Hin : r1 ∈ rows e1).
    { apply elem_of_zip_r in Hz1. assumption. }
    unfold wf_frame in Hwf. rewrite Forall_forall in Hwf.
    rewrite (Hwf r1 Hin). eapply get_loc_lt; eauto.
  - unfold joined. cbn [rows]. apply in_flat_map.
    exists (k, r1). split; [now apply list_elem_of_In|].
    apply in_map_iff. exists (k, r2). split; [reflexivity|].
    apply list_elem_of_In, list_elem_of_filter. split; [reflexivity|assumption].
Qed.

(** A key held by the other side is not in the unmatched set. *)
Lemma unmatched_lacks_key e c others k :
  k ∈ others -> k ∉ column (unmatched e (column e c) others) c.
Proof.
  intros Hk Hin. unfold column, get_column, unmatched, mask_rows in Hin.
  cbn [columns rows] in Hin.
  destruct (get_loc c (columns e)) as [j|]; [|inversion Hin].
  apply list_elem_of_In, in_map_iff in Hin as (r & Hr & Hin).
  apply in_map_iff in Hin as ([r' b] & E & Hin). simpl in E. subst r'.
  apply list_elem_of_In, list_elem_of_filter in Hin as [Hb Hz]. simpl in Hb. subst b.
  unfold isin in Hz. rewrite (map_map _ negb) in Hz. apply zip_map_elem in Hz.
  rewrite Hr in Hz. rewrite bool_decide_eq_true_2 in Hz by assumption.
  discriminate.
Qed.

Lemma elem_of_normalize_ids v s :
  v ∈ s -> VStr (Text.strip (py_str v)) ∈ normalize_ids s.
Proof.
  intros H. rewrite normalize_ids_texts. unfold id_texts. rewrite map_map.
  apply list_elem_of_In, in_map_iff. exists v. split; [reflexivity|].
  now apply list_elem_of_In.
Qed.

(** The identifier column of the comparison frame is the identifier column
    of the join, rearranged. *)
Lemma comparison_df_ids n data flags ids :
  well_shaped n (data, flags) ->
  dict_get data "id" = Ok ids ->
  exists s, get_column (sorted_comparison data flags) "id" = Ok s /\ s ≡ₚ ids.
Proof.
  intros [Hd Hf] Hid. simpl in Hd, Hf.
  apply (sort_values_column _ _ _ _ _ _ (sort_values_comparison data flags)).
  apply (get_column_of_dict n).
  - apply dict_set_shape; [assumption|]. now rewrite length_map.
  - rewrite dict_get_set_other; [assumption|]. intros E. discriminate E.
Qed.

(** C4, as the code has it. Two identifier values whose texts agree once
    trimmed -- in particular two texts that differ only by surrounding
    whitespace -- are one entity: when [compare_files] returns, their
    common normalized identifier is in the identifier column of the
    comparison frame and in neither unmatched set. *)
Theorem trimmed_ids_join l1 l2 m st r st' c1 c2 v1 v2 :
  wf_frame (heap st l1) -> wf_frame (heap st l2) ->
  compare_files l1 l2 m st = (Ok r, st') ->
  dict_get m "id" = Ok (c1, c2) ->
  v1 ∈ column (heap st l1) c1 -> v2 ∈ column (heap st l2) c2 ->
  Text.strip (py_str v1) = Text.strip (py_str v2) ->
  let k := VStr (Text.strip (py_str v1)) in
  (k ∈ column (comparison_df r) "id")
  /\ (k ∉ column (not_in_file1 r) c2)
  /\ (k ∉ column (not_in_file2 r) c1).
Proof.
  intros Hwf1 Hwf2 Hrun Hid Hv1 Hv2 Hsame k.
  destruct (compare_files_Ok_run _ _ _ _ _ _ Hrun)
    as (c1' & c2' & Hid' & H1 & H2 & Hrun').
  rewrite Hid in Hid'. injection Hid' as <- <-.
  destruct (run_of_Ok _ _ _ _ _ _ _ _ H1 H2 Hrun')
    as (data & flags & _ & Hsh & Hids & Hdf & Hn1 & Hn2 & _).
  set (h := normalized_heap (heap st) l1 c1 l2 c2) in *.
  assert (Hk1 : k ∈ column (h l1) c1).
  { subst h. rewrite (normalized_heap_ids1 _ _ _ _ _ H1 H2 Hwf1 Hwf2).
    now apply elem_of_normalize_ids. }
  assert (Hk2 : k ∈ column (h l2) c2).
  { subst h. rewrite (normalized_heap_ids2 _ _ _ _ _ H1 H2 Hwf1 Hwf2).
    subst k. rewrite Hsame. now apply elem_of_normalize_ids. }
  assert (E1 : c1 ∈ columns (h l1)).
  { subst h. now rewrite normalized_heap_columns. }
  assert (E2 : c2 ∈ columns (h l2)).
  { subst h. now rewrite normalized_heap_columns. }
  split; [|split].
  - destruct (comparison_df_ids _ _ _ _ Hsh Hids) as (s & Hs & Hperm).
    rewrite Hdf. unfold column. rewrite Hs. rewrite Hperm.
    apply joined_has_key; try assumption.
    subst h. now apply normalized_heap_wf1.
  - rewrite Hn1. now apply unmatched_lacks_key.
  - rewrite Hn2. now apply unmatched_lacks_key.
Qed.

Lemma trimmed_ids_join_witness :
  let k := VStr (Text.strip (py_str (VStr "1"))) in
  (k ∈ column (comparison_df demo_results) "id")
  /\ (k ∉ column (not_in_file1 demo_results) "id")
  /\ (k ∉ column (not_in_file2 demo_results) "id").
Proof.
  apply (trimmed_ids_join 0%nat 1%nat demo_mapping demo_state demo_results
           demo_final "id" "id" (VStr "1") (VStr "1 ")
           demo_wf1 demo_wf2 demo_run eq_refl).
  - vm_compute. left.
  - vm_compute. left.
  - reflexivity.
Defined.

(** C4, as claimed, fails for the numeric types: the int 1 and the float
    1.0 are equal numbers, yet as identifiers they become the texts "1" and
    "1.0"; the join is empty and each file's record lands in an unmatched
    set. *)
Lemma numeric_ids_do_not_join :
  py_eq (VInt 1) (VFloat f_1_0) = true
  /\ exists r,
       (compare_files 0%nat 1%nat [("id", ("id", "id"))] numeric_id_state).1
         = Ok r
       /\ rows (comparison_df r) = []
       /\ rows (not_in_file1 r) = [[VStr "1.0"]]
       /\ rows (not_in_file2 r) = [[VStr "1"]].
Proof.
  split; [reflexivity|].
  eexists. split; [vm_compute; reflexivity|].
  repeat split.
Qed.

(** ** A missing comparison column *)

Lemma compare_values_returns v1 v2 :
  floatable v1 = true -> floatable v2 = true ->
  exists b, compare_values v1 v2 = Ok b.
Proof.
  intros F1 F2. unfold compare_values.
  destruct (isna v1 && isna v2); [eauto|].
  destruct (isna v1 || isna v2); [eauto|].
  destruct (isinstance_float_int v1 && isinstance_float_int v2) eqn:E.
  - apply andb_prop in E as [E1 E2].
    destruct v1 as [|b1|z1|f1|s1|? ? ?|n1|c1], v2 as [|b2|z2|f2|s2|? ? ?|n2|c2];
      try discriminate; simpl in *;
      repeat match goal with
             | |- context [of_int ?z] => destruct (of_int z); try discriminate
             end; simpl; eauto.
  - destruct (isinstance_str v1 && isinstance_str v2); eauto.
Qed.

Lemma rmap_compare_returns (s1 s2 : Series) :
  Forall (fun v => floatable v = true) s1 ->
  Forall (fun v => floatable v = true) s2 ->
  exists ms, rmap (fun vs => compare_values vs.1 vs.2) (zip s1 s2) = Ok ms.
Proof.
  intros H1. revert s2. induction H1 as [|v1 s1 Hv1 H1 IH]; intros s2 H2.
  - simpl. eauto.
  - destruct H2 as [|v2 s2 Hv2 H2]; simpl; [eauto|].
    destruct (compare_values_returns v1 v2 Hv1 Hv2) as [b ->].
    destruct (IH s2 H2) as [ms ->]. simpl. eauto.
Qed.

Lemma floatable_column df c s :
  all_floatable df -> get_column df c = Ok s ->
  Forall (fun v => floatable v = true) s.
Proof.
  unfold get_column. destruct (get_loc c (columns df)) as [i|]; [|discriminate].
  intros Hall [= <-]. unfold all_floatable in Hall.
  induction Hall as [|r rs Hr Hrs IH]; simpl; constructor; [|exact IH].
  destruct (nth_in_or_default i r VNone) as [Hin| ->]; [|reflexivity].
  rewrite Forall_forall in Hr. apply Hr. now apply list_elem_of_In.
Qed.

Lemma floatable_normalize_ids s :
  Forall (fun v => floatable v = true) (normalize_ids s).
Proof.
  rewrite normalize_ids_texts. apply Forall_forall. intros v Hv.
  apply list_elem_of_In, in_map_iff in Hv as (t & <- & _). reflexivity.
Qed.

Lemma all_floatable_normalized df c :
  c ∈ columns df -> all_floatable df -> all_floatable (normalized_frame df c).
Proof.
  intros Hc Hall. destruct (get_loc_elem _ _ Hc) as [i Hi].
  rewrite (normalized_frame_eq df c i Hi). unfold all_floatable in *. cbn [rows].
  pose proof (floatable_normalize_ids (column df c)) as Hids.
  revert Hids. generalize (normalize_ids (column df c)) as vals.
  induction Hall as [|r rs Hr Hrs IH]; intros [|v vals] Hids; simpl;
    constructor.
  - inversion Hids; subst. now apply Forall_insert.
  - apply IH. now inversion Hids.
Qed.

Lemma all_floatable_normalized_heap h l1 c1 l2 c2 l :
  c1 ∈ columns (h l1) -> c2 ∈ columns (h l2) ->
  all_floatable (h l1) -> all_floatable (h l2) -> all_floatable (h l) ->
  all_floatable (normalized_heap h l1 c1 l2 c2 l).
Proof.
  intros H1 H2 F1 F2 F.
  destruct (decide (l = l2)) as [->|Hl2].
  - rewrite normalized_heap_l2.
    destruct (decide (l1 = l2)) as [->|Hne].
    + apply all_floatable_normalized;
        [now rewrite normalized_frame_columns|].
      now apply all_floatable_normalized.
    + now apply all_floatable_normalized.
  - destruct (decide (l = l1)) as [->|Hl1].
    + rewrite normalized_heap_l1, decide_False by congruence.
      now apply all_floatable_normalized.
    + now rewrite normalized_heap_else.
Qed.

Lemma all_floatable_joined e1 e2 ids1 ids2 :
  all_floatable e1 -> all_floatable e2 ->
  all_floatable (joined e1 e2 ids1 ids2).
Proof.
  intros F1 F2. unfold all_floatable, joined in *. cbn [rows].
  apply Forall_forall. intros r Hr.
  apply list_elem_of_In, in_flat_map in Hr as ([k1 r1] & Hin1 & Hr).
  apply in_map_iff in Hr as ([k2 r2] & <- & Hin2). simpl.
  apply list_elem_of_In, elem_of_zip_r in Hin1.
  apply list_elem_of_In, list_elem_of_filter in Hin2 as [_ Hin2].
  apply elem_of_zip_r in Hin2.
  rewrite Forall_forall in F1, F2. apply Forall_app. auto.
Qed.



Lemma tagged1_elem c cols1 cols2 :
  c +:+ "_file1" ∈ map (fun x => x +:+ "_file1") cols1
                   ++ map (fun x => x +:+ "_file2") cols2
  <-> c ∈ cols1.
Proof.
  rewrite elem_of_app, elem_of_map_tag. split; [|auto].
  intros [H|H]; [assumption|]. now apply tag1_not_in_tag2 in H.
Qed.

Lemma tagged2_elem c cols1 cols2 :
  c +:+ "_file2" ∈ map (fun x => x +:+ "_file1") cols1
                   ++ map (fun x => x +:+ "_file2") cols2
  <-> c ∈ cols2.
Proof.
  rewrite elem_of_app, elem_of_map_tag. split; [|auto].
  intros [H|H]; [|assumption]. now apply tag2_not_in_tag1 in H.
Qed.







(** ** Values of mixed and other types *)

(** Outside the numbers, texts and NumPy scalars apart, [==] holds between
    values of the same type and the same content only. *)
Lemma py_eq_strict v1 v2 :
  isna v1 = false -> isna v2 = false ->
  isinstance_float_int v1 && isinstance_float_int v2 = false ->
  is_numpy v1 = false -> is_numpy v2 = false ->
  py_eq v1 v2 = bool_decide (v1 = v2).
Proof.
  intros N1 N2 Hnum P1 P2.
  destruct v1 as [|b1|z1|f1|s1|y1 m1 d1|n1|c1],
           v2 as [|b2|z2|f2|s2|y2 m2 d2|n2|c2];
    try discriminate; simpl;
    try (rewrite bool_decide_eq_false_2 by discriminate); try reflexivity.
  - destruct (String.eqb_spec s1 s2) as [->|Hne].
    + now rewrite bool_decide_eq_true_2.
    + rewrite bool_decide_eq_false_2; [reflexivity|congruence].
  - destruct (Nat.eqb_spec y1 y2) as [->|Hy]; simpl;
      [|rewrite bool_decide_eq_false_2; [reflexivity|congruence]].
    destruct (Nat.eqb_spec m1 m2) as [->|Hm]; simpl;
      [|rewrite bool_decide_eq_false_2; [reflexivity|congruence]].
    destruct (Nat.eqb_spec d1 d2) as [->|Hd]; simpl;
      [|rewrite bool_decide_eq_false_2; [reflexivity|congruence]].
    now rewrite bool_decide_eq_true_2.
Qed.





(** * Further properties *)

(** ** The comparator as a relation *)

Ltac decide_eqb_case :=
  split;
  [ intros H; try discriminate H; split; reflexivity
  | intros [H1 H2]; try discriminate H1; try discriminate H2; try reflexivity ].

Lemma float_eqb_finite s m e t n f :
  Float64.eqb (S754_finite s m e) (S754_finite t n f) = true
  <-> s = t /\ m = n /\ e = f.
Proof.
  unfold Float64.eqb, SFeqb, SFcompare.
  destruct s, t; try (split; [discriminate|intros (? & _); discriminate]).
  - destruct (Z.compare_spec e f) as [->|?|?];
      try (split; [discriminate|intros (_ & _ & ?); lia]).
    rewrite Pos.compare_cont_spec. simpl.
    destruct (Pos.compare_spec m n) as [->|?|?]; simpl;
      try (split; [discriminate|intros (_ & ? & _); lia]).
    split; auto.
  - destruct (Z.compare_spec e f) as [->|?|?];
      try (split; [discriminate|intros (_ & _ & ?); lia]).
    rewrite Pos.compare_cont_spec. simpl.
    destruct (Pos.compare_spec m n) as [->|?|?]; simpl;
      try (split; [discriminate|intros (_ & ? & _); lia]).
    split; auto.
Qed.

Lemma float_eqb_true_iff (x y : float) :
  Float64.eqb x y = true <->
  is_nan x = false /\ unsigned_zero x = unsigned_zero y.
Proof.
  destruct x as [s|s| |s m e], y as [t|t| |t n f];
    try (rewrite float_eqb_finite; simpl; split;
         [intros (-> & -> & ->); auto | intros [_ [= -> -> ->]]; auto]);
    unfold Float64.eqb, SFeqb, SFcompare; simpl;
    try destruct s; try destruct t; decide_eqb_case.
Qed.

Lemma float_eqb_sym (x y : float) : Float64.eqb x y = Float64.eqb y x.
Proof.
  apply eq_true_iff_eq. rewrite !float_eqb_true_iff. split.
  - intros [Hn E]. split; [|auto].
    destruct x, y; simpl in *; try discriminate; reflexivity.
  - intros [Hn E]. split; [|auto].
    destruct x, y; simpl in *; try discriminate; reflexivity.
Qed.

Lemma float_eqb_trans (x y z : float) :
  Float64.eqb x y = true -> Float64.eqb y z = true -> Float64.eqb x z = true.
Proof.
  rewrite !float_eqb_true_iff. intros [Hx E1] [Hy E2]. split; congruence.
Qed.

Lemma py_eq_sym (v1 v2 : value) : py_eq v1 v2 = py_eq v2 v1.
Proof.
  destruct v1, v2; simpl; try reflexivity;
    try apply Z.eqb_sym; try apply float_eqb_sym; try apply String.eqb_sym;
    try (match goal with
         | |- Bool.eqb ?x ?y = _ => destruct x, y; reflexivity
         end).
  now rewrite (Nat.eqb_sym year), (Nat.eqb_sym month), (Nat.eqb_sym day).
Qed.

(** X1. The comparator is symmetric: swapping the two values changes
    neither the answer nor the exception. *)
Theorem compare_values_sym (v1 v2 : value) :
  compare_values v1 v2 = compare_values v2 v1.
Proof.
  unfold compare_values.
  rewrite (andb_comm (isna v2)), (orb_comm (isna v2)),
    (andb_comm (isinstance_float_int v2)), (andb_comm (isinstance_str v2)).
  destruct (isna v1 && isna v2); [reflexivity|].
  destruct (isna v1 || isna v2); [reflexivity|].
  destruct (isinstance_float_int v1 && isinstance_float_int v2) eqn:Hnum.
  - apply andb_prop in Hnum as [H1 H2].
    destruct v1 as [|b1|z1|f1|s1|? ? ?|n1|c1]; try discriminate;
      destruct v2 as [|b2|z2|f2|s2|? ? ?|n2|c2]; try discriminate; simpl;
      repeat match goal with
             | |- context [of_int ?z] => destruct (of_int z)
             end; simpl; try reflexivity; now rewrite float_eqb_sym.
  - destruct (isinstance_str v1 && isinstance_str v2).
    + now rewrite String.eqb_sym.
    + now rewrite py_eq_sym.
Qed.

Lemma compare_values_true_inv v1 v2 :
  is_numpy v1 = false -> is_numpy v2 = false ->
  compare_values v1 v2 = Ok true ->
  (isna v1 = true /\ isna v2 = true)
  \/ (isna v1 = false /\ isna v2 = false
      /\ isinstance_float_int v1 = true /\ isinstance_float_int v2 = true
      /\ exists f1 f2, py_float v1 = Ok f1 /\ py_float v2 = Ok f2
                       /\ Float64.eqb (round2 f1) (round2 f2) = true)
  \/ (exists s1 s2, v1 = VStr s1 /\ v2 = VStr s2
        /\ Text.lower (Text.strip s1) = Text.lower (Text.strip s2))
  \/ (isna v1 = false /\ isinstance_float_int v1 = false
      /\ isinstance_str v1 = false /\ v1 = v2).
Proof.
  intros P1 P2. unfold compare_values.
  destruct (isna v1) eqn:N1, (isna v2) eqn:N2; simpl; try discriminate; [auto|].
  destruct (isinstance_float_int v1) eqn:I1, (isinstance_float_int v2) eqn:I2;
    simpl.
  - destruct (py_float v1) as [f1|]; simpl; [|discriminate].
    destruct (py_float v2) as [f2|]; simpl; [|discriminate].
    intros [= H]. right. left. repeat split; auto. exists f1, f2. auto.
  - destruct v1, v2; try discriminate.
  - destruct v1, v2; try discriminate.
  - destruct (isinstance_str v1 && isinstance_str v2) eqn:S.
    + apply andb_prop in S as [S1 S2].
      destruct v1 as [| | | |s1| | |], v2 as [| | | |s2| | |];
        try discriminate.
      simpl. intros [= H]. apply String.eqb_eq in H.
      right. right. left. exists s1, s2. auto.
    + intros [= H]. rewrite py_eq_strict in H by (auto; now rewrite I1).
      apply bool_decide_eq_true in H. subst v2.
      destruct (isinstance_str v1) eqn:S1; [simpl in S; discriminate|].
      right. right. right. auto.
Qed.

(** X2. Among Python scalars -- the cells of [object] and [float64]
    columns -- matching is transitive: when [a] matches [b] and [b] matches
    [c], [a] matches [c]. Rounding, unlike a tolerance on the difference,
    keeps the comparison an equivalence there. *)
Theorem compare_values_trans (a b c : value) :
  is_numpy a = false -> is_numpy b = false -> is_numpy c = false ->
  compare_values a b = Ok true -> compare_values b c = Ok true ->
  compare_values a c = Ok true.
Proof.
  intros Pa Pb Pc Hab Hbc.
  destruct (compare_values_true_inv _ _ Pa Pb Hab)
    as [[Na Nb]|[(Na & Nb & Ia & Ib & fa & fb & Fa & Fb & E1)
       |[(s1 & s2 & -> & -> & E1)|(Na & Ia & Sa & <-)]]];
    [| | |exact Hbc];
    destruct (compare_values_true_inv _ _ Pb Pc Hbc)
      as [[Nb' Nc]|[(Nb' & Nc & Ib' & Ic & fb' & fc & Fb' & Fc & E2)
         |[(s2' & s3 & E & -> & E2)|(Nb' & Ib' & Sb' & <-)]]];
    try congruence; try (subst; discriminate); try exact Hab.
  - unfold compare_values. now rewrite Na, Nc.
  - unfold compare_values. rewrite Na, Nc, Ia, Ic. simpl.
    rewrite Fa, Fc. simpl. f_equal.
    rewrite Fb in Fb'. injection Fb' as <-. eapply float_eqb_trans; eauto.
  - injection E as <-. unfold compare_values. simpl.
    f_equal. apply String.eqb_eq. congruence.
Qed.

Lemma compare_values_trans_witness :
  compare_values (VInt 1) (VFloat f_1_004) = Ok true
  /\ compare_values (VFloat f_1_004) (VBool true) = Ok true
  /\ compare_values (VInt 1) (VBool true) = Ok true.
Proof.
  assert (H1 : compare_values (VInt 1) (VFloat f_1_004) = Ok true)
    by (vm_compute; reflexivity).
  assert (H2 : compare_values (VFloat f_1_004) (VBool true) = Ok true)
    by (vm_compute; reflexivity).
  exact (conj H1 (conj H2
           (compare_values_trans (VInt 1) (VFloat f_1_004) (VBool true)
              eq_refl eq_refl eq_refl H1 H2))).
Defined.

(** With the cells of an [int64] column the comparison is no longer
    transitive: the floats 1.004 and 1.0 match by rounding, 1.0 and the
    NumPy integer 1 match through [==], 1.004 and the NumPy integer 1 do
    not. *)
Lemma numpy_breaks_transitivity :
  compare_values (VFloat f_1_004) (VFloat f_1_0) = Ok true
  /\ compare_values (VFloat f_1_0) (VInt64 1) = Ok true
  /\ compare_values (VFloat f_1_004) (VInt64 1) = Ok false.
Proof. repeat split; vm_compute; reflexivity. Qed.

(** ** Texts up to case and surrounding whitespace *)

Lemma lstrip_all_space s : all_space s = true -> Text.lstrip s = "".
Proof.
  induction s as [|c s IH]; simpl; [reflexivity|].
  intros [Hc Hs]%andb_prop. rewrite Hc. auto.
Qed.

Lemma rstrip_all_space s : all_space s = true -> Text.rstrip s = "".
Proof.
  induction s as [|c s IH]; simpl; [reflexivity|].
  intros [Hc Hs]%andb_prop. now rewrite (IH Hs), Hc.
Qed.

Lemma lstrip_app s t :
  Text.lstrip (s +:+ t)
  = if all_space s then Text.lstrip t else Text.lstrip s +:+ t.
Proof.
  induction s as [|c s IH]; [reflexivity|].
  rewrite app_cons_str. simpl. destruct (Text.isspace c); simpl; auto.
Qed.

Lemma rstrip_app_space s t :
  all_space t = true -> Text.rstrip (s +:+ t) = Text.rstrip s.
Proof.
  intros Ht. induction s as [|c s IH].
  - rewrite app_nil_l_str. now apply rstrip_all_space.
  - rewrite app_cons_str. simpl. now rewrite IH.
Qed.

(** Whitespace around a text does not survive [strip]. *)
Lemma strip_surrounded pre s post :
  all_space pre = true -> all_space post = true ->
  Text.strip (pre +:+ s +:+ post) = Text.strip s.
Proof.
  intros Hpre Hpost. unfold Text.strip.
  rewrite lstrip_app, Hpre, lstrip_app.
  destruct (all_space s) eqn:Hs.
  - rewrite (lstrip_all_space post Hpost), (lstrip_all_space s Hs). reflexivity.
  - now apply rstrip_app_space.
Qed.

Lemma isspace_lower_char c : Text.isspace (Text.lower_char c) = Text.isspace c.
Proof. destruct c as [[] [] [] [] [] [] [] []]; reflexivity. Qed.

Lemma lower_char_idem c : Text.lower_char (Text.lower_char c) = Text.lower_char c.
Proof. destruct c as [[] [] [] [] [] [] [] []]; reflexivity. Qed.

Lemma lower_idem s : Text.lower (Text.lower s) = Text.lower s.
Proof.
  induction s as [|c s IH]; simpl; [reflexivity|].
  now rewrite lower_char_idem, IH.
Qed.

Lemma lstrip_lower s : Text.lstrip (Text.lower s) = Text.lower (Text.lstrip s).
Proof.
  induction s as [|c s IH]; simpl; [reflexivity|].
  rewrite isspace_lower_char. destruct (Text.isspace c); auto.
Qed.

Lemma rstrip_lower s : Text.rstrip (Text.lower s) = Text.lower (Text.rstrip s).
Proof.
  induction s as [|c s IH]; simpl; [reflexivity|].
  rewrite IH, isspace_lower_char.
  destruct (Text.rstrip s); simpl; [destruct (Text.isspace c)|]; reflexivity.
Qed.

Lemma strip_lower s : Text.strip (Text.lower s) = Text.lower (Text.strip s).
Proof. unfold Text.strip. now rewrite lstrip_lower, rstrip_lower. Qed.

(** X3. A text can be replaced by its lower-case form, and wrapped in any
    whitespace, without changing how it compares with any value. *)
Theorem compare_values_text_invariant (pre s post : string) (v : value) :
  all_space pre = true -> all_space post = true ->
  compare_values (VStr (pre +:+ Text.lower s +:+ post)) v
  = compare_values (VStr s) v.
Proof.
  intros Hpre Hpost. unfold compare_values. simpl.
  destruct (isna v); [reflexivity|].
  destruct v; simpl; try reflexivity.
  now rewrite strip_surrounded, strip_lower, lower_idem.
Qed.

Lemma compare_values_text_invariant_witness :
  compare_values (VStr ("  " +:+ Text.lower "Alice" +:+ " ")) (VStr "ALICE")
  = compare_values (VStr "Alice") (VStr "ALICE").
Proof.
  exact (compare_values_text_invariant "  " "Alice" " " (VStr "ALICE")
           eq_refl eq_refl).
Defined.

(** ** The one way the comparator fails *)

Lemma py_float_cases (v : value) :
  isinstance_float_int v = true ->
  (exists f, py_float v = Ok f /\ floatable v = true)
  \/ (py_float v = Raise (OverflowError "int too large to convert to float")
      /\ floatable v = false).
Proof.
  destruct v as [|b|z|f|s|? ? ?|n|c]; try discriminate; intros _;
    unfold py_float, floatable.
  - left. eauto.
  - destruct (of_int z); [left | right]; eauto.
  - left. eauto.
Qed.

(** X4. The comparator raises in one case only: both values are numbers,
    none is missing, and one of them is an [int] too large for a float; the
    exception is then the [OverflowError] of the conversion. *)
Theorem compare_values_raises (v1 v2 : value) (e : exn) :
  compare_values v1 v2 = Raise e <->
  e = OverflowError "int too large to convert to float"
  /\ isna v1 = false /\ isna v2 = false
  /\ isinstance_float_int v1 = true /\ isinstance_float_int v2 = true
  /\ (floatable v1 = false \/ floatable v2 = false).
Proof.
  unfold compare_values. split.
  - destruct (isna v1) eqn:N1, (isna v2) eqn:N2; simpl; try discriminate.
    destruct (isinstance_float_int v1) eqn:I1, (isinstance_float_int v2) eqn:I2;
      simpl;
      try (destruct (isinstance_str v1 && isinstance_str v2); discriminate).
    destruct (py_float_cases v1 I1) as [(f1 & -> & F1) | (-> & F1)];
      destruct (py_float_cases v2 I2) as [(f2 & -> & F2) | (-> & F2)];
      unfold rbind; try discriminate; intros [= <-]; repeat split; auto.
  - intros (-> & N1 & N2 & I1 & I2 & F). rewrite N1, N2, I1, I2.
    cbn [andb orb].
    destruct (py_float_cases v1 I1) as [(f1 & -> & F1) | (-> & F1)];
      destruct (py_float_cases v2 I2) as [(f2 & -> & F2) | (-> & F2)];
      unfold rbind; try reflexivity.
    destruct F; congruence.
Qed.

Lemma compare_values_raises_witness :
  OverflowError "int too large to convert to float"
  = OverflowError "int too large to convert to float"
  /\ isna (VInt (10 ^ 400)) = false /\ isna (VInt 1) = false
  /\ isinstance_float_int (VInt (10 ^ 400)) = true
  /\ isinstance_float_int (VInt 1) = true
  /\ (floatable (VInt (10 ^ 400)) = false \/ floatable (VInt 1) = false).
Proof.
  apply (proj1 (compare_values_raises (VInt (10 ^ 400)) (VInt 1) _)).
  vm_compute. reflexivity.
Defined.

(** ** When [compare_files] returns, and how it fails before the loop *)

Lemma dict_get_Raise {A} (d : dict A) k e :
  dict_get d k = Raise e -> e = KeyError k.
Proof.
  induction d as [|[k' a] d IH]; simpl; [now intros [= <-]|].
  destruct (String.eqb k k'); [discriminate|exact IH].
Qed.

(** X5. Without an ["id"] entry in the mapping, or without the first
    identifier column in the first data frame, [compare_files] raises the
    [KeyError] of the missing key and has touched neither a data frame nor
    the console. *)
Theorem compare_files_no_identifier l1 l2 m st k :
  (exists e, dict_get m "id" = Raise e /\ k = "id")
  \/ (exists c2, dict_get m "id" = Ok (k, c2) /\ k ∉ columns (heap st l1)) ->
  exists st',
    compare_files l1 l2 m st = (Raise (KeyError k), st')
    /\ heap st' = heap st /\ stdout st' = stdout st.
Proof.
  intros [(e & Hid & ->)|(c2 & Hid & H1)].
  - pose proof (dict_get_Raise _ _ _ Hid) as ->.
    unfold compare_files, mbind, M_bind, perf_counter, lift.
    simpl. rewrite Hid. eexists. repeat split.
  - unfold compare_files, mbind, M_bind, perf_counter, lift, getitem, deref,
      mbind, M_bind.
    simpl. rewrite Hid. simpl. rewrite (get_column_Raise _ _ H1).
    eexists. repeat split.
Qed.

Lemma compare_files_no_identifier_witness :
  exists st',
    compare_files 0%nat 1%nat [("comparison_0", ("name", "name"))] demo_state
      = (Raise (KeyError "id"), st')
    /\ heap st' = heap demo_state /\ stdout st' = stdout demo_state.
Proof.
  apply (compare_files_no_identifier 0%nat 1%nat
           [("comparison_0", ("name", "name"))] demo_state "id").
  left. eexists. split; reflexivity.
Defined.



(** A loop that ends normally met no missing column. *)
Lemma rfold_Ok_columns cr cols1 cols2 m acc acc' :
  columns cr = map (fun x => x +:+ "_file1") cols1
               ++ map (fun x => x +:+ "_file2") cols2 ->
  rfold (pair_step cr) m acc = Ok acc' ->
  forall name a b, (name, (a, b)) ∈ m -> name <> "id" ->
                   a ∈ cols1 /\ b ∈ cols2.
Proof.
  intros Hcols. revert acc.
  induction m as [|[n [x y]] m IH]; intros acc Hfold name a b Hin Hname.
  - inversion Hin.
  - simpl in Hfold. unfold pair_step at 1 in Hfold. simpl in Hfold.
    destruct (String.eqb_spec n "id") as [->|Hn].
    + simpl in Hfold. apply elem_of_cons in Hin as [E|Hin]; [congruence|].
      eapply IH; eauto.
    + destruct (compare_columns cr acc.1 acc.2 n x y) as [acc1|] eqn:E;
        simpl in Hfold; [|discriminate].
      apply elem_of_cons in Hin as [[= <- <- <-]|Hin]; [|eapply IH; eauto].
      unfold compare_columns in E. rewrite Hcols in E.
      rewrite (bool_decide_ext _ _ (tagged1_elem a cols1 cols2)) in E.
      rewrite (bool_decide_ext _ _ (tagged2_elem b cols1 cols2)) in E.
      destruct (bool_decide (a ∈ cols1)) eqn:Ea; simpl in E; [|discriminate].
      destruct (bool_decide (b ∈ cols2)) eqn:Eb; simpl in E; [|discriminate].
      split; [exact (bool_decide_eq_true_1 _ Ea) | exact (bool_decide_eq_true_1 _ Eb)].
Qed.

(** X7. No comparison pair is skipped silently: when [compare_files]
    returns, the mapping has its ["id"] entry, both identifier columns exist,
    and every column named by a comparison pair exists in its data frame. *)
Theorem compare_files_returns_only_if l1 l2 m st r st' :
  compare_files l1 l2 m st = (Ok r, st') ->
  exists c1 c2,
    dict_get m "id" = Ok (c1, c2)
    /\ c1 ∈ columns (heap st l1) /\ c2 ∈ columns (heap st l2)
    /\ forall name a b, (name, (a, b)) ∈ m -> name <> "id" ->
         a ∈ columns (heap st l1) /\ b ∈ columns (heap st l2).
Proof.
  intros Hrun.
  destruct (compare_files_Ok_run _ _ _ _ _ _ Hrun)
    as (c1 & c2 & Hid & H1 & H2 & Hrun').
  exists c1, c2. repeat split; try assumption;
    destruct (run_of_Ok _ _ _ _ _ _ _ _ H1 H2 Hrun') as (data & flags & Hfold & _);
    eapply (rfold_Ok_columns _ (columns (heap st l1)) (columns (heap st l2)))
      in Hfold; eauto; try apply Hfold;
    unfold joined; cbn [columns]; now rewrite !normalized_heap_columns.
Qed.

Lemma compare_files_returns_only_if_witness :
  exists c1 c2,
    dict_get demo_mapping "id" = Ok (c1, c2)
    /\ c1 ∈ columns (heap demo_state 0%nat)
    /\ c2 ∈ columns (heap demo_state 1%nat)
    /\ forall name a b, (name, (a, b)) ∈ demo_mapping -> name <> "id" ->
         a ∈ columns (heap demo_state 0%nat)
         /\ b ∈ columns (heap demo_state 1%nat).
Proof.
  exact (compare_files_returns_only_if 0%nat 1%nat demo_mapping demo_state
           demo_results demo_final demo_run).
Defined.

Lemma rfold_returns cr cols1 cols2 m acc :
  columns cr = map (fun x => x +:+ "_file1") cols1
               ++ map (fun x => x +:+ "_file2") cols2 ->
  all_floatable cr ->
  (forall name a b, (name, (a, b)) ∈ m -> name <> "id" ->
                    a ∈ cols1 /\ b ∈ cols2) ->
  exists acc', rfold (pair_step cr) m acc = Ok acc'.
Proof.
  intros Hcols Hfl. revert acc.
  induction m as [|[n [x y]] m IH]; intros acc Hall; simpl; [eauto|].
  assert (Hall' : forall name a b, (name, (a, b)) ∈ m -> name <> "id" ->
                                   a ∈ cols1 /\ b ∈ cols2).
  { intros name a b Hin. apply Hall. now right. }
  unfold pair_step at 1. simpl.
  destruct (String.eqb_spec n "id") as [->|Hn]; [simpl; now apply IH|].
  destruct (Hall n x y (list_elem_of_here _ _) Hn) as [Hx Hy].
  unfold compare_columns. rewrite Hcols.
  rewrite (bool_decide_ext _ _ (tagged1_elem x cols1 cols2)).
  rewrite (bool_decide_ext _ _ (tagged2_elem y cols1 cols2)).
  rewrite !bool_decide_eq_true_2 by assumption. simpl.
  unfold mbind, result_bind.
  assert (Hx' : x +:+ "_file1" ∈ columns cr) by (rewrite Hcols; now apply tagged1_elem).
  assert (Hy' : y +:+ "_file2" ∈ columns cr) by (rewrite Hcols; now apply tagged2_elem).
  rewrite (get_column_Ok _ _ Hx'), (get_column_Ok _ _ Hy'). simpl.
  destruct (rmap_compare_returns (column cr (x +:+ "_file1"))
              (column cr (y +:+ "_file2"))) as [ms ->].
  - eapply floatable_column; [exact Hfl|]. now apply get_column_Ok.
  - eapply floatable_column; [exact Hfl|]. now apply get_column_Ok.
  - simpl. now apply IH.
Qed.




(** ** What a returning run returns *)

Lemma run_of_Ok_full l1 l2 c1 c2 m st r st' :
  run_of l1 l2 c1 c2 m st = (Ok r, st') ->
  let h := normalized_heap (heap st) l1 c1 l2 c2 in
  let ids1 := column (h l1) c1 in
  let ids2 := column (h l2) c2 in
  let n1 := unmatched (h l2) ids2 ids1 in
  let n2 := unmatched (h l1) ids1 ids2 in
  let cr := joined (h l1) (h l2) ids1 ids2 in
  exists data flags t,
    rfold (pair_step cr) m
          ([("id", column cr (c1 +:+ "_file1"))],
           replicate (length (rows cr)) true) = Ok (data, flags)
    /\ r = {| comparison_df := sorted_comparison data flags;
              summary :=
                [ ("Total rows in File 1", len (rows (h l1)));
                  ("Total rows in File 2", len (rows (h l2)));
                  ("Records only in File 1", len (rows n2));
                  ("Records only in File 2", len (rows n1));
                  ("Common records", len (rows cr));
                  ("Matching records", VInt (bool_sum flags));
                  ("Mismatched records",
                     VInt (Z.of_nat (length flags) - bool_sum flags));
                  ("Time taken", VStr t) ];
              not_in_file1 := n1;
              not_in_file2 := n2 |}
    /\ st' = mk_state st h (difference_lines n1 n2) 2.
Proof.
  intros Hrun h ids1 ids2 n1 n2 cr. unfold run_of in Hrun.
  fold h ids1 ids2 n1 n2 cr in Hrun.
  destruct (rfold (pair_step cr) m _) as [[data flags]|e] eqn:E.
  2:{ destruct e; discriminate. }
  injection Hrun as <- <-. exists data, flags. eexists. repeat split.
Qed.

Lemma heap_of_Ok_run l1 l2 c1 c2 m st r st' :
  run_of l1 l2 c1 c2 m st = (Ok r, st') ->
  heap st' = normalized_heap (heap st) l1 c1 l2 c2.
Proof.
  intros H. rewrite <- (run_of_heap l1 l2 c1 c2 m st). now rewrite H.
Qed.

(** ** The unmatched sets *)

Lemma column_cells df c :
  c ∈ columns df -> column df c = map (cell df c) (rows df).
Proof.
  intros H. unfold column, get_column, cell.
  destruct (get_loc_elem _ _ H) as [i ->]. reflexivity.
Qed.

Lemma mask_filter {A B} (f : A -> B) (g : B -> bool) (l : list A) :
  map fst (filter (fun rb : A * bool => rb.2 = true)
                  (zip l (map g (map f l))))
  = filter (fun r => g (f r) = true) l.
Proof.
  induction l as [|a l IH]; [reflexivity|]. simpl.
  destruct (g (f a)) eqn:E.
  - rewrite filter_cons_True by reflexivity.
    rewrite (filter_cons_True (fun r => g (f r) = true)) by exact E.
    simpl. now rewrite IH.
  - rewrite filter_cons_False by discriminate.
    rewrite (filter_cons_False (fun r => g (f r) = true)) by congruence.
    exact IH.
Qed.

(** The rows kept by the mask are the rows whose key is absent from the
    other file. *)
Lemma unmatched_rows_eq e c others :
  c ∈ columns e ->
  unmatched e (column e c) others
  = {| columns := columns e;
       rows := filter (fun row => cell e c row ∉ others) (rows e) |}.
Proof.
  intros Hc. unfold unmatched, mask_rows. f_equal.
  rewrite (column_cells e c Hc). unfold isin. rewrite (map_map _ negb).
  rewrite (mask_filter (cell e c)
             (fun v => negb (bool_decide (v ∈ others)))).
  apply list_filter_iff. intros row.
  rewrite negb_true_iff, bool_decide_eq_false. reflexivity.
Qed.

(** X9. Each unmatched set is a selection of whole rows of its data frame,
    as the call leaves it, in the order of the file: the rows whose
    identifier does not occur in the identifier column of the other data
    frame; the header is the data frame's own. *)
Theorem unmatched_sets l1 l2 m st r st' c1 c2 :
  compare_files l1 l2 m st = (Ok r, st') ->
  dict_get m "id" = Ok (c1, c2) ->
  not_in_file2 r
  = {| columns := columns (heap st' l1);
       rows := filter (fun row => cell (heap st' l1) c1 row
                                  ∉ column (heap st' l2) c2)
                      (rows (heap st' l1)) |}
  /\ not_in_file1 r
     = {| columns := columns (heap st' l2);
          rows := filter (fun row => cell (heap st' l2) c2 row
                                     ∉ column (heap st' l1) c1)
                         (rows (heap st' l2)) |}.
Proof.
  intros Hrun Hid.
  destruct (compare_files_Ok_run _ _ _ _ _ _ Hrun)
    as (c1' & c2' & Hid' & H1 & H2 & Hrun').
  rewrite Hid in Hid'. injection Hid' as <- <-.
  rewrite (heap_of_Ok_run _ _ _ _ _ _ _ _ Hrun').
  destruct (run_of_Ok _ _ _ _ _ _ _ _ H1 H2 Hrun')
    as (data & flags & _ & _ & _ & _ & -> & -> & _).
  split; apply unmatched_rows_eq; now rewrite normalized_heap_columns.
Qed.

Lemma unmatched_sets_witness :
  not_in_file2 demo_results
  = {| columns := columns (heap demo_final 0%nat);
       rows := filter (fun row => cell (heap demo_final 0%nat) "id" row
                                  ∉ column (heap demo_final 1%nat) "id")
                      (rows (heap demo_final 0%nat)) |}
  /\ not_in_file1 demo_results
     = {| columns := columns (heap demo_final 1%nat);
          rows := filter (fun row => cell (heap demo_final 1%nat) "id" row
                                     ∉ column (heap demo_final 0%nat) "id")
                         (rows (heap demo_final 1%nat)) |}.
Proof.
  exact (unmatched_sets 0%nat 1%nat demo_mapping demo_state demo_results
           demo_final "id" "id" demo_run eq_refl).
Defined.

(** ** The identifiers of the three result frames *)

Lemma zip_column_elem {A B} (f : A -> B) (l : list A) k r :
  (k, r) ∈ zip (map f l) l -> k = f r /\ r ∈ l.
Proof.
  induction l as [|a l IH]; simpl.
  - intros H. inversion H.
  - intros [[= -> ->]|H]%elem_of_cons.
    + split; [reflexivity|left].
    + destruct (IH H). split; [assumption|now right].
Qed.

(** A key in the identifier column of the join is held by both sides. *)
Lemma joined_key_inv e1 e2 c1 c2 k :
  wf_frame e1 -> c1 ∈ columns e1 -> c2 ∈ columns e2 ->
  k ∈ column (joined e1 e2 (column e1 c1) (column e2 c2)) (c1 +:+ "_file1") ->
  k ∈ column e1 c1 /\ k ∈ column e2 c2.
Proof.
  intros Hwf H1 H2 Hk.
  destruct (get_loc_elem _ _ H1) as [i Hi].
  assert (Hi' : get_loc (c1 +:+ "_file1") (columns (joined e1 e2 (column e1 c1)
                  (column e2 c2))) = Some i).
  { unfold joined. cbn [columns]. apply get_loc_app_l.
    rewrite (get_loc_map (fun x => x +:+ "_file1")); [assumption|].
    apply app_tag_inj. }
  unfold column at 1 in Hk. unfold get_column in Hk. rewrite Hi' in Hk.
  unfold joined in Hk. cbn [rows] in Hk.
  apply list_elem_of_In, in_map_iff in Hk as (row & <- & Hrow).
  apply in_flat_map in Hrow as ([k1 r1] & Hin1 & Hrow).
  apply in_map_iff in Hrow as ([k2 r2] & <- & Hin2). simpl.
  apply list_elem_of_In in Hin1.
  apply list_elem_of_In, list_elem_of_filter in Hin2 as [E Hin2]. simpl in E.
  subst k2.
  rewrite (column_cells e1 c1 H1) in Hin1.
  pose proof Hin1 as Hin1'. apply zip_column_elem in Hin1' as [-> Hr1].
  assert (Hlen : (i < length r1)%nat).
  { unfold wf_frame in Hwf. rewrite Forall_forall in Hwf.
    rewrite (Hwf r1 Hr1). eapply get_loc_lt; eauto. }
  rewrite nth_app_wf by assumption.
  assert (Hcell : nth i r1 VNone = cell e1 c1 r1).
  { unfold cell. now rewrite Hi. }
  rewrite Hcell. split.
  - rewrite (column_cells e1 c1 H1).
    apply list_elem_of_In, in_map. now apply list_elem_of_In.
  - eapply elem_of_zip_l. exact Hin2.
Qed.

Lemma elem_of_unmatched_column e c others k :
  c ∈ columns e ->
  k ∈ column (unmatched e (column e c) others) c
  <-> k ∈ column e c /\ k ∉ others.
Proof.
  intros Hc. rewrite (unmatched_rows_eq e c others Hc).
  rewrite (column_cells e c Hc).
  unfold column, get_column, cell. cbn [columns rows].
  destruct (get_loc_elem _ _ Hc) as [i ->].
  rewrite !list_elem_of_In, !in_map_iff, <- (list_elem_of_In others k). split.
  - intros (row & <- & Hin).
    apply list_elem_of_In, list_elem_of_filter in Hin as [Hnot Hin].
    split; [|exact Hnot]. exists row. split; [reflexivity|].
    now apply list_elem_of_In.
  - intros [(row & <- & Hin) Hnot]. exists row. split; [reflexivity|].
    apply list_elem_of_In, list_elem_of_filter. split; [exact Hnot|].
    now apply list_elem_of_In.
Qed.

(** X10. The identifiers of the three result frames partition the
    identifiers of the two data frames (as the call leaves them): an
    identifier is in the comparison frame exactly when both data frames hold
    it, in "only in file 1" exactly when the first holds it and the second
    does not, and in "only in file 2" in the mirrored case. *)
Theorem result_identifiers l1 l2 m st r st' c1 c2 k :
  wf_frame (heap st l1) -> wf_frame (heap st l2) ->
  compare_files l1 l2 m st = (Ok r, st') ->
  dict_get m "id" = Ok (c1, c2) ->
  let ids1 := column (heap st' l1) c1 in
  let ids2 := column (heap st' l2) c2 in
  (k ∈ column (comparison_df r) "id" <-> k ∈ ids1 /\ k ∈ ids2)
  /\ (k ∈ column (not_in_file2 r) c1 <-> k ∈ ids1 /\ k ∉ ids2)
  /\ (k ∈ column (not_in_file1 r) c2 <-> k ∈ ids2 /\ k ∉ ids1).
Proof.
  intros Hwf1 Hwf2 Hrun Hid.
  destruct (compare_files_Ok_run _ _ _ _ _ _ Hrun)
    as (c1' & c2' & Hid' & H1 & H2 & Hrun').
  rewrite Hid in Hid'. injection Hid' as <- <-.
  rewrite (heap_of_Ok_run _ _ _ _ _ _ _ _ Hrun').
  destruct (run_of_Ok _ _ _ _ _ _ _ _ H1 H2 Hrun')
    as (data & flags & _ & Hsh & Hids & Hdf & -> & -> & _).
  set (h := normalized_heap (heap st) l1 c1 l2 c2) in *.
  assert (E1 : c1 ∈ columns (h l1)).
  { subst h. now rewrite normalized_heap_columns. }
  assert (E2 : c2 ∈ columns (h l2)).
  { subst h. now rewrite normalized_heap_columns. }
  assert (W1 : wf_frame (h l1)) by (subst h; now apply normalized_heap_wf1).
  intros ids1 ids2. split; [|split].
  - destruct (comparison_df_ids _ _ _ _ Hsh Hids) as (s & Hs & Hperm).
    rewrite Hdf. unfold column at 1. rewrite Hs, Hperm. split.
    + now apply joined_key_inv.
    + intros [K1 K2]. now apply joined_has_key.
  - now apply elem_of_unmatched_column.
  - now apply elem_of_unmatched_column.
Qed.

Lemma result_identifiers_witness :
  let ids1 := column (heap demo_final 0%nat) "id" in
  let ids2 := column (heap demo_final 1%nat) "id" in
  (VStr "1" ∈ column (comparison_df demo_results) "id"
     <-> VStr "1" ∈ ids1 /\ VStr "1" ∈ ids2)
  /\ (VStr "1" ∈ column (not_in_file2 demo_results) "id"
        <-> VStr "1" ∈ ids1 /\ VStr "1" ∉ ids2)
  /\ (VStr "1" ∈ column (not_in_file1 demo_results) "id"
        <-> VStr "1" ∈ ids2 /\ VStr "1" ∉ ids1).
Proof.
  exact (result_identifiers 0%nat 1%nat demo_mapping demo_state
           demo_results demo_final "id" "id" (VStr "1")
           demo_wf1 demo_wf2 demo_run eq_refl).
Defined.

(** ** The counts of the summary *)

(** X11. The number of common records counts pairs, not identifiers: it is
    the sum, over the identifier cells of the first data frame, of the number
    of cells of the second that hold the same identifier. It is both the
    "Common records" count and the number of rows of the comparison frame. *)
Theorem common_records_pairs l1 l2 m st r st' c1 c2 :
  compare_files l1 l2 m st = (Ok r, st') ->
  dict_get m "id" = Ok (c1, c2) ->
  let ids1 := column (heap st' l1) c1 in
  let ids2 := column (heap st' l2) c2 in
  let n := sum_list (map (fun k => occurrences k ids2) ids1) in
  dict_get (summary r) "Common records" = Ok (VInt (Z.of_nat n))
  /\ length (rows (comparison_df r)) = n.
Proof.
  intros Hrun Hid.
  destruct (compare_files_Ok_run _ _ _ _ _ _ Hrun)
    as (c1' & c2' & Hid' & H1 & H2 & Hrun').
  rewrite Hid in Hid'. injection Hid' as <- <-.
  rewrite (heap_of_Ok_run _ _ _ _ _ _ _ _ Hrun').
  destruct (run_of_Ok _ _ _ _ _ _ _ _ H1 H2 Hrun')
    as (data & flags & _ & Hsh & _ & Hdf & _ & _ & Hcommon & _).
  intros ids1 ids2 n.
  assert (Hn : length (rows (joined
                 (normalized_heap (heap st) l1 c1 l2 c2 l1)
                 (normalized_heap (heap st) l1 c1 l2 c2 l2) ids1 ids2)) = n).
  { apply joined_size; now rewrite normalized_heap_columns. }
  split.
  - rewrite Hcommon. unfold len. fold ids1 ids2. now rewrite Hn.
  - rewrite Hdf, (sorted_comparison_length _ _ _ Hsh). exact Hn.
Qed.

Lemma common_records_pairs_witness :
  let ids1 := column (heap demo_final 0%nat) "id" in
  let ids2 := column (heap demo_final 1%nat) "id" in
  let n := sum_list (map (fun k => occurrences k ids2) ids1) in
  dict_get (summary demo_results) "Common records" = Ok (VInt (Z.of_nat n))
  /\ length (rows (comparison_df demo_results)) = n.
Proof.
  exact (common_records_pairs 0%nat 1%nat demo_mapping demo_state
           demo_results demo_final "id" "id" demo_run eq_refl).
Defined.

Lemma bool_sum_occurrences (flags : list bool) :
  bool_sum flags = Z.of_nat (occurrences (VBool true) (map VBool flags)).
Proof.
  unfold bool_sum, occurrences. f_equal.
  induction flags as [|b flags IH]; [reflexivity|].
  cbn [map]. rewrite (filter_cons (fun b : bool => b = true)).
  rewrite (filter_cons (fun k' : value => k' = VBool true)).
  destruct b; repeat case_decide; try congruence; simpl; now rewrite IH.
Qed.

Lemma occurrences_Permutation k (s s' : Series) :
  s ≡ₚ s' -> occurrences k s = occurrences k s'.
Proof. intros H. unfold occurrences. now rewrite H. Qed.

Lemma occurrences_le k (s : Series) : (occurrences k s <= length s)%nat.
Proof. unfold occurrences. apply length_filter. Qed.

(** X12. The summary agrees with what is returned and printed. The totals
    are the row counts of the two data frames, the "only in" counts are the
    row counts of the two unmatched frames, "Common records" is the row count
    of the comparison frame, "Matching records" is the number of its rows
    flagged [True], and matching and mismatched records add up to the common
    records. The console receives the two "only in" counts and nothing
    else. *)
Theorem summary_counts l1 l2 m st r st' :
  compare_files l1 l2 m st = (Ok r, st') ->
  exists matching mismatched : nat,
    dict_get (summary r) "Total rows in File 1"
    = Ok (len (rows (heap st l1)))
    /\ dict_get (summary r) "Total rows in File 2"
       = Ok (len (rows (heap st l2)))
    /\ dict_get (summary r) "Records only in File 1"
       = Ok (len (rows (not_in_file2 r)))
    /\ dict_get (summary r) "Records only in File 2"
       = Ok (len (rows (not_in_file1 r)))
    /\ dict_get (summary r) "Common records"
       = Ok (len (rows (comparison_df r)))
    /\ dict_get (summary r) "Matching records"
       = Ok (VInt (Z.of_nat matching))
    /\ dict_get (summary r) "Mismatched records"
       = Ok (VInt (Z.of_nat mismatched))
    /\ (matching + mismatched)%nat = length (rows (comparison_df r))
    /\ matching
       = occurrences (VBool true)
           (column (comparison_df r) "all_columns_match")
    /\ stdout st'
       = stdout st
         ++ [ "Records in File 2 but not in File 1: "
                +:+ pretty (length (rows (not_in_file1 r)));
              "Records in File 1 but not in File 2: "
                +:+ pretty (length (rows (not_in_file2 r))) ].
Proof.
  intros Hrun.
  destruct (compare_files_Ok_run _ _ _ _ _ _ Hrun)
    as (c1 & c2 & Hid & H1 & H2 & Hrun').
  destruct (run_of_Ok_full _ _ _ _ _ _ _ _ Hrun')
    as (data' & flags' & t & Hfold & -> & ->).
  assert (Hsh' : well_shaped
                   (length (rows (joined
                      (normalized_heap (heap st) l1 c1 l2 c2 l1)
                      (normalized_heap (heap st) l1 c1 l2 c2 l2)
                      (column (normalized_heap (heap st) l1 c1 l2 c2 l1) c1)
                      (column (normalized_heap (heap st) l1 c1 l2 c2 l2) c2))))
                   (data', flags')).
  { eapply rfold_shape; [|exact Hfold].
    apply well_shaped_init. apply joined_id_length.
    now rewrite normalized_heap_columns. }
  destruct (sorted_comparison_flags _ _ _ Hsh') as (col & Hcol & Hperm & _).
  exists (occurrences (VBool true) (map VBool flags')),
         (length flags' - occurrences (VBool true) (map VBool flags'))%nat.
  cbn [summary comparison_df not_in_file1 not_in_file2 stdout mk_state].
  pose proof (occurrences_le (VBool true) (map VBool flags')) as Hle.
  rewrite length_map in Hle.
  repeat split.
  - unfold len.
    rewrite (normalized_heap_length (heap st) l1 l2 c1 c2 H1 H2 l1).
    reflexivity.
  - unfold len.
    rewrite (normalized_heap_length (heap st) l1 l2 c1 c2 H1 H2 l2).
    reflexivity.
  - unfold len. now rewrite (sorted_comparison_length _ _ _ Hsh').
  - simpl. now rewrite bool_sum_occurrences.
  - transitivity (Ok (A:=value)
                    (VInt (Z.of_nat (length flags') - bool_sum flags')));
      [reflexivity|].
    rewrite bool_sum_occurrences, Nat2Z.inj_sub by exact Hle. reflexivity.
  - rewrite (sorted_comparison_length _ _ _ Hsh').
    destruct Hsh' as [_ Hlen]. cbn [snd] in Hlen. rewrite <- Hlen. lia.
  - unfold column. rewrite Hcol. now apply occurrences_Permutation.
Qed.

Lemma summary_counts_witness :
  exists matching mismatched : nat,
    dict_get (summary demo_results) "Total rows in File 1"
    = Ok (len (rows (heap demo_state 0%nat)))
    /\ dict_get (summary demo_results) "Total rows in File 2"
       = Ok (len (rows (heap demo_state 1%nat)))
    /\ dict_get (summary demo_results) "Records only in File 1"
       = Ok (len (rows (not_in_file2 demo_results)))
    /\ dict_get (summary demo_results) "Records only in File 2"
       = Ok (len (rows (not_in_file1 demo_results)))
    /\ dict_get (summary demo_results) "Common records"
       = Ok (len (rows (comparison_df demo_results)))
    /\ dict_get (summary demo_results) "Matching records"
       = Ok (VInt (Z.of_nat matching))
    /\ dict_get (summary demo_results) "Mismatched records"
       = Ok (VInt (Z.of_nat mismatched))
    /\ (matching + mismatched)%nat
       = length (rows (comparison_df demo_results))
    /\ matching
       = occurrences (VBool true)
           (column (comparison_df demo_results) "all_columns_match")
    /\ stdout demo_final
       = stdout demo_state
         ++ [ "Records in File 2 but not in File 1: "
                +:+ pretty (length (rows (not_in_file1 demo_results)));
              "Records in File 1 but not in File 2: "
                +:+ pretty (length (rows (not_in_file2 demo_results))) ].
Proof.
  exact (summary_counts 0%nat 1%nat demo_mapping demo_state demo_results
           demo_final demo_run).
Defined.

(** *** No record is lost *)

Lemma unmatched_size e c others :
  c ∈ columns e ->
  length (rows (unmatched e (column e c) others))
  = length (filter (fun k : value => k ∉ others) (column e c)).
Proof.
  intros Hc. rewrite (unmatched_rows_eq e c others Hc). cbn [rows].
  rewrite (column_cells e c Hc).
  induction (rows e) as [|row l IH]; [reflexivity|].
  cbn [map]. rewrite (filter_cons (fun row => cell e c row ∉ others)).
  rewrite (filter_cons (fun k : value => k ∉ others)).
  destruct (decide (cell e c row ∉ others)); simpl; now rewrite IH.
Qed.

Lemma occurrences_cons k a (s : Series) :
  occurrences k (a :: s)
  = ((if decide (a = k) then 1 else 0) + occurrences k s)%nat.
Proof.
  unfold occurrences. rewrite (filter_cons (fun k' : value => k' = k)).
  destruct (decide (a = k)); reflexivity.
Qed.

Lemma occurrences_zero k (s : Series) : k ∉ s -> occurrences k s = 0%nat.
Proof.
  induction s as [|a s IH]; intros H; [reflexivity|].
  apply not_elem_of_cons in H as [Hne Hs].
  rewrite occurrences_cons, decide_False by congruence. now apply IH.
Qed.

Lemma occurrences_pos k (s : Series) : k ∈ s -> (1 <= occurrences k s)%nat.
Proof.
  induction s as [|a s IH]; intros H; [inversion H|].
  rewrite occurrences_cons. destruct (decide (a = k)); [lia|].
  simpl. apply IH. apply elem_of_cons in H as [->|H]; [congruence|assumption].
Qed.

Lemma occurrences_NoDup k (s : Series) :
  NoDup s -> (occurrences k s <= 1)%nat.
Proof.
  induction 1 as [|a s Ha Hs IH]; [unfold occurrences; simpl; lia|].
  rewrite occurrences_cons. destruct (decide (a = k)) as [->|]; [|exact IH].
  rewrite (occurrences_zero k s Ha). lia.
Qed.

Lemma length_filter_absent (a : value) (s1 s2 : Series) :
  length (filter (fun k : value => k ∉ s2) (a :: s1))
  = ((if decide (a ∈ s2) then 0 else 1)
     + length (filter (fun k : value => k ∉ s2) s1))%nat.
Proof.
  rewrite (filter_cons (fun k : value => k ∉ s2)).
  destruct (decide (a ∉ s2)) as [Ha|Ha]; destruct (decide (a ∈ s2));
    try tauto; reflexivity.
Qed.

Lemma rows_accounted (s1 s2 : Series) :
  (length s1
   <= length (filter (fun k : value => k ∉ s2) s1)
      + sum_list (map (fun k => occurrences k s2) s1))%nat
  /\ (NoDup s2 ->
      length s1
      = (length (filter (fun k : value => k ∉ s2) s1)
         + sum_list (map (fun k => occurrences k s2) s1))%nat).
Proof.
  induction s1 as [|a s1 [IH1 IH2]]; [split; reflexivity|].
  cbn [map length]. rewrite sum_list_step, length_filter_absent.
  destruct (decide (a ∈ s2)) as [Hin|Ha].
  - pose proof (occurrences_pos a s2 Hin). split; [lia|].
    intros Hnd. specialize (IH2 Hnd).
    pose proof (occurrences_NoDup a s2 Hnd). lia.
  - rewrite (occurrences_zero a s2 Ha). split; [lia|].
    intros Hnd. specialize (IH2 Hnd). lia.
Qed.

(** Counting the pairs of equal keys from either side gives the same
    number. *)
Lemma pairs_sym (s1 s2 : Series) :
  sum_list (map (fun k => occurrences k s2) s1)
  = sum_list (map (fun k => occurrences k s1) s2).
Proof.
  induction s1 as [|a s1 IH].
  - simpl. induction s2 as [|b s2 IH2]; [reflexivity|]. simpl. exact IH2.
  - cbn [map]. rewrite sum_list_step, IH. clear IH.
    induction s2 as [|b s2 IH2]; [reflexivity|].
    cbn [map]. rewrite !sum_list_step, <- IH2, !occurrences_cons.
    destruct (decide (b = a)) as [->|Hne].
    + rewrite decide_True by reflexivity. lia.
    + rewrite decide_False by congruence. lia.
Qed.

(** X13. No record is lost: every row of either data frame is in its
    "only in" frame or took part in the join, so the rows of a data frame
    never outnumber its unmatched rows plus the common records. *)
Theorem records_accounted l1 l2 m st r st' :
  compare_files l1 l2 m st = (Ok r, st') ->
  (length (rows (heap st l1))
   <= length (rows (not_in_file2 r)) + length (rows (comparison_df r)))%nat
  /\ (length (rows (heap st l2))
      <= length (rows (not_in_file1 r)) + length (rows (comparison_df r)))%nat.
Proof.
  intros Hrun.
  destruct (compare_files_Ok_run _ _ _ _ _ _ Hrun)
    as (c1 & c2 & Hid & H1 & H2 & Hrun').
  destruct (run_of_Ok _ _ _ _ _ _ _ _ H1 H2 Hrun')
    as (data & flags & _ & Hsh & _ & -> & -> & -> & _).
  rewrite (sorted_comparison_length _ _ _ Hsh).
  set (h := normalized_heap (heap st) l1 c1 l2 c2).
  assert (E1 : c1 ∈ columns (h l1)).
  { subst h. now rewrite normalized_heap_columns. }
  assert (E2 : c2 ∈ columns (h l2)).
  { subst h. now rewrite normalized_heap_columns. }
  rewrite (joined_size _ _ _ _ E1 E2), !unmatched_size by assumption.
  rewrite <- (normalized_heap_length (heap st) l1 l2 c1 c2 H1 H2 l1).
  rewrite <- (normalized_heap_length (heap st) l1 l2 c1 c2 H1 H2 l2).
  fold h. rewrite <- (length_column _ _ E1), <- (length_column _ _ E2).
  split.
  - apply rows_accounted.
  - rewrite pairs_sym. apply rows_accounted.
Qed.

Lemma records_accounted_witness :
  (length (rows (heap demo_state 0%nat))
   <= length (rows (not_in_file2 demo_results))
      + length (rows (comparison_df demo_results)))%nat
  /\ (length (rows (heap demo_state 1%nat))
      <= length (rows (not_in_file1 demo_results))
         + length (rows (comparison_df demo_results)))%nat.
Proof.
  exact (records_accounted 0%nat 1%nat demo_mapping demo_state demo_results
           demo_final demo_run).
Defined.

(** X14. When no identifier is repeated in the other data frame (as the call
    leaves it), the rows of a data frame are exactly its unmatched rows plus
    the common records. *)
Theorem records_partition l1 l2 m st r st' c1 c2 :
  compare_files l1 l2 m st = (Ok r, st') ->
  dict_get m "id" = Ok (c1, c2) ->
  (NoDup (column (heap st' l2) c2) ->
   length (rows (heap st l1))
   = (length (rows (not_in_file2 r)) + length (rows (comparison_df r)))%nat)
  /\ (NoDup (column (heap st' l1) c1) ->
      length (rows (heap st l2))
      = (length (rows (not_in_file1 r))
         + length (rows (comparison_df r)))%nat).
Proof.
  intros Hrun Hid.
  destruct (compare_files_Ok_run _ _ _ _ _ _ Hrun)
    as (c1' & c2' & Hid' & H1 & H2 & Hrun').
  rewrite Hid in Hid'. injection Hid' as <- <-.
  rewrite (heap_of_Ok_run _ _ _ _ _ _ _ _ Hrun').
  destruct (run_of_Ok _ _ _ _ _ _ _ _ H1 H2 Hrun')
    as (data & flags & _ & Hsh & _ & -> & -> & -> & _).
  rewrite (sorted_comparison_length _ _ _ Hsh).
  set (h := normalized_heap (heap st) l1 c1 l2 c2).
  assert (E1 : c1 ∈ columns (h l1)).
  { subst h. now rewrite normalized_heap_columns. }
  assert (E2 : c2 ∈ columns (h l2)).
  { subst h. now rewrite normalized_heap_columns. }
  rewrite (joined_size _ _ _ _ E1 E2), !unmatched_size by assumption.
  rewrite <- (normalized_heap_length (heap st) l1 l2 c1 c2 H1 H2 l1).
  rewrite <- (normalized_heap_length (heap st) l1 l2 c1 c2 H1 H2 l2).
  fold h. rewrite <- (length_column _ _ E1), <- (length_column _ _ E2).
  split; intros Hnd.
  - now apply rows_accounted.
  - rewrite pairs_sym. now apply rows_accounted.
Qed.

Lemma records_partition_witness :
  length (rows (heap demo_state 0%nat))
  = (length (rows (not_in_file2 demo_results))
     + length (rows (comparison_df demo_results)))%nat
  /\ length (rows (heap demo_state 1%nat))
     = (length (rows (not_in_file1 demo_results))
        + length (rows (comparison_df demo_results)))%nat.
Proof.
  destruct (records_partition 0%nat 1%nat demo_mapping demo_state
              demo_results demo_final "id" "id" demo_run eq_refl) as [A B].
  split; [apply A|apply B]; apply (bool_decide_unpack _); vm_compute; exact I.
Defined.

(** ** The records of the comparison frame *)

(** *** The keys the loop writes never collide *)

Lemma app_assoc_str (s t u : string) : (s +:+ t) +:+ u = s +:+ (t +:+ u).
Proof.
  induction s as [|a s IH]; [reflexivity|].
  rewrite !app_cons_str. now rewrite IH.
Qed.

Lemma app_snoc_inj (u v : string) (a b : ascii) :
  u +:+ String a "" = v +:+ String b "" -> u = v /\ a = b.
Proof.
  revert v. induction u as [|x u IH]; intros [|y v] H.
  - rewrite !app_nil_l_str in H. injection H as ->. auto.
  - exfalso. apply (f_equal String.length) in H.
    rewrite app_cons_str, app_nil_l_str in H. simpl in H.
    rewrite length_app_str in H. simpl in H. lia.
  - exfalso. apply (f_equal String.length) in H.
    rewrite app_cons_str, app_nil_l_str in H. simpl in H.
    rewrite length_app_str in H. simpl in H. lia.
  - rewrite !app_cons_str in H. injection H as -> H.
    destruct (IH v H) as [-> ->]. auto.
Qed.

(** Two texts that end with different characters differ. *)
Lemma last_char_differs (s1 s2 t1 t2 : string) (a b : ascii) :
  a <> b -> s1 +:+ (t1 +:+ String a "") <> s2 +:+ (t2 +:+ String b "").
Proof.
  intros Hab H. rewrite <- !app_assoc_str in H.
  apply app_snoc_inj in H as [_ E]. contradiction.
Qed.

Lemma file1_not_matches (n n' : string) : n +:+ "_file1" <> n' +:+ "_matches".
Proof. apply (last_char_differs n n' "_file" "_matche" "1" "s"). discriminate. Qed.

Lemma file2_not_matches (n n' : string) : n +:+ "_file2" <> n' +:+ "_matches".
Proof. apply (last_char_differs n n' "_file" "_matche" "2" "s"). discriminate. Qed.

(** A key tells the comparison name it was written for. *)
Lemma tagged_keys_inj (n n' x : string) :
  x ∈ tagged_keys n -> x ∈ tagged_keys n' -> n = n'.
Proof.
  unfold tagged_keys. rewrite !elem_of_cons, !elem_of_nil.
  intros [->|[->|[->|[]]]] [E|[E|[E|[]]]].
  - now apply app_tag_inj in E.
  - now apply tags_differ in E.
  - now apply file1_not_matches in E.
  - symmetry in E. now apply tags_differ in E.
  - now apply app_tag_inj in E.
  - now apply file2_not_matches in E.
  - symmetry in E. now apply file1_not_matches in E.
  - symmetry in E. now apply file2_not_matches in E.
  - now apply app_tag_inj in E.
Qed.

Lemma tagged_keys_NoDup (n : string) : NoDup (tagged_keys n).
Proof.
  unfold tagged_keys. repeat apply NoDup_cons_2; try apply NoDup_nil_2;
    rewrite ?elem_of_cons, ?elem_of_nil; intros H;
    repeat destruct H as [H|H]; try contradiction.
  - now apply tags_differ in H.
  - now apply file1_not_matches in H.
  - now apply file2_not_matches in H.
Qed.

Lemma tagged_keys_not_id (n : string) : "id" ∉ tagged_keys n.
Proof.
  unfold tagged_keys. rewrite !elem_of_cons, !elem_of_nil.
  intros [E|[E|[E|[]]]]; symmetry in E; revert E; apply tagged_not_id;
    simpl; lia.
Qed.

Lemma tagged_keys_not_all (n : string) : "all_columns_match" ∉ tagged_keys n.
Proof.
  unfold tagged_keys. rewrite !elem_of_cons, !elem_of_nil.
  intros [E|[E|[E|[]]]]; revert E.
  - apply (last_char_differs "" n "all_columns_matc" "_file" "h" "1").
    discriminate.
  - apply (last_char_differs "" n "all_columns_matc" "_file" "h" "2").
    discriminate.
  - apply (last_char_differs "" n "all_columns_matc" "_matche" "h" "s").
    discriminate.
Qed.

Lemma elem_of_flat_map {A B} (f : A -> list B) (l : list A) (y : B) :
  y ∈ flat_map f l <-> exists x, x ∈ l /\ y ∈ f x.
Proof.
  rewrite list_elem_of_In, in_flat_map. split.
  - intros (x & Hx & Hy). exists x. now rewrite !list_elem_of_In.
  - intros (x & Hx & Hy). exists x. now rewrite <- !list_elem_of_In.
Qed.

Lemma flat_map_tagged_NoDup (names : list string) :
  NoDup names -> NoDup (flat_map tagged_keys names).
Proof.
  induction 1 as [|n names Hn Hnd IH]; [apply NoDup_nil_2|].
  cbn [flat_map]. apply NoDup_app. split; [apply tagged_keys_NoDup|].
  split; [|exact IH].
  intros x Hx Hin. apply elem_of_flat_map in Hin as (n' & Hn' & Hx').
  rewrite (tagged_keys_inj n n' x Hx Hx') in Hn. contradiction.
Qed.

(** The header of a comparison frame never repeats a column. *)
Lemma all_keys_NoDup (names : list string) :
  NoDup names ->
  NoDup ("id" :: flat_map tagged_keys names ++ ["all_columns_match"]).
Proof.
  intros Hnd. apply NoDup_cons_2.
  - rewrite elem_of_app, elem_of_flat_map, list_elem_of_singleton.
    intros [(n & _ & Hn)|E]; [|discriminate].
    now apply tagged_keys_not_id in Hn.
  - apply NoDup_app. split; [now apply flat_map_tagged_NoDup|].
    split; [|apply NoDup_singleton].
    intros x Hx ->%list_elem_of_singleton.
    apply elem_of_flat_map in Hx as (n & _ & Hn).
    now apply tagged_keys_not_all in Hn.
Qed.

(** *** Writing fresh keys appends them *)

Lemma dict_set_fresh {A} (d : dict A) k a :
  k ∉ map fst d -> dict_set d k a = d ++ [(k, a)].
Proof.
  induction d as [|[k' a'] d IH]; intros H; simpl; [reflexivity|].
  cbn [map fst] in H. apply not_elem_of_cons in H as [Hne H].
  destruct (String.eqb_spec k k'); [contradiction|]. now rewrite IH.
Qed.

Lemma dict_update_fresh {A} (d e : dict A) :
  NoDup (map fst (d ++ e)) -> dict_update d e = d ++ e.
Proof.
  revert d. induction e as [|[k a] e IH]; intros d H.
  - unfold dict_update. simpl. now rewrite app_nil_r.
  - unfold dict_update. cbn [fold_left fst snd].
    fold (dict_update (dict_set d k a) e).
    assert (Hk : k ∉ map fst d).
    { rewrite map_app in H. apply NoDup_app in H as (_ & Hdis & _).
      intros Hin. apply (Hdis k Hin). cbn [map fst]. left. }
    rewrite (dict_set_fresh d k a Hk).
    rewrite IH; rewrite <- app_assoc; [reflexivity|exact H].
Qed.

(** *** One turn of the loop *)

Lemma rmap_compare_values {A} (f g : A -> value) (l : list A) ms :
  rmap (fun vs => compare_values vs.1 vs.2) (zip (map f l) (map g l)) = Ok ms ->
  ms = map (fun x => values_match (f x) (g x)) l.
Proof.
  revert ms. induction l as [|x l IH]; intros ms; simpl.
  - now intros [= <-].
  - unfold values_match at 1.
    destruct (compare_values (f x) (g x)) as [b|e]; simpl; [|discriminate].
    destruct (rmap _ _) as [ys|] eqn:E; simpl; [|discriminate].
    intros [= <-]. f_equal. now apply IH.
Qed.

Lemma compare_columns_spec cr data flags n a b acc' :
  compare_columns cr data flags n a b = Ok acc' ->
  acc' = (dict_update data
            (tabulate (rows cr) (column_functions cr [(n, (a, b))])),
          zip_with andb flags
            (map (all_match cr [(n, (a, b))]) (rows cr))).
Proof.
  unfold compare_columns.
  destruct (bool_decide (a +:+ "_file1" ∈ columns cr)) eqn:Ea; simpl;
    [|discriminate].
  destruct (bool_decide (b +:+ "_file2" ∈ columns cr)) eqn:Eb; simpl;
    [|discriminate].
  apply bool_decide_eq_true_1 in Ea. apply bool_decide_eq_true_1 in Eb.
  unfold mbind, result_bind.
  rewrite (get_column_Ok _ _ Ea), (get_column_Ok _ _ Eb). simpl.
  rewrite (column_cells _ _ Ea), (column_cells _ _ Eb).
  destruct (rmap _ _) as [ms|] eqn:Em; simpl; [|discriminate].
  apply rmap_compare_values in Em. subst ms. intros [= <-].
  rewrite map_map. f_equal. f_equal.
  apply map_ext. intros jr. unfold all_match. simpl.
  now rewrite andb_true_r.
Qed.

Lemma all_match_nil cr (l : list (list value)) :
  map (all_match cr []) l = replicate (length l) true.
Proof. induction l as [|x l IH]; [reflexivity|]. simpl. now rewrite IH. Qed.

Lemma all_match_snoc cr done item (l : list (list value)) :
  zip_with andb (map (all_match cr done) l) (map (all_match cr [item]) l)
  = map (all_match cr (done ++ [item])) l.
Proof.
  induction l as [|x l IH]; [reflexivity|]. simpl. rewrite IH. f_equal.
  unfold all_match. now rewrite forallb_app.
Qed.

Lemma column_functions_app cr items1 items2 :
  column_functions cr (items1 ++ items2)
  = column_functions cr items1 ++ column_functions cr items2.
Proof. unfold column_functions. apply flat_map_app. Qed.

Lemma tabulate_app {A} (l : list A) gs1 gs2 :
  tabulate l (gs1 ++ gs2) = tabulate l gs1 ++ tabulate l gs2.
Proof. unfold tabulate. apply map_app. Qed.

Lemma tabulate_keys {A} (l : list A) gs :
  map fst (tabulate l gs) = map fst gs.
Proof. unfold tabulate. rewrite map_map. reflexivity. Qed.

Lemma column_functions_keys cr items :
  map fst (column_functions cr items) = flat_map tagged_keys (map fst items).
Proof.
  induction items as [|item items IH]; [reflexivity|].
  unfold column_functions in *. cbn [flat_map map]. rewrite map_app, IH.
  reflexivity.
Qed.

Lemma compared_cons_id p (m : dict (string * string)) :
  compared (("id", p) :: m) = compared m.
Proof.
  unfold compared.
  rewrite (filter_cons_False
             (fun item : string * (string * string) => item.1 <> "id"));
    [reflexivity|].
  intros H. now apply H.
Qed.

Lemma compared_cons_other n p (m : dict (string * string)) :
  n <> "id" -> compared ((n, p) :: m) = (n, p) :: compared m.
Proof.
  intros Hn. unfold compared.
  now rewrite (filter_cons_True
                 (fun item : string * (string * string) => item.1 <> "id")).
Qed.

(** *** The whole loop *)

Lemma rfold_spec cr ids m : forall done acc',
  NoDup (map fst (done ++ compared m)) ->
  rfold (pair_step cr) m
        (("id", ids) :: tabulate (rows cr) (column_functions cr done),
         map (all_match cr done) (rows cr)) = Ok acc' ->
  acc' = (("id", ids)
            :: tabulate (rows cr) (column_functions cr (done ++ compared m)),
          map (all_match cr (done ++ compared m)) (rows cr)).
Proof.
  induction m as [|[n [a b]] m IH]; intros done acc' Hnd; simpl.
  - intros [= <-]. change (compared []) with ([] : dict (string * string)).
    rewrite app_nil_r. reflexivity.
  - unfold pair_step at 1. cbn [fst snd].
    destruct (String.eqb_spec n "id") as [->|Hn].
    + simpl. rewrite compared_cons_id in *. now apply IH.
    + rewrite (compared_cons_other n (a, b) m Hn) in *.
      destruct (compare_columns _ _ _ _ _ _) as [acc1|] eqn:E; simpl;
        [|discriminate].
      apply compare_columns_spec in E. subst acc1.
      assert (Hnd' : NoDup (map fst ((done ++ [(n, (a, b))]) ++ compared m))).
      { now rewrite <- app_assoc. }
      rewrite dict_update_fresh.
      * rewrite all_match_snoc.
        change (("id", ids) :: tabulate (rows cr) (column_functions cr done))
          with ([("id", ids)] ++ tabulate (rows cr) (column_functions cr done)).
        rewrite <- app_assoc, <- tabulate_app, <- column_functions_app.
        intros H. apply (IH _ _ Hnd') in H. rewrite <- app_assoc in H.
        exact H.
      * change (("id", ids) :: tabulate (rows cr) (column_functions cr done))
          with ([("id", ids)] ++ tabulate (rows cr) (column_functions cr done)).
        rewrite <- app_assoc, <- tabulate_app, <- column_functions_app.
        cbn [app map fst]. rewrite tabulate_keys, column_functions_keys.
        rewrite !map_app in Hnd'. apply NoDup_app in Hnd' as (Hnd1 & _ & _).
        rewrite <- map_app in Hnd1.
        pose proof (all_keys_NoDup _ Hnd1) as Hall.
        change ("id" :: flat_map tagged_keys (map fst (done ++ [(n, (a, b))]))
                ++ ["all_columns_match"])
          with (("id" :: flat_map tagged_keys
                           (map fst (done ++ [(n, (a, b))])))
                ++ ["all_columns_match"]) in Hall.
        now apply NoDup_app in Hall as (Hall & _ & _).
Qed.

(** *** From the dictionary to the sorted frame *)

Lemma rows_of_tabulate {A} (l : list A) (gs : list (string * (A -> value))) :
  gs <> [] ->
  rows (DataFrame_of_dict (tabulate l gs))
  = map (fun x => map (fun kg => kg.2 x) gs) l.
Proof.
  intros Hgs. unfold DataFrame_of_dict. cbn [rows].
  rewrite (max_lengths (length l)).
  - unfold tabulate. induction l as [|x l IH]; [reflexivity|].
    cbn [length seq map]. f_equal.
    + rewrite map_map. reflexivity.
    + rewrite <- seq_shift, map_map, <- IH. apply map_ext. intros i.
      rewrite !map_map. reflexivity.
  - destruct gs; [contradiction|discriminate].
  - unfold tabulate. apply Forall_forall. intros kv Hin.
    apply list_elem_of_In, in_map_iff in Hin as (kg & <- & _). simpl.
    apply length_map.
Qed.

Lemma sort_values_rows df by_ ascending srt :
  sort_values df by_ ascending = Ok srt ->
  columns srt = columns df /\ rows srt ≡ₚ rows df.
Proof.
  unfold sort_values. destruct (get_loc by_ (columns df)); [|discriminate].
  intros [= <-]. split; [reflexivity|]. apply merge_sort_Permutation.
Qed.

Lemma column_functions_record cr items jr :
  map (fun kg : string * (list value -> value) => kg.2 jr)
      (column_functions cr items)
  = flat_map (fun vs : value * value =>
                [vs.1; vs.2; VBool (values_match vs.1 vs.2)])
             (map (fun item => joined_cells cr item jr) items).
Proof.
  induction items as [|item items IH]; [reflexivity|].
  unfold column_functions in *. cbn [flat_map map]. rewrite map_app, IH.
  reflexivity.
Qed.

Lemma all_match_record cr items jr :
  all_match cr items jr
  = forallb (fun vs : value * value => values_match vs.1 vs.2)
            (map (fun item => joined_cells cr item jr) items).
Proof.
  unfold all_match. induction items as [|item items IH]; [reflexivity|].
  cbn [forallb map]. now rewrite IH.
Qed.

(** The comparison frame built from what the loop leaves: its header and,
    up to the order, its rows. *)
Lemma sorted_comparison_spec cr c items :
  NoDup (map fst items) ->
  let data := ("id", map (cell cr c) (rows cr))
              :: tabulate (rows cr) (column_functions cr items) in
  let flags := map (all_match cr items) (rows cr) in
  columns (sorted_comparison data flags)
  = "id" :: flat_map tagged_keys (map fst items) ++ ["all_columns_match"]
  /\ rows (sorted_comparison data flags)
     ≡ₚ map (fun jr => record_of (cell cr c jr)
                         (map (fun item => joined_cells cr item jr) items))
            (rows cr).
Proof.
  intros Hnd data flags.
  pose proof (all_keys_NoDup _ Hnd) as Hall.
  set (gs := ("id", cell cr c)
             :: column_functions cr items
             ++ [("all_columns_match",
                  fun jr => VBool (all_match cr items jr))]).
  assert (Hset : dict_set data "all_columns_match" (map VBool flags)
                 = tabulate (rows cr) gs).
  { rewrite dict_set_fresh.
    - subst data flags gs. unfold tabulate at 2. cbn [map fst snd].
      rewrite map_app. cbn [map fst snd]. rewrite map_map. reflexivity.
    - subst data. cbn [map fst]. rewrite tabulate_keys, column_functions_keys.
      apply NoDup_cons in Hall as [Hid Hall].
      apply NoDup_app in Hall as (_ & Hdis & _).
      intros [E|Hin]%elem_of_cons; [discriminate|].
      apply (Hdis _ Hin). now left. }
  pose proof (sort_values_comparison data flags) as Hsort.
  rewrite Hset in Hsort. apply sort_values_rows in Hsort as [Hcols Hrows].
  split.
  - rewrite Hcols. unfold DataFrame_of_dict. cbn [columns].
    rewrite tabulate_keys. subst gs. cbn [map fst].
    rewrite map_app, column_functions_keys. reflexivity.
  - rewrite Hrows, rows_of_tabulate by (subst gs; discriminate).
    match goal with |- ?l ≡ₚ ?r => assert (E : l = r); [|now rewrite E] end.
    apply map_ext. intros jr. subst gs.
    cbn [map snd]. unfold record_of. rewrite map_app. cbn [map snd].
    now rewrite column_functions_record, all_match_record.
Qed.

(** *** The rows of the join, as pairs of rows of the two data frames *)

Lemma filter_zip_key (f : list value -> value) (k : value)
    (l : list (list value)) :
  filter (fun kr : value * list value => kr.1 = k) (zip (map f l) l)
  = map (fun r => (f r, r)) (filter (fun r => f r = k) l).
Proof.
  induction l as [|r l IH]; [reflexivity|].
  cbn [map zip zip_with].
  rewrite (filter_cons (fun kr : value * list value => kr.1 = k)).
  rewrite (filter_cons (fun r : list value => f r = k)).
  destruct (decide ((f r, r).1 = k)) as [E1|E1];
    destruct (decide (f r = k)) as [E2|E2]; simpl in E1;
    try contradiction; cbn [map]; now rewrite IH.
Qed.

Lemma joined_rows_pairs (f1 f2 : list value -> value)
    (rows1 rows2 : list (list value)) :
  flat_map (fun kl : value * list value =>
              map (fun kr : value * list value => kl.2 ++ kr.2)
                  (filter (fun kr : value * list value => kr.1 = kl.1)
                          (zip (map f2 rows2) rows2)))
           (zip (map f1 rows1) rows1)
  = map (fun p : list value * list value => p.1 ++ p.2)
        (flat_map (fun r1 =>
                     map (fun r2 => (r1, r2))
                         (filter (fun r2 => f2 r2 = f1 r1) rows2))
                  rows1).
Proof.
  induction rows1 as [|r1 rows1 IH]; [reflexivity|].
  cbn [map zip zip_with flat_map]. rewrite map_app, IH. f_equal.
  cbn [fst snd]. rewrite filter_zip_key, !map_map. reflexivity.
Qed.

Lemma joined_rows e1 e2 c1 c2 :
  c1 ∈ columns e1 -> c2 ∈ columns e2 ->
  rows (joined e1 e2 (column e1 c1) (column e2 c2))
  = map (fun p : list value * list value => p.1 ++ p.2)
        (matching_rows e1 e2 c1 c2).
Proof.
  intros H1 H2. unfold joined, matching_rows. cbn [rows].
  rewrite (column_cells e1 c1 H1), (column_cells e2 c2 H2).
  apply joined_rows_pairs.
Qed.

Lemma elem_of_matching_rows e1 e2 c1 c2 (p : list value * list value) :
  p ∈ matching_rows e1 e2 c1 c2 ->
  p.1 ∈ rows e1 /\ p.2 ∈ rows e2 /\ cell e2 c2 p.2 = cell e1 c1 p.1.
Proof.
  unfold matching_rows. intros (r1 & Hr1 & Hp)%elem_of_flat_map.
  apply list_elem_of_In, in_map_iff in Hp as (r2 & <- & Hr2).
  apply list_elem_of_In, list_elem_of_filter in Hr2 as [E Hr2]. auto.
Qed.

Lemma joined_cell_left e1 e2 ids1 ids2 a (r1 r2 : list value) :
  a ∈ columns e1 -> length r1 = length (columns e1) ->
  cell (joined e1 e2 ids1 ids2) (a +:+ "_file1") (r1 ++ r2) = cell e1 a r1.
Proof.
  intros Ha Hlen. destruct (get_loc_elem _ _ Ha) as [i Hi].
  unfold cell, joined. cbn [columns].
  rewrite (get_loc_app_l _ _ _ i), Hi.
  - apply nth_app_wf. rewrite Hlen. eapply get_loc_lt; eauto.
  - rewrite (get_loc_map (fun x => x +:+ "_file1")); [assumption|].
    apply app_tag_inj.
Qed.

Lemma joined_cell_right e1 e2 ids1 ids2 b (r1 r2 : list value) :
  b ∈ columns e2 -> length r1 = length (columns e1) ->
  cell (joined e1 e2 ids1 ids2) (b +:+ "_file2") (r1 ++ r2) = cell e2 b r2.
Proof.
  intros Hb Hlen. destruct (get_loc_elem _ _ Hb) as [j Hj].
  unfold cell, joined. cbn [columns].
  rewrite get_loc_app_r by apply tag2_not_in_tag1.
  rewrite (get_loc_map (fun x => x +:+ "_file2")) by apply app_tag_inj.
  rewrite Hj. cbn [option_map]. rewrite length_map, <- Hlen.
  apply app_nth2_plus.
Qed.

Lemma compared_NoDup (m : dict (string * string)) :
  NoDup (map fst m) -> NoDup (map fst (compared m)).
Proof.
  induction m as [|[n p] m IH]; intros H; [apply NoDup_nil_2|].
  cbn [map fst] in H. apply NoDup_cons in H as [Hn H].
  destruct (decide (n = "id")) as [->|Hne].
  - rewrite compared_cons_id. now apply IH.
  - rewrite compared_cons_other by assumption. cbn [map fst].
    apply NoDup_cons_2; [|now apply IH].
    intros Hin. apply Hn. apply list_elem_of_In, in_map_iff in Hin
      as (item & <- & Hitem).
    apply list_elem_of_In, list_elem_of_filter in Hitem as [_ Hitem].
    apply list_elem_of_In, in_map. now apply list_elem_of_In.
Qed.

Lemma elem_of_compared (m : dict (string * string)) item :
  item ∈ compared m <-> item.1 <> "id" /\ item ∈ m.
Proof.
  unfold compared.
  exact (list_elem_of_filter
           (fun item : string * (string * string) => item.1 <> "id") m item).
Qed.

(** What the loop leaves when it ends normally. *)
Lemma rfold_Ok_spec cr c m data flags :
  c ∈ columns cr ->
  NoDup (map fst m) ->
  rfold (pair_step cr) m
        ([("id", column cr c)], replicate (length (rows cr)) true)
  = Ok (data, flags) ->
  data = ("id", map (cell cr c) (rows cr))
         :: tabulate (rows cr) (column_functions cr (compared m))
  /\ flags = map (all_match cr (compared m)) (rows cr).
Proof.
  intros Hc Hnd Hfold.
  rewrite <- (all_match_nil cr (rows cr)), (column_cells cr c Hc) in Hfold.
  apply (rfold_spec cr (map (cell cr c) (rows cr)) m [] (data, flags)) in Hfold.
  - now injection Hfold as -> ->.
  - now apply compared_NoDup.
Qed.

(** X15. The header of the comparison frame: ["id"], then for every entry
    of the mapping but ["id"], in the order of the mapping, its name tagged
    [_file1], [_file2] and [_matches], then ["all_columns_match"]. The
    mapping being a dictionary, no key occurs twice in it. *)
Theorem comparison_df_header l1 l2 m st r st' :
  compare_files l1 l2 m st = (Ok r, st') ->
  NoDup (map fst m) ->
  columns (comparison_df r) = comparison_header m.
Proof.
  intros Hrun Hnd.
  destruct (compare_files_Ok_run _ _ _ _ _ _ Hrun)
    as (c1 & c2 & Hid & H1 & H2 & Hrun').
  destruct (run_of_Ok_full _ _ _ _ _ _ _ _ Hrun')
    as (data & flags & t & Hfold & -> & _).
  cbn [comparison_df].
  apply rfold_Ok_spec in Hfold as [-> ->]; [|  |exact Hnd].
  - apply sorted_comparison_spec. now apply compared_NoDup.
  - unfold joined. cbn [columns]. apply tagged1_elem.
    now rewrite normalized_heap_columns.
Qed.

Lemma comparison_df_header_witness :
  columns (comparison_df demo_results) = comparison_header demo_mapping.
Proof.
  apply (comparison_df_header 0%nat 1%nat demo_mapping demo_state
           demo_results demo_final demo_run).
  apply (bool_decide_unpack _). vm_compute. exact I.
Defined.


Lemma values_match_Ok v1 v2 b :
  compare_values v1 v2 = Ok b -> values_match v1 v2 = b.
Proof. unfold values_match. now intros ->. Qed.

Lemma rmap_Ok_each {A B} (f : A -> result B) (l : list A) ys :
  rmap f l = Ok ys -> forall x, x ∈ l -> exists y, f x = Ok y.
Proof.
  revert ys. induction l as [|a l IH]; intros ys H x Hx; [inversion Hx|].
  simpl in H. destruct (f a) as [y|] eqn:Ea; simpl in H; [|discriminate].
  destruct (rmap f l) as [ys'|] eqn:El; simpl in H; [|discriminate].
  apply elem_of_cons in Hx as [->|Hx]; [eauto|]. eapply IH; eauto.
Qed.

(** A turn of the loop that ends normally compared every pair of cells
    without an exception. *)
Lemma compare_columns_Ok_cells cr data flags n a b acc' :
  compare_columns cr data flags n a b = Ok acc' ->
  forall jr, jr ∈ rows cr ->
    compare_values (joined_cells cr (n, (a, b)) jr).1
                   (joined_cells cr (n, (a, b)) jr).2
    = Ok (values_match (joined_cells cr (n, (a, b)) jr).1
                       (joined_cells cr (n, (a, b)) jr).2).
Proof.
  unfold compare_columns.
  destruct (bool_decide (a +:+ "_file1" ∈ columns cr)) eqn:Ea; simpl;
    [|discriminate].
  destruct (bool_decide (b +:+ "_file2" ∈ columns cr)) eqn:Eb; simpl;
    [|discriminate].
  apply bool_decide_eq_true_1 in Ea. apply bool_decide_eq_true_1 in Eb.
  unfold mbind, result_bind.
  rewrite (get_column_Ok _ _ Ea), (get_column_Ok _ _ Eb). simpl.
  rewrite (column_cells _ _ Ea), (column_cells _ _ Eb).
  destruct (rmap _ _) as [ms|] eqn:Em; simpl; [|discriminate].
  intros _ jr Hjr.
  destruct (rmap_Ok_each _ _ _ Em
              (cell cr (a +:+ "_file1") jr, cell cr (b +:+ "_file2") jr))
    as [y Hy].
  - clear Em. induction (rows cr) as [|x l IH]; [inversion Hjr|].
    cbn [map zip zip_with].
    apply elem_of_cons in Hjr as [->|Hjr]; [left|right; now apply IH].
  - cbn [fst snd] in Hy. unfold joined_cells. cbn [fst snd].
    now rewrite (values_match_Ok _ _ _ Hy).
Qed.

Lemma rfold_Ok_cells cr m acc acc' :
  rfold (pair_step cr) m acc = Ok acc' ->
  forall item jr, item ∈ compared m -> jr ∈ rows cr ->
    compare_values (joined_cells cr item jr).1 (joined_cells cr item jr).2
    = Ok (values_match (joined_cells cr item jr).1
                       (joined_cells cr item jr).2).
Proof.
  revert acc. induction m as [|[n [a b]] m IH]; intros acc Hfold item jr Hin Hjr.
  - inversion Hin.
  - simpl in Hfold. unfold pair_step at 1 in Hfold. cbn [fst snd] in Hfold.
    destruct (String.eqb_spec n "id") as [->|Hn].
    + rewrite compared_cons_id in Hin. simpl in Hfold. eapply IH; eauto.
    + rewrite compared_cons_other in Hin by assumption.
      destruct (compare_columns _ _ _ _ _ _) as [acc1|] eqn:E;
        simpl in Hfold; [|discriminate].
      apply elem_of_cons in Hin as [->|Hin]; [|eapply IH; eauto].
      eapply compare_columns_Ok_cells; eauto.
Qed.

(** X16. The records of the comparison frame. For well-formed data frames,
    the rows of the comparison frame are, up to their order, one record for
    every pair of a row of the first data frame and a row of the second with
    the same identifier (the data frames taken as the call leaves them). The
    record holds the identifier, then for every compared entry of the mapping
    the cell of the first row, the cell of the second row and the result of
    [compare_values] on the two -- which did return for every such pair of
    cells -- and last the conjunction of these results. *)
Theorem comparison_df_records l1 l2 m st r st' c1 c2 :
  wf_frame (heap st l1) -> wf_frame (heap st l2) ->
  compare_files l1 l2 m st = (Ok r, st') ->
  dict_get m "id" = Ok (c1, c2) ->
  NoDup (map fst m) ->
  let e1 := heap st' l1 in
  let e2 := heap st' l2 in
  rows (comparison_df r)
  ≡ₚ map (fun p : list value * list value =>
            comparison_record e1 e2 c1 m p.1 p.2)
         (matching_rows e1 e2 c1 c2)
  /\ forall p item,
       p ∈ matching_rows e1 e2 c1 c2 -> item ∈ compared m ->
       compare_values (pair_cells e1 e2 p.1 p.2 item).1
                      (pair_cells e1 e2 p.1 p.2 item).2
       = Ok (values_match (pair_cells e1 e2 p.1 p.2 item).1
                          (pair_cells e1 e2 p.1 p.2 item).2).
Proof.
  intros Hwf1 Hwf2 Hrun Hid Hnd e1 e2. subst e1 e2.
  destruct (compare_files_Ok_run _ _ _ _ _ _ Hrun)
    as (c1' & c2' & Hid' & H1 & H2 & Hrun').
  rewrite Hid in Hid'. injection Hid' as <- <-.
  rewrite (heap_of_Ok_run _ _ _ _ _ _ _ _ Hrun').
  destruct (run_of_Ok_full _ _ _ _ _ _ _ _ Hrun')
    as (data & flags & t & Hfold & -> & _).
  cbn [comparison_df].
  set (h := normalized_heap (heap st) l1 c1 l2 c2) in *.
  assert (E1 : c1 ∈ columns (h l1)).
  { subst h. now rewrite normalized_heap_columns. }
  assert (E2 : c2 ∈ columns (h l2)).
  { subst h. now rewrite normalized_heap_columns. }
  assert (W1 : wf_frame (h l1)) by (subst h; now apply normalized_heap_wf1).
  set (cr := joined (h l1) (h l2) (column (h l1) c1) (column (h l2) c2)) in *.
  assert (Hc : c1 +:+ "_file1" ∈ columns cr).
  { subst cr. unfold joined. cbn [columns]. now apply tagged1_elem. }
  assert (Hcols : forall item, item ∈ compared m ->
            item.2.1 ∈ columns (h l1) /\ item.2.2 ∈ columns (h l2)).
  { intros [n [a b]] [Hn Hin]%elem_of_compared.
    eapply (rfold_Ok_columns cr (columns (h l1)) (columns (h l2)));
      [reflexivity|exact Hfold|exact Hin|exact Hn]. }
  assert (Hcells : forall p item,
            p ∈ matching_rows (h l1) (h l2) c1 c2 -> item ∈ compared m ->
            joined_cells cr item (p.1 ++ p.2)
            = pair_cells (h l1) (h l2) p.1 p.2 item).
  { intros p item Hp Hitem.
    destruct (elem_of_matching_rows _ _ _ _ _ Hp) as (Hr1 & _ & _).
    destruct (Hcols item Hitem) as [Ha Hb].
    assert (Hlen : length p.1 = length (columns (h l1))).
    { unfold wf_frame in W1. rewrite Forall_forall in W1. now apply W1. }
    unfold joined_cells, pair_cells. subst cr.
    now rewrite joined_cell_left, joined_cell_right. }
  split.
  - pose proof Hfold as Hspec.
    apply rfold_Ok_spec in Hspec as [-> ->]; [|exact Hc|exact Hnd].
    destruct (sorted_comparison_spec cr (c1 +:+ "_file1") (compared m)
                (compared_NoDup m Hnd)) as [_ Hrows].
    rewrite Hrows. subst cr. rewrite (joined_rows _ _ _ _ E1 E2), map_map.
    match goal with |- ?l ≡ₚ ?r => assert (E : l = r); [|now rewrite E] end.
    apply map_ext_in. intros p Hp%list_elem_of_In.
    unfold comparison_record. f_equal.
    + destruct (elem_of_matching_rows _ _ _ _ _ Hp) as (Hr1 & _ & _).
      apply joined_cell_left; [assumption|].
      unfold wf_frame in W1. rewrite Forall_forall in W1. now apply W1.
    + apply map_ext_in. intros item Hitem%list_elem_of_In.
      now apply Hcells.
  - intros p item Hp Hitem. rewrite <- (Hcells p item Hp Hitem).
    eapply rfold_Ok_cells; [exact Hfold|exact Hitem|].
    subst cr. rewrite (joined_rows _ _ _ _ E1 E2).
    apply list_elem_of_In, in_map_iff. exists p. split; [reflexivity|].
    now apply list_elem_of_In.
Qed.

Lemma demo_mapping_NoDup : NoDup (map fst demo_mapping).
Proof. apply (bool_decide_unpack _). vm_compute. exact I. Qed.

Lemma comparison_df_records_witness :
  let e1 := heap demo_final 0%nat in
  let e2 := heap demo_final 1%nat in
  rows (comparison_df demo_results)
  ≡ₚ map (fun p : list value * list value =>
            comparison_record e1 e2 "id" demo_mapping p.1 p.2)
         (matching_rows e1 e2 "id" "id")
  /\ forall p item,
       p ∈ matching_rows e1 e2 "id" "id" -> item ∈ compared demo_mapping ->
       compare_values (pair_cells e1 e2 p.1 p.2 item).1
                      (pair_cells e1 e2 p.1 p.2 item).2
       = Ok (values_match (pair_cells e1 e2 p.1 p.2 item).1
                          (pair_cells e1 e2 p.1 p.2 item).2).
Proof.
  exact (comparison_df_records 0%nat 1%nat demo_mapping demo_state
           demo_results demo_final "id" "id" demo_wf1 demo_wf2 demo_run
           eq_refl demo_mapping_NoDup).
Defined.

(** ** Loading the files *)

Lemma astype_str_text (s : Series) : Forall is_text (astype_str s).
Proof.
  unfold astype_str. apply Forall_forall. intros v Hv.
  apply list_elem_of_In, in_map_iff in Hv as (x & <- & _).
  now exists (py_str x).
Qed.

Lemma all_text_astype (df : DataFrame) : all_text (astype_str_frame df).
Proof.
  unfold all_text, astype_str_frame. cbn [rows]. apply Forall_forall.
  intros r Hr. apply list_elem_of_In, in_map_iff in Hr as (x & <- & _).
  apply astype_str_text.
Qed.

Lemma wf_astype (df : DataFrame) :
  wf_frame df -> wf_frame (astype_str_frame df).
Proof.
  unfold wf_frame, astype_str_frame. cbn [rows columns]. intros H.
  rewrite Forall_forall in H. apply Forall_forall. intros r Hr.
  apply list_elem_of_In, in_map_iff in Hr as (x & <- & Hx).
  unfold astype_str. rewrite length_map. apply H. now apply list_elem_of_In.
Qed.

Section LoadingProperties.

Context {file : Type} (name : file -> string).
Context (read_csv read_excel : file -> Z -> result DataFrame).

Lemma load_dataframes_Ok_inv file1 file2 header1 header2 d1 d2 :
  load_dataframes file name read_csv read_excel file1 file2 header1 header2
  = Ok (d1, d2) ->
  exists raw1 raw2,
    reader_of name read_csv read_excel file1 header1 = Ok raw1
    /\ reader_of name read_csv read_excel file2 header2 = Ok raw2
    /\ d1 = astype_str_frame raw1 /\ d2 = astype_str_frame raw2.
Proof.
  unfold load_dataframes.
  fold (reader_of name read_csv read_excel file1 header1).
  fold (reader_of name read_csv read_excel file2 header2).
  destruct (reader_of name read_csv read_excel file1 header1) as [raw1|e1];
    [|discriminate].
  destruct (reader_of name read_csv read_excel file2 header2) as [raw2|e2];
    [|discriminate].
  simpl. intros [= <- <-]. exists raw1, raw2. auto.
Qed.

(** X17. What [load_dataframes] returns holds texts only: each data frame
    is what the reader chosen by the file name ([read_csv] for a name ending
    in [.csv], [read_excel] otherwise) produced, with the same header and as
    many rows of the same width, every cell replaced by its text. *)
Theorem load_dataframes_text file1 file2 header1 header2 d1 d2 :
  load_dataframes file name read_csv read_excel file1 file2 header1 header2
  = Ok (d1, d2) ->
  exists raw1 raw2,
    reader_of name read_csv read_excel file1 header1 = Ok raw1
    /\ reader_of name read_csv read_excel file2 header2 = Ok raw2
    /\ columns d1 = columns raw1 /\ columns d2 = columns raw2
    /\ map (map py_str) (rows raw1) = map (map text_of) (rows d1)
    /\ map (map py_str) (rows raw2) = map (map text_of) (rows d2)
    /\ all_text d1 /\ all_text d2
    /\ (wf_frame raw1 -> wf_frame d1) /\ (wf_frame raw2 -> wf_frame d2).
Proof.
  intros H. apply load_dataframes_Ok_inv in H
    as (raw1 & raw2 & R1 & R2 & -> & ->).
  exists raw1, raw2. repeat split; try assumption;
    try apply all_text_astype; try apply wf_astype;
    unfold astype_str_frame, astype_str; cbn [rows];
    rewrite map_map; apply map_ext; intros r; rewrite map_map;
    apply map_ext; intros v; reflexivity.
Qed.

(** X18. Every failure of [load_dataframes] is an [Exception] whose message
    is ["Error loading files: "] followed by the text of the exception of
    the reader that failed, whatever its class was; when the first file
    cannot be read, the exception reported is that of the first file. *)
Theorem load_dataframes_error file1 file2 header1 header2 e :
  load_dataframes file name read_csv read_excel file1 file2 header1 header2
  = Raise e ->
  exists e0,
    e = Exception ("Error loading files: " +:+ str_of_exn e0)
    /\ (reader_of name read_csv read_excel file1 header1 = Raise e0
        \/ (exists raw1,
              reader_of name read_csv read_excel file1 header1 = Ok raw1
              /\ reader_of name read_csv read_excel file2 header2
                 = Raise e0)).
Proof.
  unfold load_dataframes.
  fold (reader_of name read_csv read_excel file1 header1).
  fold (reader_of name read_csv read_excel file2 header2).
  destruct (reader_of name read_csv read_excel file1 header1) as [raw1|e1].
  - destruct (reader_of name read_csv read_excel file2 header2) as [raw2|e2];
      simpl; [discriminate|].
    intros [= <-]. exists e2. split; [reflexivity|]. right. eauto.
  - simpl. intros [= <-]. exists e1. split; [reflexivity|]. now left.
Qed.

End LoadingProperties.

Lemma load_dataframes_text_witness :
  exists raw1 raw2,
    reader_of demo_name demo_read_csv demo_read_excel "first.csv" 0 = Ok raw1
    /\ reader_of demo_name demo_read_csv demo_read_excel "second.xlsx" 0
       = Ok raw2
    /\ columns demo_loaded.1 = columns raw1
    /\ columns demo_loaded.2 = columns raw2
    /\ map (map py_str) (rows raw1) = map (map text_of) (rows demo_loaded.1)
    /\ map (map py_str) (rows raw2) = map (map text_of) (rows demo_loaded.2)
    /\ all_text demo_loaded.1 /\ all_text demo_loaded.2
    /\ (wf_frame raw1 -> wf_frame demo_loaded.1)
    /\ (wf_frame raw2 -> wf_frame demo_loaded.2).
Proof.
  apply (load_dataframes_text demo_name demo_read_csv demo_read_excel
           "first.csv" "second.xlsx" 0 0 demo_loaded.1 demo_loaded.2).
  vm_compute. reflexivity.
Defined.

Lemma load_dataframes_error_witness :
  exists e0,
    Exception "Error loading files: Excel file format cannot be determined"
    = Exception ("Error loading files: " +:+ str_of_exn e0)
    /\ (reader_of demo_name demo_read_csv demo_read_excel "first.csv" 0
        = Raise e0
        \/ (exists raw1,
              reader_of demo_name demo_read_csv demo_read_excel "first.csv" 0
              = Ok raw1
              /\ reader_of demo_name demo_read_csv demo_read_excel
                   "third.xlsx" 0 = Raise e0)).
Proof.
  apply (load_dataframes_error demo_name demo_read_csv demo_read_excel
           "first.csv" "third.xlsx" 0 0).
  vm_compute. reflexivity.
Defined.

(** ** The mapping built from the session *)

Lemma app_prefix_inj (p s t : string) : p +:+ s = p +:+ t -> s = t.
Proof.
  induction p as [|a p IH]; [trivial|].
  rewrite !app_cons_str. intros [= H]. now apply IH.
Qed.

Lemma comparison_names_NoDup (n : nat) : NoDup (comparison_names n).
Proof.
  unfold comparison_names. generalize 0%nat as start.
  induction n as [|n IH]; intros start; [apply NoDup_nil_2|].
  cbn [seq map]. apply NoDup_cons_2; [|apply IH].
  intros Hin. apply list_elem_of_In, in_map_iff in Hin as (i & E & Hi).
  apply app_prefix_inj, (inj pretty) in E. subst i.
  apply in_seq in Hi. lia.
Qed.

Lemma comparison_names_not_id (n : nat) : "id" ∉ comparison_names n.
Proof.
  unfold comparison_names. intros Hin.
  apply list_elem_of_In, in_map_iff in Hin as (i & E & _). discriminate.
Qed.

Lemma length_comparison_names (n : nat) : length (comparison_names n) = n.
Proof. unfold comparison_names. now rewrite length_map, length_seq. Qed.

Lemma enumerate_names {A} (l : list A) :
  map (fun ip : nat * A => ("comparison_" +:+ pretty ip.1, ip.2))
      (enumerate l)
  = zip (comparison_names (length l)) l.
Proof.
  unfold enumerate, comparison_names. generalize 0%nat as start.
  induction l as [|x l IH]; intros start; [reflexivity|].
  cbn [length seq map zip zip_with]. f_equal. apply IH.
Qed.

Lemma keys_of_zip {A} (names : list string) (l : list A) :
  length names = length l -> map fst (zip names l) = names.
Proof.
  revert l. induction names as [|n names IH]; intros [|x l] H;
    try discriminate; [reflexivity|].
  cbn [zip zip_with map fst]. f_equal. apply IH. now injection H.
Qed.

Lemma compared_all (m : dict (string * string)) :
  "id" ∉ map fst m -> compared m = m.
Proof.
  induction m as [|[n p] m IH]; intros H; [reflexivity|].
  cbn [map fst] in H. apply not_elem_of_cons in H as [Hn H].
  rewrite compared_cons_other by congruence. now rewrite IH.
Qed.

Lemma column_mapping_of_eq (ref_col1 ref_col2 : string)
    (column_pairs : list (string * string)) :
  column_mapping_of ref_col1 ref_col2 column_pairs
  = ("id", (ref_col1, ref_col2))
    :: zip (comparison_names (length column_pairs)) column_pairs.
Proof.
  assert (Hkeys : map fst (zip (comparison_names (length column_pairs))
                               column_pairs)
                  = comparison_names (length column_pairs)).
  { apply keys_of_zip. apply length_comparison_names. }
  unfold column_mapping_of, dict_of. rewrite enumerate_names.
  rewrite (dict_update_fresh []).
  - rewrite dict_update_fresh; [reflexivity|].
    cbn [app map fst]. rewrite Hkeys. apply NoDup_cons_2.
    + apply comparison_names_not_id.
    + apply comparison_names_NoDup.
  - cbn [app]. rewrite Hkeys. apply comparison_names_NoDup.
Qed.

Lemma column_mapping_of_compared (ref_col1 ref_col2 : string)
    (column_pairs : list (string * string)) :
  compared (column_mapping_of ref_col1 ref_col2 column_pairs)
  = zip (comparison_names (length column_pairs)) column_pairs.
Proof.
  rewrite column_mapping_of_eq, compared_cons_id. apply compared_all.
  rewrite keys_of_zip by apply length_comparison_names.
  apply comparison_names_not_id.
Qed.

Lemma column_mapping_of_NoDup (ref_col1 ref_col2 : string)
    (column_pairs : list (string * string)) :
  NoDup (map fst (column_mapping_of ref_col1 ref_col2 column_pairs)).
Proof.
  rewrite column_mapping_of_eq. cbn [map fst].
  rewrite keys_of_zip by apply length_comparison_names.
  apply NoDup_cons_2.
  - apply comparison_names_not_id.
  - apply comparison_names_NoDup.
Qed.

(** X19. The mapping the page builds: the ["id"] entry with the two
    reference columns comes first, then the pairs in the order chosen, the
    [i]-th under the key [comparison_i]. No key occurs twice, so the entries
    compared are exactly the pairs. *)
Theorem column_mapping_of_spec (ref_col1 ref_col2 : string)
    (column_pairs : list (string * string)) :
  let m := column_mapping_of ref_col1 ref_col2 column_pairs in
  let names := comparison_names (length column_pairs) in
  m = ("id", (ref_col1, ref_col2)) :: zip names column_pairs
  /\ NoDup (map fst m)
  /\ dict_get m "id" = Ok (ref_col1, ref_col2)
  /\ compared m = zip names column_pairs.
Proof.
  intros m names. subst m names.
  split; [apply column_mapping_of_eq|].
  split; [apply column_mapping_of_NoDup|].
  split; [|apply column_mapping_of_compared].
  now rewrite column_mapping_of_eq.
Qed.

(** ** The page: loading, then comparing *)

Lemma all_text_floatable df : all_text df -> all_floatable df.
Proof.
  unfold all_text, all_floatable. intros H. apply Forall_forall. intros r Hr.
  rewrite Forall_forall in H. specialize (H r Hr).
  apply Forall_forall. intros v Hv. rewrite Forall_forall in H.
  destruct (H v Hv) as [s ->]. reflexivity.
Qed.

Lemma normalize_ids_text s : Forall is_text (normalize_ids s).
Proof.
  rewrite normalize_ids_texts. apply Forall_forall. intros v Hv.
  apply list_elem_of_In, in_map_iff in Hv as (t & <- & _). now exists t.
Qed.

Lemma all_text_normalized df c :
  c ∈ columns df -> all_text df -> all_text (normalized_frame df c).
Proof.
  intros Hc Hall. destruct (get_loc_elem _ _ Hc) as [i Hi].
  rewrite (normalized_frame_eq df c i Hi). unfold all_text in *. cbn [rows].
  pose proof (normalize_ids_text (column df c)) as Hids.
  revert Hids. generalize (normalize_ids (column df c)) as vals.
  induction Hall as [|r rs Hr Hrs IH]; intros [|v vals] Hids; simpl;
    constructor.
  - inversion Hids; subst. now apply Forall_insert.
  - apply IH. now inversion Hids.
Qed.

Lemma all_text_normalized_heap h l1 c1 l2 c2 l :
  c1 ∈ columns (h l1) -> c2 ∈ columns (h l2) ->
  all_text (h l1) -> all_text (h l2) -> all_text (h l) ->
  all_text (normalized_heap h l1 c1 l2 c2 l).
Proof.
  intros H1 H2 F1 F2 F.
  destruct (decide (l = l2)) as [->|Hl2].
  - rewrite normalized_heap_l2.
    destruct (decide (l1 = l2)) as [->|Hne].
    + apply all_text_normalized; [now rewrite normalized_frame_columns|].
      now apply all_text_normalized.
    + now apply all_text_normalized.
  - destruct (decide (l = l1)) as [->|Hl1].
    + rewrite normalized_heap_l1, decide_False by congruence.
      now apply all_text_normalized.
    + now rewrite normalized_heap_else.
Qed.

(** A cell of a data frame of texts, under a column it has, is a text. *)
Lemma cell_text e a (row : list value) :
  all_text e -> wf_frame e -> a ∈ columns e -> row ∈ rows e ->
  is_text (cell e a row).
Proof.
  intros Hall Hwf Ha Hrow. destruct (get_loc_elem _ _ Ha) as [i Hi].
  unfold cell. rewrite Hi. unfold all_text, wf_frame in *.
  rewrite Forall_forall in Hall, Hwf.
  specialize (Hall row Hrow). specialize (Hwf row Hrow).
  rewrite Forall_forall in Hall. apply Hall, list_elem_of_In, nth_In.
  rewrite Hwf. eapply get_loc_lt; eauto.
Qed.

Lemma compare_values_text (s1 s2 : string) :
  compare_values (VStr s1) (VStr s2)
  = Ok (String.eqb (Text.lower (Text.strip s1)) (Text.lower (Text.strip s2))).
Proof. reflexivity. Qed.

Lemma with_frames_l1 st l1 d1 l2 d2 :
  l1 <> l2 -> heap (with_frames st l1 d1 l2 d2) l1 = d1.
Proof.
  intros Hne. unfold with_frames. cbn [heap].
  rewrite heap_update_other by assumption. apply heap_update_same.
Qed.

Lemma with_frames_l2 st l1 d1 l2 d2 :
  heap (with_frames st l1 d1 l2 d2) l2 = d2.
Proof. unfold with_frames. cbn [heap]. apply heap_update_same. Qed.

(** A call on present columns of data frames without oversized ints
    returns. *)
Lemma run_of_returns l1 l2 c1 c2 m st :
  c1 ∈ columns (heap st l1) -> c2 ∈ columns (heap st l2) ->
  (forall name a b, (name, (a, b)) ∈ m -> name <> "id" ->
     a ∈ columns (heap st l1) /\ b ∈ columns (heap st l2)) ->
  all_floatable (heap st l1) -> all_floatable (heap st l2) ->
  exists r st', run_of l1 l2 c1 c2 m st = (Ok r, st').
Proof.
  intros H1 H2 Hall F1 F2. unfold run_of.
  set (h := normalized_heap (heap st) l1 c1 l2 c2).
  set (cr := joined (h l1) (h l2) (column (h l1) c1) (column (h l2) c2)).
  destruct (rfold_returns cr (columns (heap st l1)) (columns (heap st l2)) m
              ([("id", column cr (c1 +:+ "_file1"))],
               replicate (length (rows cr)) true)) as [[data flags] ->].
  - subst cr h. unfold joined. cbn [columns].
    now rewrite !normalized_heap_columns.
  - subst cr h.
    apply all_floatable_joined; now apply all_floatable_normalized_heap.
  - exact Hall.
  - eauto.
Qed.

Lemma run_of_header l1 l2 c1 c2 m st r st' :
  c1 ∈ columns (heap st l1) -> c2 ∈ columns (heap st l2) ->
  run_of l1 l2 c1 c2 m st = (Ok r, st') ->
  NoDup (map fst m) ->
  columns (comparison_df r) = comparison_header m.
Proof.
  intros H1 H2 Hrun Hnd.
  destruct (run_of_Ok_full _ _ _ _ _ _ _ _ Hrun)
    as (data & flags & t & Hfold & -> & _).
  cbn [comparison_df].
  apply rfold_Ok_spec in Hfold as [-> ->]; [|  |exact Hnd].
  - apply sorted_comparison_spec. now apply compared_NoDup.
  - unfold joined. cbn [columns]. apply tagged1_elem.
    now rewrite normalized_heap_columns.
Qed.

Section PageProperties.

Context {file : Type} (name : file -> string).
Context (read_csv read_excel : file -> Z -> result DataFrame).

Lemma handle_comparison_results_loaded df1 df2 file1 file2 header1 header2
    ref_col1 ref_col2 column_pairs st d1 d2 :
  load_dataframes file name read_csv read_excel file1 file2 header1 header2
  = Ok (d1, d2) ->
  handle_comparison_results file name read_csv read_excel df1 df2
    file1 file2 header1 header2 ref_col1 ref_col2 column_pairs st
  = compare_files df1 df2 (column_mapping_of ref_col1 ref_col2 column_pairs)
      (with_frames st df1 d1 df2 d2).
Proof.
  intros Hload. unfold handle_comparison_results, mbind, M_bind, lift.
  rewrite Hload. reflexivity.
Qed.

Lemma column_pairs_exist (d1 d2 : DataFrame) ref_col1 ref_col2 column_pairs :
  Forall (fun pair : string * string =>
            pair.1 ∈ columns d1 /\ pair.2 ∈ columns d2) column_pairs ->
  forall n a b,
    (n, (a, b)) ∈ column_mapping_of ref_col1 ref_col2 column_pairs ->
    n <> "id" -> a ∈ columns d1 /\ b ∈ columns d2.
Proof.
  intros Hall n a b Hin Hn. rewrite column_mapping_of_eq in Hin.
  apply elem_of_cons in Hin as [[= -> _ _]|Hin]; [contradiction|].
  apply elem_of_zip_r in Hin. rewrite Forall_forall in Hall.
  exact (Hall (a, b) Hin).
Qed.

(** X20. The page's comparison cannot fail after a successful load: when
    the files were loaded and every chosen column is a column of its loaded
    data frame (the select boxes offer no other), loading and comparing
    returns a result. Its comparison frame has the columns ["id"], then
    [comparison_i_file1], [comparison_i_file2] and [comparison_i_matches]
    for each pair in turn, then ["all_columns_match"]. *)
Theorem handle_comparison_results_returns df1 df2 file1 file2 header1
    header2 ref_col1 ref_col2 column_pairs st d1 d2 :
  df1 <> df2 ->
  load_dataframes file name read_csv read_excel file1 file2 header1 header2
  = Ok (d1, d2) ->
  ref_col1 ∈ columns d1 -> ref_col2 ∈ columns d2 ->
  Forall (fun pair : string * string =>
            pair.1 ∈ columns d1 /\ pair.2 ∈ columns d2) column_pairs ->
  exists r st',
    handle_comparison_results file name read_csv read_excel df1 df2
      file1 file2 header1 header2 ref_col1 ref_col2 column_pairs st
    = (Ok r, st')
    /\ columns (comparison_df r)
       = "id" :: flat_map tagged_keys
                   (comparison_names (length column_pairs))
         ++ ["all_columns_match"].
Proof.
  intros Hne Hload H1 H2 Hpairs.
  rewrite (handle_comparison_results_loaded _ _ _ _ _ _ _ _ _ _ _ _ Hload).
  set (st2 := with_frames st df1 d1 df2 d2).
  set (m := column_mapping_of ref_col1 ref_col2 column_pairs).
  assert (E1 : heap st2 df1 = d1) by now apply with_frames_l1.
  assert (E2 : heap st2 df2 = d2) by apply with_frames_l2.
  assert (Hid : dict_get m "id" = Ok (ref_col1, ref_col2)).
  { subst m. now rewrite column_mapping_of_eq. }
  destruct (load_dataframes_Ok_inv _ _ _ _ _ _ _ _ _ Hload)
    as (raw1 & raw2 & _ & _ & -> & ->).
  rewrite (compare_files_run df1 df2 m st2 ref_col1 ref_col2 Hid)
    by (now rewrite ?E1, ?E2).
  destruct (run_of_returns df1 df2 ref_col1 ref_col2 m st2)
    as (r & st' & Hrun).
  - now rewrite E1.
  - now rewrite E2.
  - rewrite E1, E2. now apply column_pairs_exist.
  - rewrite E1. apply all_text_floatable, all_text_astype.
  - rewrite E2. apply all_text_floatable, all_text_astype.
  - exists r, st'. split; [exact Hrun|].
    assert (C1 : ref_col1 ∈ columns (heap st2 df1)) by now rewrite E1.
    assert (C2 : ref_col2 ∈ columns (heap st2 df2)) by now rewrite E2.
    rewrite (run_of_header _ _ _ _ _ _ _ _ C1 C2 Hrun
               (column_mapping_of_NoDup _ _ _)).
    unfold comparison_header. subst m.
    rewrite column_mapping_of_compared, keys_of_zip
      by apply length_comparison_names.
    reflexivity.
Qed.

(** X21. On the page, cells are compared as texts only. After a load,
    whenever the comparison returns, the two cells compared for a pair of
    rows with one identifier and a pair of columns are two texts, and their
    flag is the equality of the two once stripped and put in lower case:
    numbers are not rounded, and a missing cell is the text it was given by
    the load. *)
Theorem loaded_cells_compared_as_text df1 df2 file1 file2 header1 header2
    ref_col1 ref_col2 column_pairs st d1 d2 r st' :
  df1 <> df2 ->
  load_dataframes file name read_csv read_excel file1 file2 header1 header2
  = Ok (d1, d2) ->
  wf_frame d1 -> wf_frame d2 ->
  handle_comparison_results file name read_csv read_excel df1 df2
    file1 file2 header1 header2 ref_col1 ref_col2 column_pairs st
  = (Ok r, st') ->
  forall p item,
    p ∈ matching_rows (heap st' df1) (heap st' df2) ref_col1 ref_col2 ->
    item ∈ compared (column_mapping_of ref_col1 ref_col2 column_pairs) ->
    exists s1 s2,
      pair_cells (heap st' df1) (heap st' df2) p.1 p.2 item
      = (VStr s1, VStr s2)
      /\ compare_values (VStr s1) (VStr s2)
         = Ok (String.eqb (Text.lower (Text.strip s1))
                          (Text.lower (Text.strip s2))).
Proof.
  intros Hne Hload Hwf1 Hwf2 Hrun p item Hp Hitem.
  rewrite (handle_comparison_results_loaded _ _ _ _ _ _ _ _ _ _ _ _ Hload)
    in Hrun.
  set (st2 := with_frames st df1 d1 df2 d2) in *.
  set (m := column_mapping_of ref_col1 ref_col2 column_pairs) in *.
  assert (E1 : heap st2 df1 = d1) by now apply with_frames_l1.
  assert (E2 : heap st2 df2 = d2) by apply with_frames_l2.
  assert (Hid : dict_get m "id" = Ok (ref_col1, ref_col2)).
  { subst m. now rewrite column_mapping_of_eq. }
  destruct (compare_files_Ok_run _ _ _ _ _ _ Hrun)
    as (c1 & c2 & Hid' & H1 & H2 & Hrun').
  rewrite Hid in Hid'. injection Hid' as <- <-.
  rewrite (heap_of_Ok_run _ _ _ _ _ _ _ _ Hrun') in *.
  destruct (run_of_Ok_full _ _ _ _ _ _ _ _ Hrun')
    as (data & flags & t & Hfold & _ & _).
  destruct (load_dataframes_Ok_inv _ _ _ _ _ _ _ _ _ Hload)
    as (raw1 & raw2 & _ & _ & Hd1 & Hd2).
  assert (T1 : all_text (heap st2 df1)).
  { rewrite E1, Hd1. apply all_text_astype. }
  assert (T2 : all_text (heap st2 df2)).
  { rewrite E2, Hd2. apply all_text_astype. }
  assert (W1 : wf_frame (heap st2 df1)) by now rewrite E1.
  assert (W2 : wf_frame (heap st2 df2)) by now rewrite E2.
  set (h := normalized_heap (heap st2) df1 ref_col1 df2 ref_col2) in *.
  assert (Hcols : item.2.1 ∈ columns (h df1) /\ item.2.2 ∈ columns (h df2)).
  { destruct item as [n [a b]].
    apply elem_of_compared in Hitem as [Hn Hin].
    eapply (rfold_Ok_columns
              (joined (h df1) (h df2) (column (h df1) ref_col1)
                      (column (h df2) ref_col2))
              (columns (h df1)) (columns (h df2)));
      [reflexivity|exact Hfold|exact Hin|exact Hn]. }
  destruct Hcols as [Ha Hb].
  destruct (elem_of_matching_rows _ _ _ _ _ Hp) as (Hr1 & Hr2 & _).
  assert (X1 : is_text (cell (h df1) item.2.1 p.1)).
  { apply cell_text; try assumption.
    - subst h. now apply all_text_normalized_heap.
    - subst h. now apply normalized_heap_wf1. }
  assert (X2 : is_text (cell (h df2) item.2.2 p.2)).
  { apply cell_text; try assumption.
    - subst h. now apply all_text_normalized_heap.
    - subst h. now apply normalized_heap_wf2. }
  destruct X1 as [s1 X1]. destruct X2 as [s2 X2].
  exists s1, s2. split; [|apply compare_values_text].
  unfold pair_cells. now rewrite X1, X2.
Qed.

End PageProperties.

Lemma demo_pairs_exist :
  Forall (fun pair : string * string =>
            pair.1 ∈ columns demo_loaded.1 /\ pair.2 ∈ columns demo_loaded.2)
         demo_pairs.
Proof.
  repeat constructor; apply (bool_decide_unpack _); vm_compute; exact I.
Qed.

Lemma demo_load :
  load_dataframes string demo_name demo_read_csv demo_read_excel
    "first.csv" "second.xlsx" 0 0
  = Ok (demo_loaded.1, demo_loaded.2).
Proof. vm_compute. reflexivity. Qed.

Lemma handle_comparison_results_returns_witness :
  exists r st',
    handle_comparison_results string demo_name demo_read_csv demo_read_excel
      0%nat 1%nat "first.csv" "second.xlsx" 0 0 "id" "id" demo_pairs
      demo_state
    = (Ok r, st')
    /\ columns (comparison_df r)
       = "id" :: flat_map tagged_keys (comparison_names (length demo_pairs))
         ++ ["all_columns_match"].
Proof.
  apply (handle_comparison_results_returns demo_name demo_read_csv
           demo_read_excel 0%nat 1%nat "first.csv" "second.xlsx" 0 0
           "id" "id" demo_pairs demo_state demo_loaded.1 demo_loaded.2).
  - discriminate.
  - exact demo_load.
  - apply (bool_decide_unpack _). vm_compute. exact I.
  - apply (bool_decide_unpack _). vm_compute. exact I.
  - exact demo_pairs_exist.
Defined.

Lemma demo_session_run :
  demo_session demo_state = (Ok demo_session_results, demo_session_final).
Proof. vm_compute. reflexivity. Qed.

Lemma demo_loaded_wf1 : wf_frame demo_loaded.1.
Proof. repeat constructor. Qed.

Lemma demo_loaded_wf2 : wf_frame demo_loaded.2.
Proof. repeat constructor. Qed.

Lemma loaded_cells_compared_as_text_witness :
  exists s1 s2,
    pair_cells (heap demo_session_final 0%nat) (heap demo_session_final 1%nat)
               demo_matching_pair.1 demo_matching_pair.2
               ("comparison_0", ("name", "name"))
    = (VStr s1, VStr s2)
    /\ compare_values (VStr s1) (VStr s2)
       = Ok (String.eqb (Text.lower (Text.strip s1))
                        (Text.lower (Text.strip s2))).
Proof.
  apply (loaded_cells_compared_as_text demo_name demo_read_csv
           demo_read_excel 0%nat 1%nat "first.csv" "second.xlsx" 0 0
           "id" "id" demo_pairs demo_state demo_loaded.1 demo_loaded.2
           demo_session_results demo_session_final
           ltac:(discriminate) demo_load demo_loaded_wf1 demo_loaded_wf2
           demo_session_run demo_matching_pair
           ("comparison_0", ("name", "name"))).
  - apply (bool_decide_unpack _). vm_compute. exact I.
  - apply (bool_decide_unpack _). vm_compute. exact I.
Defined.
